(** * GFXReconstruct capture layer: settings loader and D3D12/DXGI wrappers

    A shallow embedding of

    - [framework/util/settings_loader.cpp]
      ([RemoveQuotes], [FindLayerSettingsFile], [LoadLayerSettingsFile]),
      and
    - [framework/generated/generated_dx12_wrappers.cpp]
      (the intercepted DXGI / D3D12 entry points and the constructors,
      destructors and [GetExistingWrapper] functions of the wrapper
      classes),

    together with the properties the design document states about them and
    further properties of the code. *)

From Stdlib Require Import Ascii.
From Stdlib Require String.
From stdpp Require Import base numbers option list strings gmap.

Local Open Scope Z_scope.
Set Warnings "-register-all".

(** ** Part I: [util/settings_loader.cpp] *)

Module SettingsLoader.

(** *** Characters and [std::string]

    A [std::string] is a Rocq [string]: a finite sequence of bytes that may
    contain the NUL character.  [c_str] is what a C library function sees
    of it: the bytes before the first NUL. *)

Definition NUL : ascii := "000"%char.
Definition TAB : ascii := "009"%char.
Definition LF : ascii := "010"%char.
Definition VT : ascii := "011"%char.
Definition FF : ascii := "012"%char.
Definition CR : ascii := "013"%char.
Definition SPACE : ascii := " "%char.
Definition EQUALS : ascii := "="%char.
Definition DQUOTE : ascii := "034"%char.
Definition SQUOTE : ascii := "'"%char.

Definition kCommentDelimiter : ascii := "#"%char.
Definition kDefaultTokenSize : nat := 512.

(** [EINVAL] of [<cerrno>] (22 on Linux and on Windows). *)
Definition EINVAL : Z := 22.
(** [ENOENT] of [<cerrno>]: what opening a missing file leaves in [errno]. *)
Definition ENOENT : Z := 2.

Fixpoint c_str (s : string) : string :=
  match s with
  | EmptyString => EmptyString
  | String c r => if Ascii.eqb c NUL then EmptyString else String c (c_str r)
  end.

Fixpoint has_char (c : ascii) (s : string) : bool :=
  match s with
  | EmptyString => false
  | String d r => Ascii.eqb d c || has_char c r
  end.

(** [size_t] is taken to be 64 bits wide; subtraction wraps around. *)
Definition size_t_modulus : Z := 2 ^ 64.
Definition size_t_sub (a b : Z) : Z := (a - b) mod size_t_modulus.
Definition length_z (s : string) : Z := Z.of_nat (String.length s).

(** [std::string::front] and [back]: undefined on the empty string, which
    is [None] here. *)
Definition front (s : string) : option ascii :=
  match s with
  | EmptyString => None
  | String c _ => Some c
  end.

Fixpoint back (s : string) : option ascii :=
  match s with
  | EmptyString => None
  | String c EmptyString => Some c
  | String _ r => back r
  end.

(** [std::string::substr (pos, n)]: throws [std::out_of_range] ([None])
    when [pos > size()], and otherwise returns the characters
    [[pos, pos + min (n, size () - pos))]. *)
Definition substr (s : string) (pos n : Z) : option string :=
  if length_z s <? pos then None
  else Some (String.substring (Z.to_nat pos)
                       (Z.to_nat (Z.min n (length_z s - pos))) s).

Definition is_quote (c : ascii) : bool :=
  Ascii.eqb c DQUOTE || Ascii.eqb c SQUOTE.

(** [RemoveQuotes], lines 55-77. *)
Definition RemoveQuotes (source : string) : option string :=
  f ← front source;
  b ← back source;
  let start_index := 0 in
  let quote_count := 0 in
  let '(start_index, quote_count) :=
    if is_quote f then (1, quote_count + 1) else (start_index, quote_count) in
  let quote_count := if is_quote b then quote_count + 1 else quote_count in
  if 0 <? quote_count
  then substr source start_index (size_t_sub (length_z source) quote_count)
  else Some source.

(** *** [sscanf] with the format of the Vulkan layers

    [" %511[^\r\n\t =] = %511[^\r\n \t]"]: white space, a key of at most 511
    characters none of which is CR, LF, TAB, space or [=], white space, a
    literal [=], white space, a value of at most 511 characters none of
    which is CR, LF, space or TAB. *)

Definition isspace (c : ascii) : bool :=
  Ascii.eqb c SPACE || Ascii.eqb c TAB || Ascii.eqb c LF
  || Ascii.eqb c VT || Ascii.eqb c FF || Ascii.eqb c CR.

Definition key_char (c : ascii) : bool :=
  negb (Ascii.eqb c CR || Ascii.eqb c LF || Ascii.eqb c TAB
        || Ascii.eqb c SPACE || Ascii.eqb c EQUALS).

Definition value_char (c : ascii) : bool :=
  negb (Ascii.eqb c CR || Ascii.eqb c LF || Ascii.eqb c SPACE
        || Ascii.eqb c TAB).

Fixpoint skip_space (s : string) : string :=
  match s with
  | EmptyString => EmptyString
  | String c r => if isspace c then skip_space r else s
  end.

(** A [%width[set]] conversion: the longest prefix of at most [width]
    characters of the set, and what follows it. *)
Fixpoint scan_set (set : ascii → bool) (width : nat) (s : string)
  : string * string :=
  match width, s with
  | S w, String c r =>
      if set c
      then let '(tok, rest) := scan_set set w r in (String c tok, rest)
      else (EmptyString, s)
  | _, _ => (EmptyString, s)
  end.

Definition is_empty (s : string) : bool :=
  match s with EmptyString => true | _ => false end.

(** The call [sscanf (input, format, key, value)] on a C string: the
    number of conversions assigned ([EOF], that is [-1], when the input
    ends before the first one) and the two buffers afterwards. *)
Definition sscanf (input : string) (key value : string)
  : Z * string * string :=
  let s1 := skip_space input in
  if is_empty s1 then (-1, key, value)
  else
    let '(k, s2) := scan_set key_char (kDefaultTokenSize - 1) s1 in
    if is_empty k then (0, key, value)
    else
      match skip_space s2 with
      | String c s4 =>
          if Ascii.eqb c EQUALS
          then
            let s5 := skip_space s4 in
            if is_empty s5 then (1, k, value)
            else
              let '(v, _) := scan_set value_char (kDefaultTokenSize - 1) s5 in
              if is_empty v then (1, k, value) else (2, k, v)
          else (1, k, value)
      | EmptyString => (1, k, value)
      end.

(** Modelled from the spec: [platform::StringCompare] is declared in
    [util/platform.h], which is not among the sources; the settings loader
    uses it as the C library's [strncmp] on NUL-terminated strings, which is
    what is written here (the arguments are the C strings, without their
    terminator). *)
Fixpoint StringCompare (s1 s2 : string) (n : nat) : Z :=
  match n with
  | O => 0
  | S n' =>
      match s1, s2 with
      | EmptyString, EmptyString => 0
      | EmptyString, String c2 _ => 0 - Z.of_nat (nat_of_ascii c2)
      | String c1 _, EmptyString => Z.of_nat (nat_of_ascii c1)
      | String c1 r1, String c2 r2 =>
          if Ascii.eqb c1 c2 then StringCompare r1 r2 n'
          else Z.of_nat (nat_of_ascii c1) - Z.of_nat (nat_of_ascii c2)
      end
  end.

(** *** Lines of the file *)

(** [line.find_first_of (kCommentDelimiter)]; [None] is [npos]. *)
Fixpoint find_first_of (c : ascii) (s : string) : option nat :=
  match s with
  | EmptyString => None
  | String d r =>
      if Ascii.eqb d c then Some O else S <$> find_first_of c r
  end.

(** [line.erase (pos, npos)]. *)
Definition erase_from (pos : nat) (s : string) : string := String.substring 0 pos s.

Definition strip_comment (line : string) : string :=
  match find_first_of kCommentDelimiter line with
  | Some comment_start => erase_from comment_start line
  | None => line
  end.

(** The state of the loop of [LoadLayerSettingsFile]: the two token
    buffers and the map behind [settings]. *)
Record LoopState := {
  key_buf : string;
  value_buf : string;
  settings_map : gmap string string
}.

(** The body of the [while] loop, lines 226-250, for one [line]. *)
Definition process_line (filter : string) (line : string) (st : LoopState)
  : option LoopState :=
  let line := strip_comment line in
  let '(n, key, value) := sscanf (c_str line) (key_buf st) (value_buf st) in
  if n =? 2
  then
    if is_empty filter
       || (StringCompare key (c_str filter) (String.length filter) =? 0)
    then
      unquoted ← RemoveQuotes value;
      Some {| key_buf := key; value_buf := value;
              settings_map := <[key := unquoted]> (settings_map st) |}
    else Some {| key_buf := key; value_buf := value;
                 settings_map := settings_map st |}
  else Some {| key_buf := key; value_buf := value;
               settings_map := settings_map st |}.

(** *** The file system and [std::ifstream]

    A file either cannot be opened, which leaves an error code in [errno],
    or delivers its content and then reaches end-of-file or, when
    [read_error] is set, fails with a device error that leaves its code in
    [errno].  The world records every attempt to open a file. *)

Inductive FileEntry :=
| Unreadable (err : Z)
| Readable (content : string) (read_error : option Z).

Record World := {
  files : gmap string FileEntry;
  errno : Z;
  opened : list string
}.

Definition set_errno (e : Z) (w : World) : World :=
  {| files := files w; errno := e; opened := opened w |}.

Record ifstream := {
  pending : string;
  device_error : option Z;
  eofbit : bool;
  failbit : bool;
  badbit : bool
}.

Definition good (file : ifstream) : bool :=
  negb (eofbit file || failbit file || badbit file).

Definition eof (file : ifstream) : bool := eofbit file.

(** [std::ifstream file (filename)]. *)
Definition open (filename : string) (w : World) : ifstream * World :=
  let w := {| files := files w; errno := errno w;
              opened := opened w ++ [filename] |} in
  match files w !! filename with
  | Some (Readable content read_error) =>
      ({| pending := content; device_error := read_error;
          eofbit := false; failbit := false; badbit := false |}, w)
  | Some (Unreadable err) =>
      ({| pending := EmptyString; device_error := None;
          eofbit := false; failbit := true; badbit := false |},
       set_errno err w)
  | None =>
      ({| pending := EmptyString; device_error := None;
          eofbit := false; failbit := true; badbit := false |},
       set_errno ENOENT w)
  end.

(** The characters before the first line feed, and what follows it when
    there is one. *)
Fixpoint read_line (s : string) : string * option string :=
  match s with
  | EmptyString => (EmptyString, None)
  | String c r =>
      if Ascii.eqb c LF then (EmptyString, Some r)
      else let '(l, rest) := read_line r in (String c l, rest)
  end.

(** [std::getline (file, line)]: on a stream that is not good it sets
    [failbit] and leaves [line] alone; otherwise it extracts up to the next
    line feed, setting [eofbit] (and [failbit] when nothing was extracted)
    at the end of the file and [badbit] on a device error. *)
Definition getline (file : ifstream) (line : string) (w : World)
  : ifstream * string * World :=
  if good file
  then
    match read_line (pending file) with
    | (l, Some rest) =>
        ({| pending := rest; device_error := device_error file;
            eofbit := false; failbit := false; badbit := false |}, l, w)
    | (l, None) =>
        match device_error file with
        | Some err =>
            ({| pending := EmptyString; device_error := device_error file;
                eofbit := false; failbit := false; badbit := true |},
             l, set_errno err w)
        | None =>
            ({| pending := EmptyString; device_error := None;
                eofbit := true; failbit := is_empty l; badbit := false |},
             l, w)
        end
    end
  else
    ({| pending := pending file; device_error := device_error file;
        eofbit := eofbit file; failbit := true; badbit := badbit file |},
     line, w).

(** The [while (file.good ())] loop, lines 224-253.  [fuel] bounds the
    number of iterations; [None] stands for running out of it. *)
Fixpoint read_loop (fuel : nat) (filter : string) (file : ifstream)
    (line : string) (st : LoopState) (w : World)
  : option (ifstream * LoopState * World) :=
  if good file
  then
    match fuel with
    | O => None
    | S fuel' =>
        st' ← process_line filter line st;
        let '(file', line', w') := getline file line w in
        read_loop fuel' filter file' line' st' w'
    end
  else Some (file, st, w).

(** [LoadLayerSettingsFile], lines 204-268.  [settings] is [None] for a
    null pointer.  The result is the returned code, the map behind
    [settings] and the world afterwards. *)
Definition LoadLayerSettingsFile (filename filter : string)
    (settings : option (gmap string string)) (w : World)
  : option (Z * option (gmap string string) * World) :=
  match settings with
  | None => Some (EINVAL, None, w)
  | Some m =>
      let result := 0 in
      let '(file, w) := open filename w in
      if good file
      then
        let st := {| key_buf := EmptyString; value_buf := EmptyString;
                     settings_map := m |} in
        let line := EmptyString in
        let '(file, line, w) := getline file line w in
        '(file, st, w) ←
          read_loop (S (String.length (pending file))) filter file line st w;
        let result := if negb (eof file) then errno w else result in
        Some (result, Some (settings_map st), w)
      else
        let result := errno w in
        Some (result, Some m, w)
  end.

(** The lines of a file that end in a line feed, and the unterminated
    rest. *)
Fixpoint split_lines (s : string) : list string * string :=
  match s with
  | EmptyString => ([], EmptyString)
  | String c r =>
      if Ascii.eqb c LF
      then let '(ls, tail) := split_lines r in (EmptyString :: ls, tail)
      else
        match split_lines r with
        | ([], tail) => ([], String c tail)
        | (l :: ls, tail) => (String c l :: ls, tail)
        end
  end.

Fixpoint process_lines (filter : string) (ls : list string) (st : LoopState)
  : option LoopState :=
  match ls with
  | [] => Some st
  | l :: ls' => st' ← process_line filter l st; process_lines filter ls' st'
  end.

Definition empty_world : World :=
  {| files := ∅; errno := 0; opened := [] |}.

Definition sample_file : string :=
  String.concat (String LF EmptyString)
    [ "# layer settings";
      "lunarg_gfxrecon.capture_file = 'capture.gfxr' # quoted";
      "other.key=1";
      "lunarg_gfxrecon.log_level   =  " +:+ String DQUOTE "debug";
      "   ";
      "lunarg_gfxrecon.page_guard = true" ].

Definition sample_world : World :=
  {| files := {[ "vk_layer_settings.txt" := Readable sample_file None;
                 "broken.txt" := Readable ("a = 1" +:+ String LF "b = 2")
                                          (Some 5);
                 "secret.txt" := Unreadable 13 ]};
     errno := 0; opened := [] |}.

(** *** Notions used to state the properties *)

Fixpoint all_chars (P : ascii → bool) (s : string) : bool :=
  match s with
  | EmptyString => true
  | String c r => P c && all_chars P r
  end.

(** [init s] is [s] without its last character. *)
Fixpoint init (s : string) : string :=
  match s with
  | EmptyString => EmptyString
  | String c EmptyString => EmptyString
  | String c r => String c (init r)
  end.

(** A string made of no character, or of one quote character. *)
Definition at_most_one_quote (s : string) : Prop :=
  s = EmptyString ∨ ∃ q, is_quote q = true ∧ s = String q EmptyString.

(** What the design calls a line of the form [key = value]: optional white
    space, a key, optional white space, [=], optional white space, a value,
    anything. *)
Definition parses_as_key_value (input key value : string) : Prop :=
  ∃ ws1 ws2 ws3 rest,
    input = ws1 +:+ key +:+ ws2 +:+ String EQUALS (ws3 +:+ value +:+ rest)
    ∧ all_chars isspace ws1 = true
    ∧ all_chars isspace ws2 = true
    ∧ all_chars isspace ws3 = true
    ∧ key ≠ EmptyString ∧ all_chars key_char key = true
    ∧ (String.length key ≤ 511)%nat
    ∧ value ≠ EmptyString ∧ all_chars value_char value = true
    ∧ (String.length value ≤ 511)%nat.

(** What the loop body may store for the text of a line whose comment has
    been removed: the key and value of a [key = value] form found in the
    text (in its part before any NUL character), the key passing the
    filter, the value without its quotes. *)
Definition stored_entry (filter text key unquoted : string) : Prop :=
  ∃ value pre suf,
    parses_as_key_value text key value
    ∧ parses_as_key_value (c_str text) key value
    ∧ (is_empty filter = false → has_char NUL filter = false →
       ∃ rest, key = filter +:+ rest)
    ∧ (has_char NUL filter = true → key = c_str filter)
    ∧ RemoveQuotes value = Some unquoted
    ∧ value = pre +:+ unquoted +:+ suf
    ∧ at_most_one_quote pre ∧ at_most_one_quote suf.

(** The stream and the world once the content has been consumed. *)
Definition end_of_stream (file : ifstream) (tail : string) : ifstream :=
  match device_error file with
  | Some err =>
      {| pending := EmptyString; device_error := Some err;
         eofbit := false; failbit := false; badbit := true |}
  | None =>
      {| pending := EmptyString; device_error := None;
         eofbit := true; failbit := is_empty tail; badbit := false |}
  end.

Definition end_of_world (file : ifstream) (w : World) : World :=
  match device_error file with
  | Some err => set_errno err w
  | None => w
  end.

(** The world after [LoadLayerSettingsFile] has read a file. *)
Definition world_after (filename : string) (read_error : option Z) (w : World)
  : World :=
  {| files := files w;
     errno := default (errno w) read_error;
     opened := opened w ++ [filename] |}.

Definition loop_start (m : gmap string string) : LoopState :=
  {| key_buf := EmptyString; value_buf := EmptyString; settings_map := m |}.

(** Characters that neither the comment stripping nor [c_str] cuts a line
    at. *)
Definition uncut_char (c : ascii) : bool :=
  negb (Ascii.eqb c kCommentDelimiter) && negb (Ascii.eqb c NUL).

(** A character of a token as files usually have them: no white space, no
    comment delimiter, no NUL. *)
Definition plain_char (c : ascii) : bool := negb (isspace c) && uncut_char c.

Definition plain_key_char (c : ascii) : bool :=
  plain_char c && negb (Ascii.eqb c EQUALS).

(** White space that ends a key: space, TAB, CR and LF (VT and FF are white
    space to [sscanf] but belong to the scan set of the key). *)
Definition separator (c : ascii) : bool := isspace c && negb (key_char c).

(** What may follow a value for the value to end there: nothing, white
    space other than VT and FF, a comment or a NUL. *)
Definition ends_token (rest : string) : bool :=
  match rest with
  | EmptyString => true
  | String c _ => negb (value_char c) || negb (uncut_char c)
  end.

(** A line with an entry as files usually have them: optional white
    space, a key of plain characters other than [=], optional separators,
    [=], optional white space, a value of plain characters, and then the end
    of the value, unless the value has the full 511 characters. *)
Definition plain_entry (line key value : string) : Prop :=
  ∃ ws1 ws2 ws3 rest,
    line = ws1 +:+ key +:+ ws2 +:+ String EQUALS (ws3 +:+ value +:+ rest)
    ∧ all_chars isspace ws1 = true
    ∧ all_chars separator ws2 = true
    ∧ all_chars isspace ws3 = true
    ∧ key ≠ EmptyString ∧ all_chars plain_key_char key = true
    ∧ (String.length key ≤ 511)%nat
    ∧ value ≠ EmptyString ∧ all_chars plain_char value = true
    ∧ (String.length value ≤ 511)%nat
    ∧ (ends_token rest = true ∨ String.length value = 511%nat).

(** An entry the loader may have written for the filter: a key of at most
    511 characters of the scan set of the key that starts with the filter
    as [strncmp] reads it, the C string [c_str filter] (the filter up to
    its first NUL character, all of it when it has none), and is that C
    string when the filter has a NUL character; and a value of at most 511
    characters of the scan set of the value. *)
Definition loaded_entry (filter key : string) (stored : option string)
  : Prop :=
  key ≠ EmptyString
  ∧ all_chars key_char key = true
  ∧ (String.length key ≤ 511)%nat
  ∧ (∃ rest, key = c_str filter +:+ rest
             ∧ (has_char NUL filter = true → rest = EmptyString))
  ∧ ∃ value, stored = Some value
      ∧ all_chars value_char value = true
      ∧ (String.length value ≤ 511)%nat.

(** The entry the loop body stores for a line, if it stores one. *)
Definition line_entry (filter line : string) : option (string * string) :=
  let '(n, key, value) :=
    sscanf (c_str (strip_comment line)) EmptyString EmptyString in
  if (n =? 2)
     && (is_empty filter
         || (StringCompare key (c_str filter) (String.length filter) =? 0))
  then unquoted ← RemoveQuotes value; Some (key, unquoted)
  else None.

Definition store (m : gmap string string) (entry : string * string)
  : gmap string string :=
  <[entry.1 := entry.2]> m.

(** [n] times the character [c]. *)
Fixpoint replicate_char (n : nat) (c : ascii) : string :=
  match n with
  | O => EmptyString
  | S n' => String c (replicate_char n' c)
  end.

(** The text of a file whose last line is terminated: empty, or ending in
    a line feed. *)
Definition terminated (content : string) : Prop :=
  content = EmptyString ∨ ∃ text, content = text +:+ String LF EmptyString.

(** The world in which the file [filename] holds [content]. *)
Definition with_file (filename content : string) (read_error : option Z)
    (w : World) : World :=
  {| files := <[filename := Readable content read_error]> (files w);
     errno := errno w; opened := opened w |}.

(** *** [FindLayerSettingsFile], lines 79-202

    The branches for Linux and for Android; the Windows branch walks the
    registry and is not embedded.  The functions of [util/platform.h] and
    [util/file_path.h] it calls are not among the sources: they are the
    fields of a [Platform], about which nothing is assumed. *)

Definition kDataHome : string := "XDG_DATA_HOME".
Definition kUserHome : string := "HOME".
Definition kUserShareDir : string := ".local/share/".
Definition kSettingsDir : string := "vulkan/settings.d/".
Definition kSettingsFilename : string := "vk_layer_settings.txt".

Inductive OS := Linux | Android.

Definition kSettingsEnvVar (os : OS) : string :=
  match os with
  | Android => "debug.gfxrecon.settings_path"
  | Linux => "VK_LAYER_SETTINGS_PATH"
  end.

Record Platform := {
  GetEnv : string → string;
  IsFile : string → bool;
  IsDirectory : string → bool;
  Join : string → string → string
}.

Definition FindLayerSettingsFile (os : OS) (p : Platform) : string :=
  let settings_file := EmptyString in
  let settings_file :=
    match os with
    | Linux =>
        let search_path := GetEnv p kDataHome in
        let search_path :=
          if is_empty search_path
          then
            let search_path := GetEnv p kUserHome in
            if negb (is_empty search_path)
            then Join p search_path kUserShareDir
            else search_path
          else search_path in
        if negb (is_empty search_path)
        then
          let search_path := Join p search_path kSettingsDir in
          let search_path := search_path +:+ kSettingsFilename in
          if IsFile p search_path then search_path else settings_file
        else settings_file
    | Android => settings_file
    end in
  let settings_file :=
    if is_empty settings_file
    then
      let env_path := GetEnv p (kSettingsEnvVar os) in
      if negb (is_empty env_path)
      then
        let env_path :=
          if IsDirectory p env_path
          then Join p env_path kSettingsFilename
          else env_path in
        if IsFile p env_path then env_path else settings_file
      else settings_file
    else settings_file in
  let settings_file :=
    if is_empty settings_file
    then
      if IsFile p kSettingsFilename then kSettingsFilename else settings_file
    else settings_file in
  settings_file.

(** The place the vkconfig file is looked for on Linux. *)
Definition vkconfig_path (p : Platform) (data_home : string) : string :=
  Join p data_home kSettingsDir +:+ kSettingsFilename.

(** The directory searched for the vkconfig file: [XDG_DATA_HOME] when it
    is set, else [.local/share/] under [HOME] when that is set. *)
Definition data_home (p : Platform) : string :=
  if is_empty (GetEnv p kDataHome)
  then
    if is_empty (GetEnv p kUserHome) then EmptyString
    else Join p (GetEnv p kUserHome) kUserShareDir
  else GetEnv p kDataHome.

(** The path the environment variable of the layers stands for: the
    settings file in it when it names a directory, else itself. *)
Definition env_path (os : OS) (p : Platform) : string :=
  if IsDirectory p (GetEnv p (kSettingsEnvVar os))
  then Join p (GetEnv p (kSettingsEnvVar os)) kSettingsFilename
  else GetEnv p (kSettingsEnvVar os).

(** The platform with the environment variable [name] set to [value]. *)
Definition setenv (name value : string) (p : Platform) : Platform :=
  {| GetEnv := λ n, if String.eqb n name then value else GetEnv p n;
     IsFile := IsFile p; IsDirectory := IsDirectory p; Join := Join p |}.

(** Two platforms that differ at most in the values of the environment
    variables [ignored]. *)
Definition same_but (ignored : list string) (p p' : Platform) : Prop :=
  (∀ name, name ∉ ignored → GetEnv p name = GetEnv p' name)
  ∧ (∀ path, IsFile p path = IsFile p' path)
  ∧ (∀ path, IsDirectory p path = IsDirectory p' path)
  ∧ (∀ a b, Join p a b = Join p' a b).

(** A platform of a user whose home directory holds a vkconfig file, with
    the environment variable of the layers pointing to a directory. *)
Definition sample_platform : Platform :=
  {| GetEnv := λ name,
       if String.eqb name "HOME" then "/home/u"
       else if String.eqb name "VK_LAYER_SETTINGS_PATH" then "/etc/layers"
       else if String.eqb name "debug.gfxrecon.settings_path"
            then "/etc/layers"
       else EmptyString;
     IsFile := λ path,
       String.eqb path
         "/home/u/.local/share/vulkan/settings.d/vk_layer_settings.txt"
       || String.eqb path "/etc/layers/vk_layer_settings.txt";
     IsDirectory := λ path, String.eqb path "/etc/layers";
     Join := λ a b,
       match back a with
       | Some "/"%char => a +:+ b
       | _ => a +:+ String "/"%char b
       end |}.

End SettingsLoader.


(** ** Part II: [generated/generated_dx12_wrappers.cpp] *)

Module Dx12Wrappers.

(** *** Data model *)

Definition thread := nat.
Definition IID := string.
Definition ApiCallId := string.
Definition CaptureId := N.
Definition address := N.
Definition HRESULT := Z.

Definition S_OK : HRESULT := 0.
Definition E_FAIL : HRESULT := -2147467259.
Definition E_NOINTERFACE : HRESULT := -2147467262.

(** The [SUCCEEDED] macro of the Windows SDK: [((HRESULT)(hr)) >= 0]. *)
Definition SUCCEEDED (hr : HRESULT) : bool := 0 <=? hr.

(** An interface pointer: null, a pointer to an object of the driver, or a
    pointer to one of the wrappers of this layer. *)
Inductive ref :=
| Null
| Real (object : address)
| Wrapped (wrapper : address).

(** A data pointer: null, into the memory of the application, or into the
    scratch memory of a thread (the [index]-th buffer handed out since it
    was last reset). *)
Inductive pointer :=
| PNull
| PApp (a : address)
| PScratch (t : thread) (index : nat).

(** A cell of a structure or array: plain data, an interface pointer of a
    static interface type, or a nested structure. *)
Inductive field :=
| FVal (z : Z)
| FObj (iid : IID) (r : ref)
| FStruct (fields : list field).

(** An argument of a call. *)
Inductive arg :=
| Val (z : Z)
| Iid (riid : IID)
| Obj (r : ref)
| Ptr (p : pointer)
| Struct (fields : list field).

(** The wrapper classes the file defines, in its order, each with the
    class it derives from and whether its constructor registers the wrapper
    in an [object_map_] of its own ([AddWrapperMapEntry]). *)
Definition wrapper_classes : list (IID * (IID * bool)) :=
  [
    ("IDXGIObject", ("IUnknown", false));
    ("IDXGIDeviceSubObject", ("IDXGIObject", false));
    ("IDXGIResource", ("IDXGIDeviceSubObject", true));
    ("IDXGIKeyedMutex", ("IDXGIDeviceSubObject", true));
    ("IDXGISurface", ("IDXGIDeviceSubObject", true));
    ("IDXGISurface1", ("IDXGISurface", false));
    ("IDXGIAdapter", ("IDXGIObject", true));
    ("IDXGIOutput", ("IDXGIObject", true));
    ("IDXGISwapChain", ("IDXGIDeviceSubObject", true));
    ("IDXGIFactory", ("IDXGIObject", true));
    ("IDXGIDevice", ("IDXGIObject", true));
    ("IDXGIFactory1", ("IDXGIFactory", false));
    ("IDXGIAdapter1", ("IDXGIAdapter", false));
    ("IDXGIDevice1", ("IDXGIDevice", false));
    ("IDXGIDisplayControl", ("IUnknown", true));
    ("IDXGIOutputDuplication", ("IDXGIObject", true));
    ("IDXGISurface2", ("IDXGISurface1", false));
    ("IDXGIResource1", ("IDXGIResource", false));
    ("IDXGIDevice2", ("IDXGIDevice1", false));
    ("IDXGISwapChain1", ("IDXGISwapChain", false));
    ("IDXGIFactory2", ("IDXGIFactory1", false));
    ("IDXGIAdapter2", ("IDXGIAdapter1", false));
    ("IDXGIOutput1", ("IDXGIOutput", false));
    ("IDXGIDevice3", ("IDXGIDevice2", false));
    ("IDXGISwapChain2", ("IDXGISwapChain1", false));
    ("IDXGIOutput2", ("IDXGIOutput1", false));
    ("IDXGIFactory3", ("IDXGIFactory2", false));
    ("IDXGIDecodeSwapChain", ("IUnknown", true));
    ("IDXGIFactoryMedia", ("IUnknown", true));
    ("IDXGISwapChainMedia", ("IUnknown", true));
    ("IDXGIOutput3", ("IDXGIOutput2", false));
    ("IDXGISwapChain3", ("IDXGISwapChain2", false));
    ("IDXGIOutput4", ("IDXGIOutput3", false));
    ("IDXGIFactory4", ("IDXGIFactory3", false));
    ("IDXGIAdapter3", ("IDXGIAdapter2", false));
    ("IDXGIOutput5", ("IDXGIOutput4", false));
    ("IDXGISwapChain4", ("IDXGISwapChain3", false));
    ("IDXGIDevice4", ("IDXGIDevice3", false));
    ("IDXGIFactory5", ("IDXGIFactory4", false));
    ("IDXGIAdapter4", ("IDXGIAdapter3", false));
    ("IDXGIOutput6", ("IDXGIOutput5", false));
    ("IDXGIFactory6", ("IDXGIFactory5", false));
    ("IDXGIFactory7", ("IDXGIFactory6", false));
    ("ID3D12Object", ("IUnknown", false));
    ("ID3D12DeviceChild", ("ID3D12Object", false));
    ("ID3D12RootSignature", ("ID3D12DeviceChild", true));
    ("ID3D12RootSignatureDeserializer", ("IUnknown", true));
    ("ID3D12VersionedRootSignatureDeserializer", ("IUnknown", true));
    ("ID3D12Pageable", ("ID3D12DeviceChild", false));
    ("ID3D12Heap", ("ID3D12Pageable", true));
    ("ID3D12Resource", ("ID3D12Pageable", true));
    ("ID3D12CommandAllocator", ("ID3D12Pageable", true));
    ("ID3D12Fence", ("ID3D12Pageable", true));
    ("ID3D12Fence1", ("ID3D12Fence", false));
    ("ID3D12PipelineState", ("ID3D12Pageable", true));
    ("ID3D12DescriptorHeap", ("ID3D12Pageable", true));
    ("ID3D12QueryHeap", ("ID3D12Pageable", true));
    ("ID3D12CommandSignature", ("ID3D12Pageable", true));
    ("ID3D12CommandList", ("ID3D12DeviceChild", false));
    ("ID3D12GraphicsCommandList", ("ID3D12CommandList", true));
    ("ID3D12GraphicsCommandList1", ("ID3D12GraphicsCommandList", false));
    ("ID3D12GraphicsCommandList2", ("ID3D12GraphicsCommandList1", false));
    ("ID3D12CommandQueue", ("ID3D12Pageable", true));
    ("ID3D12Device", ("ID3D12Object", true));
    ("ID3D12PipelineLibrary", ("ID3D12DeviceChild", true));
    ("ID3D12PipelineLibrary1", ("ID3D12PipelineLibrary", false));
    ("ID3D12Device1", ("ID3D12Device", false));
    ("ID3D12Device2", ("ID3D12Device1", false));
    ("ID3D12Device3", ("ID3D12Device2", false));
    ("ID3D12ProtectedSession", ("ID3D12DeviceChild", false));
    ("ID3D12ProtectedResourceSession", ("ID3D12ProtectedSession", true));
    ("ID3D12Device4", ("ID3D12Device3", false));
    ("ID3D12LifetimeOwner", ("IUnknown", true));
    ("ID3D12SwapChainAssistant", ("IUnknown", true));
    ("ID3D12LifetimeTracker", ("ID3D12DeviceChild", true));
    ("ID3D12StateObject", ("ID3D12Pageable", true));
    ("ID3D12StateObjectProperties", ("IUnknown", true));
    ("ID3D12Device5", ("ID3D12Device4", false));
    ("ID3D12DeviceRemovedExtendedDataSettings", ("IUnknown", true));
    ("ID3D12DeviceRemovedExtendedDataSettings1", ("ID3D12DeviceRemovedExtendedDataSettings", false));
    ("ID3D12DeviceRemovedExtendedData", ("IUnknown", true));
    ("ID3D12DeviceRemovedExtendedData1", ("ID3D12DeviceRemovedExtendedData", false));
    ("ID3D12Device6", ("ID3D12Device5", false));
    ("ID3D12ProtectedResourceSession1", ("ID3D12ProtectedResourceSession", false));
    ("ID3D12Device7", ("ID3D12Device6", false));
    ("ID3D12Device8", ("ID3D12Device7", false));
    ("ID3D12Resource1", ("ID3D12Resource", false));
    ("ID3D12Resource2", ("ID3D12Resource1", false));
    ("ID3D12Heap1", ("ID3D12Heap", false));
    ("ID3D12GraphicsCommandList3", ("ID3D12GraphicsCommandList2", false));
    ("ID3D12MetaCommand", ("ID3D12Pageable", true));
    ("ID3D12GraphicsCommandList4", ("ID3D12GraphicsCommandList3", false));
    ("ID3D12Tools", ("IUnknown", true));
    ("ID3D12GraphicsCommandList5", ("ID3D12GraphicsCommandList4", false));
    ("ID3D12GraphicsCommandList6", ("ID3D12GraphicsCommandList5", false));
    ("ID3D10Blob", ("IUnknown", true));
    ("ID3DDestructionNotifier", ("IUnknown", true))
  ].

Fixpoint assoc {A : Type} (k : string) (l : list (string * A)) : option A :=
  match l with
  | [] => None
  | (k', v) :: l' => if String.eqb k k' then Some v else assoc k l'
  end.

(** The class in whose [object_map_] a wrapper created for [riid] is
    registered: the nearest class of its constructor chain that has one.
    [None] when no wrapper class exists for [riid], and also for the seven
    wrapper classes that neither declare nor inherit a map ([IDXGIObject],
    [IDXGIDeviceSubObject], [ID3D12Object], [ID3D12DeviceChild],
    [ID3D12Pageable], [ID3D12CommandList], [ID3D12ProtectedSession]):
    their constructors register nothing and they have no
    [GetExistingWrapper]. *)
Fixpoint object_map_owner (fuel : nat) (riid : IID) : option IID :=
  match fuel with
  | O => None
  | S fuel' =>
      match assoc riid wrapper_classes with
      | Some (base, true) => Some riid
      | Some (base, false) => object_map_owner fuel' base
      | None => None
      end
  end.

Definition interface_type (riid : IID) : option IID :=
  object_map_owner (length wrapper_classes) riid.

(** [IUnknown_Wrapper]: the wrapped object, the interface it was wrapped
    as and its capture id. *)
Record WrapperInfo := {
  w_object : address;
  w_riid : IID;
  w_capture_id : CaptureId
}.

(** The identity registry: the static [object_map_] of every class (keyed
    by class and real object), the live wrappers, the capture id given to
    each real object and the next free capture id and wrapper address. *)
Record Registry := {
  object_map_ : gmap (IID * address) address;
  wrappers : gmap address WrapperInfo;
  object_ids : gmap address CaptureId;
  next_capture_id : CaptureId;
  next_wrapper : address
}.

(** An argument as the encoder writes it: interface pointers become
    capture ids ([None] for a pointer that is not a live wrapper), data
    pointers the cells they point to. *)
Inductive encoded :=
| EVal (z : Z)
| EIid (riid : IID)
| EId (id : option CaptureId)
| ENull
| EBlock (cells : list encoded).

Record TraceRecord := {
  tr_call : ApiCallId;
  tr_object : option CaptureId;
  tr_result : option Z;
  tr_payload : list encoded
}.

(** Where a wrapper forwards a call: to the real implementation (the
    dispatch table for a function, the wrapped object for a method), or to
    an [Override...] hook of the capture manager, which receives the
    wrapper itself. *)
Inductive Target :=
| RealCall (object : option ref)
| OverrideCall (wrapper : option address).

(** What a call reads through an argument when it is made. *)
Inductive view :=
| VArg (a : arg)
| VBlock (p : pointer) (cells : list field).

(** The operations on the capture manager and on the driver, in the order
    they happen. *)
Inductive Event :=
| EvIncrementCallScope (t : thread) (depth : Z)
| EvDecrementCallScope (t : thread) (depth : Z)
| EvPreCall (id : ApiCallId) (this : option address) (args : list arg)
| EvUnwrapMemory (t : thread)
| EvForward (target : Target) (id : ApiCallId) (args : list view)
| EvWrap (riid : IID) (object : pointer)
| EvEncode (id : ApiCallId) (this : option address) (result : option Z)
    (args : list arg)
| EvPostCall (id : ApiCallId) (this : option address) (result : option Z)
    (args : list arg).

Record State := {
  call_scope_ : gmap thread Z;
  capture_enabled : bool;
  trace : list TraceRecord;
  registry : Registry;
  app_memory : gmap address (list field);
  unwrap_memory_ : gmap thread (list (list field));
  log : list Event
}.

(** *** The state monad of the capture layer *)

Definition M (A : Type) : Type := State → A * State.

Definition ret {A : Type} (a : A) : M A := λ s, (a, s).

Definition bind {A B : Type} (m : M A) (k : A → M B) : M B :=
  λ s, let '(a, s') := m s in k a s'.

#[local] Notation "x <- m ;; k" := (bind m (λ x, k))
  (at level 100, m at next level, right associativity).
#[local] Notation "m ;;; k" := (bind m (λ _, k))
  (at level 100, right associativity).

Definition when (b : bool) (m : M ()) : M () := if b then m else ret ().

Definition set_call_scope (f : gmap thread Z → gmap thread Z) (s : State)
  : State :=
  {| call_scope_ := f (call_scope_ s); capture_enabled := capture_enabled s;
     trace := trace s; registry := registry s; app_memory := app_memory s;
     unwrap_memory_ := unwrap_memory_ s; log := log s |}.

Definition set_trace (f : list TraceRecord → list TraceRecord) (s : State)
  : State :=
  {| call_scope_ := call_scope_ s; capture_enabled := capture_enabled s;
     trace := f (trace s); registry := registry s; app_memory := app_memory s;
     unwrap_memory_ := unwrap_memory_ s; log := log s |}.

Definition set_registry (f : Registry → Registry) (s : State) : State :=
  {| call_scope_ := call_scope_ s; capture_enabled := capture_enabled s;
     trace := trace s; registry := f (registry s); app_memory := app_memory s;
     unwrap_memory_ := unwrap_memory_ s; log := log s |}.

Definition set_app_memory
    (f : gmap address (list field) → gmap address (list field)) (s : State)
  : State :=
  {| call_scope_ := call_scope_ s; capture_enabled := capture_enabled s;
     trace := trace s; registry := registry s; app_memory := f (app_memory s);
     unwrap_memory_ := unwrap_memory_ s; log := log s |}.

Definition set_unwrap_memory
    (f : gmap thread (list (list field)) → gmap thread (list (list field)))
    (s : State) : State :=
  {| call_scope_ := call_scope_ s; capture_enabled := capture_enabled s;
     trace := trace s; registry := registry s; app_memory := app_memory s;
     unwrap_memory_ := f (unwrap_memory_ s); log := log s |}.

Definition emit (e : Event) : M () :=
  λ s, ((), {| call_scope_ := call_scope_ s;
               capture_enabled := capture_enabled s;
               trace := trace s; registry := registry s;
               app_memory := app_memory s;
               unwrap_memory_ := unwrap_memory_ s; log := log s ++ [e] |}).

(** *** The capture manager *)

(** The value of the calling thread's [call_scope_] counter. *)
Definition call_scope (t : thread) (s : State) : Z :=
  default 0 (call_scope_ s !! t).

(** Modelled from the spec: [D3D12CaptureManager::IncrementCallScope] is
    declared in [encode/d3d12_capture_manager.h], which is not among the
    sources.  It increments the reentrancy counter of the calling thread
    and returns the depth after the increment. *)
Definition IncrementCallScope (t : thread) : M Z :=
  λ s, let depth := call_scope t s + 1 in
       bind (emit (EvIncrementCallScope t depth)) (λ _, ret depth)
            (set_call_scope <[t := depth]> s).

(** Modelled from the spec: [D3D12CaptureManager::DecrementCallScope], as
    [IncrementCallScope]: it decrements the counter of the calling
    thread. *)
Definition DecrementCallScope (t : thread) : M Z :=
  λ s, let depth := call_scope t s - 1 in
       bind (emit (EvDecrementCallScope t depth)) (λ _, ret depth)
            (set_call_scope <[t := depth]> s).

(** Modelled from the spec: [D3D12CaptureManager::GetHandleUnwrapMemory]
    hands out the scratch buffer of the calling thread, reset; the buffer
    is identified by its thread. *)
Definition GetHandleUnwrapMemory (t : thread) : M thread :=
  bind (emit (EvUnwrapMemory t))
       (λ _ s, (t, set_unwrap_memory <[t := []]> s)).

(** Modelled from the spec: the [CustomWrapperPreCall] and
    [CustomWrapperPostCall] hooks of
    [encode/custom_dx12_wrapper_commands.h] observe the call; their
    dispatch is recorded. *)
Definition CustomWrapperPreCall (id : ApiCallId) (this : option address)
    (args : list arg) : M () :=
  emit (EvPreCall id this args).

Definition CustomWrapperPostCall (id : ApiCallId) (this : option address)
    (result : option Z) (args : list arg) : M () :=
  emit (EvPostCall id this result args).

(** *** Object identity *)

(** [IUnknown_Wrapper::GetWrappedObjectAs] of a live wrapper. *)
Definition GetWrappedObjectAs (this : address) : M ref :=
  λ s, (match wrappers (registry s) !! this with
        | Some info => Real (w_object info)
        | None => Null
        end, s).

Definition GetCaptureId (this : address) (s : State) : option CaptureId :=
  w_capture_id <$> wrappers (registry s) !! this.

(** Modelled from the spec: [encode::GetWrappedObject] of
    [encode/dx12_object_wrapper_util.h] (the [UnwrapOne] of the design)
    returns the real reference behind a wrapped one and any other
    reference as it is. *)
Definition unwrap_ref (reg : Registry) (r : ref) : ref :=
  match r with
  | Wrapped w =>
      match wrappers reg !! w with
      | Some info => Real (w_object info)
      | None => r
      end
  | _ => r
  end.

Definition GetWrappedObject (r : ref) : M ref :=
  λ s, (unwrap_ref (registry s) r, s).

(** Modelled from the spec: [Wrap] of the identity registry, which looks
    an object up in the map of its interface type and registers the
    wrapper it constructs there.  An interface with no such map, that is,
    without a wrapper class or with one that neither declares nor inherits
    an [object_map_] ([interface_type] is [None]), is one the registry
    does not know how to wrap, and is handed back raw; an object already
    wrapped as that interface type yields its wrapper; otherwise a wrapper
    is constructed, the object gets the next capture id unless it has one,
    and the constructor registers the wrapper in the [object_map_] of its
    class. *)
Definition Wrap (riid : IID) (object : address) (reg : Registry)
  : ref * Registry :=
  match interface_type riid with
  | None => (Real object, reg)
  | Some ty =>
      match object_map_ reg !! (ty, object) with
      | Some w => (Wrapped w, reg)
      | None =>
          let id := default (next_capture_id reg) (object_ids reg !! object) in
          let w := next_wrapper reg in
          (Wrapped w,
           {| object_map_ := <[(ty, object) := w]> (object_map_ reg);
              wrappers :=
                <[w := {| w_object := object; w_riid := riid;
                          w_capture_id := id |}]> (wrappers reg);
              object_ids := <[object := id]> (object_ids reg);
              next_capture_id :=
                match object_ids reg !! object with
                | Some _ => next_capture_id reg
                | None => (next_capture_id reg + 1)%N
                end;
              next_wrapper := (w + 1)%N |})
      end
  end.

Definition wrap_ref (riid : IID) (r : ref) (reg : Registry) : ref * Registry :=
  match r with
  | Real object => Wrap riid object reg
  | _ => (r, reg)
  end.

(** *** Memory *)

(** The cells a pointer leads to (none through a null or dangling
    pointer). *)
Definition read_block (p : pointer) (s : State) : list field :=
  match p with
  | PNull => []
  | PApp a => default [] (app_memory s !! a)
  | PScratch t index => default [] (default [] (unwrap_memory_ s !! t) !! index)
  end.

(** A new buffer in the scratch memory of thread [t]. *)
Definition alloc_scratch (t : thread) (cells : list field) : M pointer :=
  λ s, let buffers := default [] (unwrap_memory_ s !! t) in
       (PScratch t (length buffers),
        set_unwrap_memory <[t := buffers ++ [cells]]> s).

Fixpoint unwrap_field (reg : Registry) (f : field) : field :=
  match f with
  | FVal z => FVal z
  | FObj iid r => FObj iid (unwrap_ref reg r)
  | FStruct fields => FStruct (map (unwrap_field reg) fields)
  end.

(** Modelled from the spec: [UnwrapObjects] of
    [encode/dx12_object_wrapper_util.h] (the [UnwrapArray] of the design)
    allocates from the scratch memory and unwraps elementwise; a null array
    or a zero count is a no-op returning null. *)
Definition UnwrapObjects (objects : pointer) (len : Z) (unwrap_memory : thread)
  : M pointer :=
  match objects with
  | PNull => ret PNull
  | _ =>
      if len =? 0 then ret PNull
      else
        λ s, alloc_scratch unwrap_memory
               (map (unwrap_field (registry s))
                    (take (Z.to_nat len) (read_block objects s))) s
  end.

(** Modelled from the spec: [UnwrapStructPtrObjects] and
    [UnwrapStructArrayObjects] of
    [generated/generated_dx12_struct_unwrappers.h] (the [UnwrapStruct] of
    the design) return a scratch copy with every embedded reference
    resolved; a null pointer stays null and a zero count allocates
    nothing. *)
Definition UnwrapStructPtrObjects (value : pointer) (unwrap_memory : thread)
  : M pointer :=
  match value with
  | PNull => ret PNull
  | _ =>
      λ s, alloc_scratch unwrap_memory
             (map (unwrap_field (registry s)) (read_block value s)) s
  end.

Definition UnwrapStructArrayObjects (values : pointer) (len : Z)
    (unwrap_memory : thread) : M pointer :=
  match values with
  | PNull => ret PNull
  | _ =>
      if len =? 0 then ret PNull
      else
        λ s, alloc_scratch unwrap_memory
               (map (unwrap_field (registry s))
                    (take (Z.to_nat len) (read_block values s))) s
  end.

(** [*UnwrapStructPtrObjects (&value, unwrap_memory)] for a structure passed
    by value: the scratch copy, read back. *)
Definition UnwrapStructValue (value : list field) (unwrap_memory : thread)
  : M (list field) :=
  λ s, let cells := map (unwrap_field (registry s)) value in
       let '(_, s') := alloc_scratch unwrap_memory cells s in (cells, s').

(** Modelled from the spec: [WrapObject] of
    [generated/generated_dx12_wrapper_creators.h] replaces the real
    reference a non-null output slot holds by its wrapper ([Wrap]); a null
    slot pointer or a null reference is left alone. *)
Definition WrapObject (riid : IID) (object : pointer) : M () :=
  bind (emit (EvWrap riid object))
    (λ _ s,
       match object with
       | PApp a =>
           match app_memory s !! a with
           | Some (FObj iid (Real o) :: rest) =>
               let '(w, reg) := Wrap riid o (registry s) in
               ((), set_app_memory <[a := FObj iid w :: rest]>
                      (set_registry (λ _, reg) s))
           | _ => ((), s)
           end
       | _ => ((), s)
       end).

Fixpoint wrap_field (f : field) (reg : Registry) : field * Registry :=
  match f with
  | FVal z => (f, reg)
  | FObj iid r => let '(r', reg') := wrap_ref iid r reg in (FObj iid r', reg')
  | FStruct fields =>
      let '(fields', reg') :=
        (fix wrap_fields (fs : list field) (reg : Registry)
           : list field * Registry :=
           match fs with
           | [] => ([], reg)
           | f :: fs' =>
               let '(f', reg1) := wrap_field f reg in
               let '(fs'', reg2) := wrap_fields fs' reg1 in
               (f' :: fs'', reg2)
           end) fields reg in
      (FStruct fields', reg')
  end.

(** Modelled from the spec: [WrapStruct] of
    [generated/generated_dx12_struct_wrappers.h] wraps the references
    embedded in an output structure, each as the interface of its field. *)
Definition WrapStruct (value : pointer) : M () :=
  bind (emit (EvWrap "struct" value))
    (λ _ s,
       match value with
       | PApp a =>
           match app_memory s !! a with
           | Some cells =>
               let '(f, reg) := wrap_field (FStruct cells) (registry s) in
               ((), set_app_memory
                      <[a := match f with FStruct cells' => cells' | _ => cells end]>
                      (set_registry (λ _, reg) s))
           | None => ((), s)
           end
       | _ => ((), s)
       end).

(** *** The encoder *)

Definition encode_ref (reg : Registry) (r : ref) : option CaptureId :=
  match r with
  | Wrapped w => w_capture_id <$> wrappers reg !! w
  | _ => None
  end.

Fixpoint encode_field (reg : Registry) (f : field) : encoded :=
  match f with
  | FVal z => EVal z
  | FObj _ r => EId (encode_ref reg r)
  | FStruct fields => EBlock (map (encode_field reg) fields)
  end.

Definition encode_arg (s : State) (a : arg) : encoded :=
  match a with
  | Val z => EVal z
  | Iid riid => EIid riid
  | Obj r => EId (encode_ref (registry s) r)
  | Ptr PNull => ENull
  | Ptr p => EBlock (map (encode_field (registry s)) (read_block p s))
  | Struct fields => EBlock (map (encode_field (registry s)) fields)
  end.

(** Modelled from the spec: the [Encode_...] functions of
    [generated/generated_dx12_api_call_encoders.h] write one record for the
    call (its identifier, the capture id of the object, the result and the
    arguments, references as capture ids) to the trace, unless capture is
    disabled. *)
Definition Encode (id : ApiCallId) (this : option address) (result : option Z)
    (args : list arg) : M () :=
  bind (emit (EvEncode id this result args))
    (λ _ s,
       let record :=
         {| tr_call := id;
            tr_object := this ≫= (λ w, GetCaptureId w s);
            tr_result := result;
            tr_payload := map (encode_arg s) args |} in
       ((), if capture_enabled s
            then set_trace (λ tr, tr ++ [record]) s else s)).

(** *** The callee

    What a wrapper forwards to is a parameter of every entry point: the
    real implementation of the dispatch table or of the wrapped object, or
    an [Override...] hook of the capture manager. *)

Definition Callee := Target → ApiCallId → list arg → M Z.

Definition view_arg (s : State) (a : arg) : view :=
  match a with
  | Ptr p => VBlock p (read_block p s)
  | _ => VArg a
  end.

(** What one invocation of a callee does besides calling back: the value
    it returns and the cells it writes to the memory of the
    application. *)
Record Outcome := {
  out_result : Z;
  out_writes : list (address * list field)
}.

Definition apply_writes (writes : list (address * list field))
    (m : gmap address (list field)) : gmap address (list field) :=
  foldl (λ m w, <[w.1 := w.2]> m) m writes.

Definition write_outputs (writes : list (address * list field)) : M () :=
  λ s, ((), set_app_memory (apply_writes writes) s).

(** A callee that, invoked, is seen with its arguments, calls back into
    the layer, writes its outputs and returns. *)
Definition driver (outcome : Outcome) (callbacks : M ()) : Callee :=
  λ target id args,
    bind (λ s, emit (EvForward target id (map (view_arg s) args)) s)
      (λ _, bind callbacks
      (λ _, bind (write_outputs (out_writes outcome))
      (λ _, ret (out_result outcome)))).

(** *** Intercepted entry points, as the file has them

    [t] is the calling thread and [env] what the entry point forwards
    to. *)

(** [CreateDXGIFactory], lines 148-194. *)
Definition CreateDXGIFactory (t : thread) (env : Callee)
    (riid : IID) (ppFactory : pointer) : M HRESULT :=
  call_scope <- IncrementCallScope t;;
  result <-
    (if call_scope =? 1
     then
       CustomWrapperPreCall "CreateDXGIFactory" None
         [Iid riid; Ptr ppFactory];;;
       result <- env (RealCall None) "CreateDXGIFactory"
                   [Iid riid; Ptr ppFactory];;
       when (SUCCEEDED result) (WrapObject riid ppFactory);;;
       Encode "CreateDXGIFactory" None (Some result)
         [Iid riid; Ptr ppFactory];;;
       CustomWrapperPostCall "CreateDXGIFactory" None (Some result)
         [Iid riid; Ptr ppFactory];;;
       ret result
     else
       env (RealCall None) "CreateDXGIFactory" [Iid riid; Ptr ppFactory]);;
  DecrementCallScope t;;;
  ret result.

(** [IDXGIObject_Wrapper::SetPrivateData], lines 248-298. *)
Definition IDXGIObject_SetPrivateData (t : thread) (env : Callee)
    (this : address) (Name : IID) (DataSize : Z) (pData : pointer)
  : M HRESULT :=
  call_scope <- IncrementCallScope t;;
  result <-
    (if call_scope =? 1
     then
       CustomWrapperPreCall "IDXGIObject_SetPrivateData" (Some this)
         [Iid Name; Val DataSize; Ptr pData];;;
       object <- GetWrappedObjectAs this;;
       result <- env (RealCall (Some object)) "IDXGIObject_SetPrivateData"
                   [Iid Name; Val DataSize; Ptr pData];;
       Encode "IDXGIObject_SetPrivateData" (Some this) (Some result)
         [Iid Name; Val DataSize; Ptr pData];;;
       CustomWrapperPostCall "IDXGIObject_SetPrivateData" (Some this)
         (Some result) [Iid Name; Val DataSize; Ptr pData];;;
       ret result
     else
       object <- GetWrappedObjectAs this;;
       env (RealCall (Some object)) "IDXGIObject_SetPrivateData"
         [Iid Name; Val DataSize; Ptr pData]);;
  DecrementCallScope t;;;
  ret result.

(** [IDXGIObject_Wrapper::SetPrivateDataInterface], lines 300-344. *)
Definition IDXGIObject_SetPrivateDataInterface (t : thread) (env : Callee)
    (this : address) (Name : IID) (pUnknown : ref) : M HRESULT :=
  call_scope <- IncrementCallScope t;;
  result <-
    (if call_scope =? 1
     then
       CustomWrapperPreCall "IDXGIObject_SetPrivateDataInterface" (Some this)
         [Iid Name; Obj pUnknown];;;
       object <- GetWrappedObjectAs this;;
       unwrapped <- GetWrappedObject pUnknown;;
       result <- env (RealCall (Some object))
                   "IDXGIObject_SetPrivateDataInterface"
                   [Iid Name; Obj unwrapped];;
       Encode "IDXGIObject_SetPrivateDataInterface" (Some this) (Some result)
         [Iid Name; Obj pUnknown];;;
       CustomWrapperPostCall "IDXGIObject_SetPrivateDataInterface" (Some this)
         (Some result) [Iid Name; Obj pUnknown];;;
       ret result
     else
       object <- GetWrappedObjectAs this;;
       env (RealCall (Some object)) "IDXGIObject_SetPrivateDataInterface"
         [Iid Name; Obj pUnknown]);;
  DecrementCallScope t;;;
  ret result.

(** [IDXGIObject_Wrapper::GetParent], lines 398-447. *)
Definition IDXGIObject_GetParent (t : thread) (env : Callee)
    (this : address) (riid : IID) (ppParent : pointer) : M HRESULT :=
  call_scope <- IncrementCallScope t;;
  result <-
    (if call_scope =? 1
     then
       CustomWrapperPreCall "IDXGIObject_GetParent" (Some this)
         [Iid riid; Ptr ppParent];;;
       object <- GetWrappedObjectAs this;;
       result <- env (RealCall (Some object)) "IDXGIObject_GetParent"
                   [Iid riid; Ptr ppParent];;
       when (SUCCEEDED result) (WrapObject riid ppParent);;;
       Encode "IDXGIObject_GetParent" (Some this) (Some result)
         [Iid riid; Ptr ppParent];;;
       CustomWrapperPostCall "IDXGIObject_GetParent" (Some this)
         (Some result) [Iid riid; Ptr ppParent];;;
       ret result
     else
       object <- GetWrappedObjectAs this;;
       env (RealCall (Some object)) "IDXGIObject_GetParent"
         [Iid riid; Ptr ppParent]);;
  DecrementCallScope t;;;
  ret result.

(** [IDXGIDevice_Wrapper::QueryResourceResidency], lines 2551-2603. *)
Definition IDXGIDevice_QueryResourceResidency (t : thread) (env : Callee)
    (this : address) (ppResources : pointer) (pResidencyStatus : pointer)
    (NumResources : Z) : M HRESULT :=
  call_scope <- IncrementCallScope t;;
  result <-
    (if call_scope =? 1
     then
       CustomWrapperPreCall "IDXGIDevice_QueryResourceResidency" (Some this)
         [Ptr ppResources; Ptr pResidencyStatus; Val NumResources];;;
       unwrap_memory <- GetHandleUnwrapMemory t;;
       object <- GetWrappedObjectAs this;;
       unwrapped <- UnwrapObjects ppResources NumResources unwrap_memory;;
       result <- env (RealCall (Some object))
                   "IDXGIDevice_QueryResourceResidency"
                   [Ptr unwrapped; Ptr pResidencyStatus; Val NumResources];;
       Encode "IDXGIDevice_QueryResourceResidency" (Some this) (Some result)
         [Ptr ppResources; Ptr pResidencyStatus; Val NumResources];;;
       CustomWrapperPostCall "IDXGIDevice_QueryResourceResidency" (Some this)
         (Some result)
         [Ptr ppResources; Ptr pResidencyStatus; Val NumResources];;;
       ret result
     else
       object <- GetWrappedObjectAs this;;
       env (RealCall (Some object)) "IDXGIDevice_QueryResourceResidency"
         [Ptr ppResources; Ptr pResidencyStatus; Val NumResources]);;
  DecrementCallScope t;;;
  ret result.

(** [CreateDXGIFactory2], lines 4971-5023: the outermost call goes through
    [D3D12CaptureManager::OverrideCreateDXGIFactory2]. *)
Definition CreateDXGIFactory2 (t : thread) (env : Callee)
    (Flags : Z) (riid : IID) (ppFactory : pointer) : M HRESULT :=
  call_scope <- IncrementCallScope t;;
  result <-
    (if call_scope =? 1
     then
       CustomWrapperPreCall "CreateDXGIFactory2" None
         [Val Flags; Iid riid; Ptr ppFactory];;;
       result <- env (OverrideCall None) "CreateDXGIFactory2"
                   [Val Flags; Iid riid; Ptr ppFactory];;
       when (SUCCEEDED result) (WrapObject riid ppFactory);;;
       Encode "CreateDXGIFactory2" None (Some result)
         [Val Flags; Iid riid; Ptr ppFactory];;;
       CustomWrapperPostCall "CreateDXGIFactory2" None (Some result)
         [Val Flags; Iid riid; Ptr ppFactory];;;
       ret result
     else
       env (RealCall None) "CreateDXGIFactory2"
         [Val Flags; Iid riid; Ptr ppFactory]);;
  DecrementCallScope t;;;
  ret result.

(** [D3D12CreateDevice], lines 7776-7834. *)
Definition D3D12CreateDevice (t : thread) (env : Callee)
    (pAdapter : ref) (MinimumFeatureLevel : Z) (riid : IID)
    (ppDevice : pointer) : M HRESULT :=
  call_scope <- IncrementCallScope t;;
  result <-
    (if call_scope =? 1
     then
       CustomWrapperPreCall "D3D12CreateDevice" None
         [Obj pAdapter; Val MinimumFeatureLevel; Iid riid; Ptr ppDevice];;;
       unwrapped <- GetWrappedObject pAdapter;;
       result <- env (RealCall None) "D3D12CreateDevice"
                   [Obj unwrapped; Val MinimumFeatureLevel; Iid riid;
                    Ptr ppDevice];;
       when (SUCCEEDED result) (WrapObject riid ppDevice);;;
       Encode "D3D12CreateDevice" None (Some result)
         [Obj pAdapter; Val MinimumFeatureLevel; Iid riid; Ptr ppDevice];;;
       CustomWrapperPostCall "D3D12CreateDevice" None (Some result)
         [Obj pAdapter; Val MinimumFeatureLevel; Iid riid; Ptr ppDevice];;;
       ret result
     else
       env (RealCall None) "D3D12CreateDevice"
         [Obj pAdapter; Val MinimumFeatureLevel; Iid riid; Ptr ppDevice]);;
  DecrementCallScope t;;;
  ret result.

(** [D3D12GetDebugInterface], lines 7836-7882. *)
Definition D3D12GetDebugInterface (t : thread) (env : Callee)
    (riid : IID) (ppvDebug : pointer) : M HRESULT :=
  call_scope <- IncrementCallScope t;;
  result <-
    (if call_scope =? 1
     then
       CustomWrapperPreCall "D3D12GetDebugInterface" None
         [Iid riid; Ptr ppvDebug];;;
       result <- env (RealCall None) "D3D12GetDebugInterface"
                   [Iid riid; Ptr ppvDebug];;
       when (SUCCEEDED result) (WrapObject riid ppvDebug);;;
       Encode "D3D12GetDebugInterface" None (Some result)
         [Iid riid; Ptr ppvDebug];;;
       CustomWrapperPostCall "D3D12GetDebugInterface" None (Some result)
         [Iid riid; Ptr ppvDebug];;;
       ret result
     else
       env (RealCall None) "D3D12GetDebugInterface"
         [Iid riid; Ptr ppvDebug]);;
  DecrementCallScope t;;;
  ret result.

(** [ID3D12CommandQueue_Wrapper::ExecuteCommandLists], lines
    12151-12191. *)
Definition ID3D12CommandQueue_ExecuteCommandLists (t : thread) (env : Callee)
    (this : address) (NumCommandLists : Z) (ppCommandLists : pointer)
  : M () :=
  call_scope <- IncrementCallScope t;;
  (if call_scope =? 1
   then
     CustomWrapperPreCall "ID3D12CommandQueue_ExecuteCommandLists" (Some this)
       [Val NumCommandLists; Ptr ppCommandLists];;;
     unwrap_memory <- GetHandleUnwrapMemory t;;
     object <- GetWrappedObjectAs this;;
     unwrapped <- UnwrapObjects ppCommandLists NumCommandLists unwrap_memory;;
     env (RealCall (Some object)) "ID3D12CommandQueue_ExecuteCommandLists"
       [Val NumCommandLists; Ptr unwrapped];;;
     Encode "ID3D12CommandQueue_ExecuteCommandLists" (Some this) None
       [Val NumCommandLists; Ptr ppCommandLists];;;
     CustomWrapperPostCall "ID3D12CommandQueue_ExecuteCommandLists"
       (Some this) None [Val NumCommandLists; Ptr ppCommandLists]
   else
     object <- GetWrappedObjectAs this;;
     env (RealCall (Some object)) "ID3D12CommandQueue_ExecuteCommandLists"
       [Val NumCommandLists; Ptr ppCommandLists];;;
     ret ());;;
  DecrementCallScope t;;;
  ret ().

(** *** The pattern of the generator

    Every entry point of the file is an instance of one pattern
    ([dx12_wrapper_body_generator.py]); an [EntryPoint] records what varies:
    the call identifier, whether it is a method (has [this]), whether it
    returns a value, whether the outermost call goes through an
    [Override...] hook, how each parameter is passed on to the callee and
    which outputs are wrapped on success. *)

Inductive CountExpr :=
| Count (param : nat)
| OneIf (flag : nat) (param : nat).

Inductive UnwrapMode :=
| Plain
| Object
| ObjectArray (count : nat)
| StructPtr
| StructVal
| StructArray (count : CountExpr).

Inductive IidSource :=
| IidParam (param : nat)
| IidConst (iid : IID).

Inductive WrapSpec :=
| WrapObj (riid : IidSource) (object : nat)
| WrapStr (value : nat).

Record EntryPoint := EP {
  ep_id : ApiCallId;
  ep_this : bool;
  ep_returns : bool;
  ep_override : bool;
  ep_params : list UnwrapMode;
  ep_wraps : list WrapSpec
}.

Definition arg_z (args : list arg) (n : nat) : Z :=
  match args !! n with Some (Val z) => z | _ => 0 end.

Definition arg_ptr (args : list arg) (n : nat) : pointer :=
  match args !! n with Some (Ptr p) => p | _ => PNull end.

Definition arg_iid (args : list arg) (n : nat) : IID :=
  match args !! n with Some (Iid riid) => riid | _ => EmptyString end.

Definition count_of (args : list arg) (c : CountExpr) : Z :=
  match c with
  | Count n => arg_z args n
  | OneIf flag n => if arg_z args flag =? 0 then arg_z args n else 1
  end.

Definition iid_of (args : list arg) (i : IidSource) : IID :=
  match i with
  | IidParam n => arg_iid args n
  | IidConst iid => iid
  end.

Definition needs_memory (modes : list UnwrapMode) : bool :=
  existsb (λ m, match m with Plain | Object => false | _ => true end) modes.

(** The expression the outermost call passes for one parameter. *)
Definition unwrap_arg (t : thread) (args : list arg) (mode : UnwrapMode)
    (a : arg) : M arg :=
  match mode, a with
  | Object, Obj r => r' <- GetWrappedObject r;; ret (Obj r')
  | ObjectArray count, Ptr p =>
      p' <- UnwrapObjects p (arg_z args count) t;; ret (Ptr p')
  | StructPtr, Ptr p => p' <- UnwrapStructPtrObjects p t;; ret (Ptr p')
  | StructVal, Struct fields =>
      fields' <- UnwrapStructValue fields t;; ret (Struct fields')
  | StructArray count, Ptr p =>
      p' <- UnwrapStructArrayObjects p (count_of args count) t;; ret (Ptr p')
  | _, _ => ret a
  end.

Fixpoint unwrap_args (t : thread) (args : list arg) (modes : list UnwrapMode)
    (actuals : list arg) : M (list arg) :=
  match modes, actuals with
  | mode :: modes', a :: actuals' =>
      a' <- unwrap_arg t args mode a;;
      rest <- unwrap_args t args modes' actuals';;
      ret (a' :: rest)
  | _, _ => ret actuals
  end.

Definition wrap_output (args : list arg) (w : WrapSpec) : M () :=
  match w with
  | WrapObj riid object => WrapObject (iid_of args riid) (arg_ptr args object)
  | WrapStr value => WrapStruct (arg_ptr args value)
  end.

Fixpoint wrap_outputs (args : list arg) (ws : list WrapSpec) : M () :=
  match ws with
  | [] => ret ()
  | [w] => wrap_output args w
  | w :: ws' => wrap_output args w;;; wrap_outputs args ws'
  end.

(** The [if (SUCCEEDED (result))] block, emitted when the entry point has
    outputs to wrap. *)
Definition wrap_on_success (ep : EntryPoint) (result : Z) (args : list arg)
  : M () :=
  match ep_wraps ep with
  | [] => ret ()
  | ws => when (SUCCEEDED result) (wrap_outputs args ws)
  end.

(** The real implementation behind an entry point: the dispatch table for
    a function, the wrapped object for a method. *)
Definition real_target (this : option address) : M Target :=
  match this with
  | Some w => object <- GetWrappedObjectAs w;; ret (RealCall (Some object))
  | None => ret (RealCall None)
  end.

Definition outer_target (ep : EntryPoint) (this : option address) : M Target :=
  if ep_override ep then ret (OverrideCall this) else real_target this.

Definition reported (ep : EntryPoint) (result : Z) : option Z :=
  if ep_returns ep then Some result else None.

(** The body the generator emits for [ep]. *)
Definition wrapper_body (ep : EntryPoint) (t : thread) (env : Callee)
    (this : option address) (args : list arg) : M Z :=
  call_scope <- IncrementCallScope t;;
  result <-
    (if call_scope =? 1
     then
       CustomWrapperPreCall (ep_id ep) this args;;;
       when (needs_memory (ep_params ep)) (GetHandleUnwrapMemory t;;; ret ());;;
       target <- outer_target ep this;;
       unwrapped <- unwrap_args t args (ep_params ep) args;;
       result <- env target (ep_id ep) unwrapped;;
       wrap_on_success ep result args;;;
       Encode (ep_id ep) this (reported ep result) args;;;
       CustomWrapperPostCall (ep_id ep) this (reported ep result) args;;;
       ret result
     else
       target <- real_target this;;
       env target (ep_id ep) args);;
  DecrementCallScope t;;;
  ret result.

(** *** Executions

    A call made on a thread: the entry point, its arguments, what the
    callee it reaches does, and the calls the callee makes back into
    intercepted entry points, on the same thread, before it returns. *)

Inductive Call :=
| MkCall (ep : EntryPoint) (this : option address) (args : list arg)
    (outcome : Outcome) (callbacks : list Call).

Fixpoint run (t : thread) (c : Call) : M Z :=
  match c with
  | MkCall ep this args outcome callbacks =>
      wrapper_body ep t
        (driver outcome
           ((fix run_all (cs : list Call) : M () :=
               match cs with
               | [] => ret ()
               | c' :: cs' => run t c';;; run_all cs'
               end) callbacks))
        this args
  end.

Fixpoint run_all (t : thread) (cs : list Call) : M () :=
  match cs with
  | [] => ret ()
  | c :: cs' => run t c;;; run_all t cs'
  end.

(** Everything the callees of an execution write, in order. *)
Fixpoint tree_writes (c : Call) : list (address * list field) :=
  match c with
  | MkCall _ _ _ outcome callbacks =>
      (fix writes_all (cs : list Call) : list (address * list field) :=
         match cs with
         | [] => []
         | c' :: cs' => tree_writes c' ++ writes_all cs'
         end) callbacks ++ out_writes outcome
  end.

Definition result_of (c : Call) : Z :=
  match c with MkCall _ _ _ outcome _ => out_result outcome end.

(** The number of calls of an execution, the outermost included. *)
Fixpoint calls (c : Call) : nat :=
  match c with
  | MkCall _ _ _ _ callbacks =>
      S ((fix calls_all (cs : list Call) : nat :=
            match cs with
            | [] => O
            | c' :: cs' => (calls c' + calls_all cs')%nat
            end) callbacks)
  end.

(** The entry points of the file, in its order: call identifier, method,
    returns a value, overridden, parameters, wrapped outputs. *)
Definition entry_points : list EntryPoint :=
  [
    EP "CreateDXGIFactory" false true false
      [Plain; Plain] [WrapObj (IidParam 0) 1];
    EP "CreateDXGIFactory1" false true false
      [Plain; Plain] [WrapObj (IidParam 0) 1];
    EP "IDXGIObject_SetPrivateData" true true false
      [Plain; Plain; Plain] [];
    EP "IDXGIObject_SetPrivateDataInterface" true true false
      [Plain; Object] [];
    EP "IDXGIObject_GetPrivateData" true true false
      [Plain; Plain; Plain] [];
    EP "IDXGIObject_GetParent" true true false
      [Plain; Plain] [WrapObj (IidParam 0) 1];
    EP "IDXGIDeviceSubObject_GetDevice" true true false
      [Plain; Plain] [WrapObj (IidParam 0) 1];
    EP "IDXGIResource_GetSharedHandle" true true false
      [Plain] [];
    EP "IDXGIResource_GetUsage" true true false
      [Plain] [];
    EP "IDXGIResource_SetEvictionPriority" true true false
      [Plain] [];
    EP "IDXGIResource_GetEvictionPriority" true true false
      [Plain] [];
    EP "IDXGIKeyedMutex_AcquireSync" true true false
      [Plain; Plain] [];
    EP "IDXGIKeyedMutex_ReleaseSync" true true false
      [Plain] [];
    EP "IDXGISurface_GetDesc" true true false
      [Plain] [];
    EP "IDXGISurface_Map" true true false
      [Plain; Plain] [];
    EP "IDXGISurface_Unmap" true true false
      [] [];
    EP "IDXGISurface1_GetDC" true true false
      [Plain; Plain] [];
    EP "IDXGISurface1_ReleaseDC" true true false
      [Plain] [];
    EP "IDXGIAdapter_EnumOutputs" true true false
      [Plain; Plain] [WrapObj (IidConst "IDXGIOutput") 1];
    EP "IDXGIAdapter_GetDesc" true true false
      [Plain] [];
    EP "IDXGIAdapter_CheckInterfaceSupport" true true false
      [Plain; Plain] [];
    EP "IDXGIOutput_GetDesc" true true false
      [Plain] [];
    EP "IDXGIOutput_GetDisplayModeList" true true false
      [Plain; Plain; Plain; Plain] [];
    EP "IDXGIOutput_FindClosestMatchingMode" true true false
      [Plain; Plain; Object] [];
    EP "IDXGIOutput_WaitForVBlank" true true false
      [] [];
    EP "IDXGIOutput_TakeOwnership" true true false
      [Object; Plain] [];
    EP "IDXGIOutput_ReleaseOwnership" true false false
      [] [];
    EP "IDXGIOutput_GetGammaControlCapabilities" true true false
      [Plain] [];
    EP "IDXGIOutput_SetGammaControl" true true false
      [Plain] [];
    EP "IDXGIOutput_GetGammaControl" true true false
      [Plain] [];
    EP "IDXGIOutput_SetDisplaySurface" true true false
      [Object] [];
    EP "IDXGIOutput_GetDisplaySurfaceData" true true false
      [Object] [];
    EP "IDXGIOutput_GetFrameStatistics" true true false
      [Plain] [];
    EP "IDXGISwapChain_Present" true true false
      [Plain; Plain] [];
    EP "IDXGISwapChain_GetBuffer" true true false
      [Plain; Plain; Plain] [WrapObj (IidParam 1) 2];
    EP "IDXGISwapChain_SetFullscreenState" true true false
      [Plain; Object] [];
    EP "IDXGISwapChain_GetFullscreenState" true true false
      [Plain; Plain] [WrapObj (IidConst "IDXGIOutput") 1];
    EP "IDXGISwapChain_GetDesc" true true false
      [Plain] [];
    EP "IDXGISwapChain_ResizeBuffers" true true false
      [Plain; Plain; Plain; Plain; Plain] [];
    EP "IDXGISwapChain_ResizeTarget" true true false
      [Plain] [];
    EP "IDXGISwapChain_GetContainingOutput" true true false
      [Plain] [WrapObj (IidConst "IDXGIOutput") 0];
    EP "IDXGISwapChain_GetFrameStatistics" true true false
      [Plain] [];
    EP "IDXGISwapChain_GetLastPresentCount" true true false
      [Plain] [];
    EP "IDXGIFactory_EnumAdapters" true true false
      [Plain; Plain] [WrapObj (IidConst "IDXGIAdapter") 1];
    EP "IDXGIFactory_MakeWindowAssociation" true true false
      [Plain; Plain] [];
    EP "IDXGIFactory_GetWindowAssociation" true true false
      [Plain] [];
    EP "IDXGIFactory_CreateSwapChain" true true false
      [Object; Plain; Plain] [WrapObj (IidConst "IDXGISwapChain") 2];
    EP "IDXGIFactory_CreateSoftwareAdapter" true true false
      [Plain; Plain] [WrapObj (IidConst "IDXGIAdapter") 1];
    EP "IDXGIDevice_GetAdapter" true true false
      [Plain] [WrapObj (IidConst "IDXGIAdapter") 0];
    EP "IDXGIDevice_CreateSurface" true true false
      [Plain; Plain; Plain; Plain; Plain] [WrapObj (IidConst "IDXGISurface") 4];
    EP "IDXGIDevice_QueryResourceResidency" true true false
      [ObjectArray 2; Plain; Plain] [];
    EP "IDXGIDevice_SetGPUThreadPriority" true true false
      [Plain] [];
    EP "IDXGIDevice_GetGPUThreadPriority" true true false
      [Plain] [];
    EP "IDXGIFactory1_EnumAdapters1" true true false
      [Plain; Plain] [WrapObj (IidConst "IDXGIAdapter1") 1];
    EP "IDXGIFactory1_IsCurrent" true true false
      [] [];
    EP "IDXGIAdapter1_GetDesc1" true true false
      [Plain] [];
    EP "IDXGIDevice1_SetMaximumFrameLatency" true true false
      [Plain] [];
    EP "IDXGIDevice1_GetMaximumFrameLatency" true true false
      [Plain] [];
    EP "IDXGIDisplayControl_IsStereoEnabled" true true false
      [] [];
    EP "IDXGIDisplayControl_SetStereoEnabled" true false false
      [Plain] [];
    EP "IDXGIOutputDuplication_GetDesc" true false false
      [Plain] [];
    EP "IDXGIOutputDuplication_AcquireNextFrame" true true false
      [Plain; Plain; Plain] [WrapObj (IidConst "IDXGIResource") 2];
    EP "IDXGIOutputDuplication_GetFrameDirtyRects" true true false
      [Plain; Plain; Plain] [];
    EP "IDXGIOutputDuplication_GetFrameMoveRects" true true false
      [Plain; Plain; Plain] [];
    EP "IDXGIOutputDuplication_GetFramePointerShape" true true false
      [Plain; Plain; Plain; Plain] [];
    EP "IDXGIOutputDuplication_MapDesktopSurface" true true false
      [Plain] [];
    EP "IDXGIOutputDuplication_UnMapDesktopSurface" true true false
      [] [];
    EP "IDXGIOutputDuplication_ReleaseFrame" true true false
      [] [];
    EP "IDXGISurface2_GetResource" true true false
      [Plain; Plain; Plain] [WrapObj (IidParam 0) 1];
    EP "IDXGIResource1_CreateSubresourceSurface" true true false
      [Plain; Plain] [WrapObj (IidConst "IDXGISurface2") 1];
    EP "IDXGIResource1_CreateSharedHandle" true true false
      [Plain; Plain; Plain; Plain] [];
    EP "IDXGIDevice2_OfferResources" true true false
      [Plain; ObjectArray 0; Plain] [];
    EP "IDXGIDevice2_ReclaimResources" true true false
      [Plain; ObjectArray 0; Plain] [];
    EP "IDXGIDevice2_EnqueueSetEvent" true true false
      [Plain] [];
    EP "IDXGISwapChain1_GetDesc1" true true false
      [Plain] [];
    EP "IDXGISwapChain1_GetFullscreenDesc" true true false
      [Plain] [];
    EP "IDXGISwapChain1_GetHwnd" true true false
      [Plain] [];
    EP "IDXGISwapChain1_GetCoreWindow" true true false
      [Plain; Plain] [WrapObj (IidParam 0) 1];
    EP "IDXGISwapChain1_Present1" true true false
      [Plain; Plain; Plain] [];
    EP "IDXGISwapChain1_IsTemporaryMonoSupported" true true false
      [] [];
    EP "IDXGISwapChain1_GetRestrictToOutput" true true false
      [Plain] [WrapObj (IidConst "IDXGIOutput") 0];
    EP "IDXGISwapChain1_SetBackgroundColor" true true false
      [Plain] [];
    EP "IDXGISwapChain1_GetBackgroundColor" true true false
      [Plain] [];
    EP "IDXGISwapChain1_SetRotation" true true false
      [Plain] [];
    EP "IDXGISwapChain1_GetRotation" true true false
      [Plain] [];
    EP "IDXGIFactory2_IsWindowedStereoEnabled" true true false
      [] [];
    EP "IDXGIFactory2_CreateSwapChainForHwnd" true true false
      [Object; Plain; Plain; Plain; Object; Plain] [WrapObj (IidConst "IDXGISwapChain1") 5];
    EP "IDXGIFactory2_CreateSwapChainForCoreWindow" true true false
      [Object; Object; Plain; Object; Plain] [WrapObj (IidConst "IDXGISwapChain1") 4];
    EP "IDXGIFactory2_GetSharedResourceAdapterLuid" true true false
      [Plain; Plain] [];
    EP "IDXGIFactory2_RegisterStereoStatusWindow" true true false
      [Plain; Plain; Plain] [];
    EP "IDXGIFactory2_RegisterStereoStatusEvent" true true false
      [Plain; Plain] [];
    EP "IDXGIFactory2_UnregisterStereoStatus" true false false
      [Plain] [];
    EP "IDXGIFactory2_RegisterOcclusionStatusWindow" true true false
      [Plain; Plain; Plain] [];
    EP "IDXGIFactory2_RegisterOcclusionStatusEvent" true true false
      [Plain; Plain] [];
    EP "IDXGIFactory2_UnregisterOcclusionStatus" true false false
      [Plain] [];
    EP "IDXGIFactory2_CreateSwapChainForComposition" true true false
      [Object; Plain; Object; Plain] [WrapObj (IidConst "IDXGISwapChain1") 3];
    EP "IDXGIAdapter2_GetDesc2" true true false
      [Plain] [];
    EP "IDXGIOutput1_GetDisplayModeList1" true true false
      [Plain; Plain; Plain; Plain] [];
    EP "IDXGIOutput1_FindClosestMatchingMode1" true true false
      [Plain; Plain; Object] [];
    EP "IDXGIOutput1_GetDisplaySurfaceData1" true true false
      [Object] [];
    EP "IDXGIOutput1_DuplicateOutput" true true false
      [Object; Plain] [WrapObj (IidConst "IDXGIOutputDuplication") 1];
    EP "CreateDXGIFactory2" false true true
      [Plain; Plain; Plain] [WrapObj (IidParam 1) 2];
    EP "DXGIGetDebugInterface1" false true false
      [Plain; Plain; Plain] [WrapObj (IidParam 1) 2];
    EP "IDXGIDevice3_Trim" true false false
      [] [];
    EP "IDXGISwapChain2_SetSourceSize" true true false
      [Plain; Plain] [];
    EP "IDXGISwapChain2_GetSourceSize" true true false
      [Plain; Plain] [];
    EP "IDXGISwapChain2_SetMaximumFrameLatency" true true false
      [Plain] [];
    EP "IDXGISwapChain2_GetMaximumFrameLatency" true true false
      [Plain] [];
    EP "IDXGISwapChain2_GetFrameLatencyWaitableObject" true true false
      [] [];
    EP "IDXGISwapChain2_SetMatrixTransform" true true false
      [Plain] [];
    EP "IDXGISwapChain2_GetMatrixTransform" true true false
      [Plain] [];
    EP "IDXGIOutput2_SupportsOverlays" true true false
      [] [];
    EP "IDXGIFactory3_GetCreationFlags" true true false
      [] [];
    EP "IDXGIDecodeSwapChain_PresentBuffer" true true false
      [Plain; Plain; Plain] [];
    EP "IDXGIDecodeSwapChain_SetSourceRect" true true false
      [Plain] [];
    EP "IDXGIDecodeSwapChain_SetTargetRect" true true false
      [Plain] [];
    EP "IDXGIDecodeSwapChain_SetDestSize" true true false
      [Plain; Plain] [];
    EP "IDXGIDecodeSwapChain_GetSourceRect" true true false
      [Plain] [];
    EP "IDXGIDecodeSwapChain_GetTargetRect" true true false
      [Plain] [];
    EP "IDXGIDecodeSwapChain_GetDestSize" true true false
      [Plain; Plain] [];
    EP "IDXGIDecodeSwapChain_SetColorSpace" true true false
      [Plain] [];
    EP "IDXGIDecodeSwapChain_GetColorSpace" true true false
      [] [];
    EP "IDXGIFactoryMedia_CreateSwapChainForCompositionSurfaceHandle" true true false
      [Object; Plain; Plain; Object; Plain] [WrapObj (IidConst "IDXGISwapChain1") 4];
    EP "IDXGIFactoryMedia_CreateDecodeSwapChainForCompositionSurfaceHandle" true true false
      [Object; Plain; Plain; Object; Object; Plain] [WrapObj (IidConst "IDXGIDecodeSwapChain") 5];
    EP "IDXGISwapChainMedia_GetFrameStatisticsMedia" true true false
      [Plain] [];
    EP "IDXGISwapChainMedia_SetPresentDuration" true true false
      [Plain] [];
    EP "IDXGISwapChainMedia_CheckPresentDurationSupport" true true false
      [Plain; Plain; Plain] [];
    EP "IDXGIOutput3_CheckOverlaySupport" true true false
      [Plain; Object; Plain] [];
    EP "IDXGISwapChain3_GetCurrentBackBufferIndex" true true false
      [] [];
    EP "IDXGISwapChain3_CheckColorSpaceSupport" true true false
      [Plain; Plain] [];
    EP "IDXGISwapChain3_SetColorSpace1" true true false
      [Plain] [];
    EP "IDXGISwapChain3_ResizeBuffers1" true true false
      [Plain; Plain; Plain; Plain; Plain; Plain; ObjectArray 0] [];
    EP "IDXGIOutput4_CheckOverlayColorSpaceSupport" true true false
      [Plain; Plain; Object; Plain] [];
    EP "IDXGIFactory4_EnumAdapterByLuid" true true false
      [Plain; Plain; Plain] [WrapObj (IidParam 1) 2];
    EP "IDXGIFactory4_EnumWarpAdapter" true true false
      [Plain; Plain] [WrapObj (IidParam 0) 1];
    EP "IDXGIAdapter3_RegisterHardwareContentProtectionTeardownStatusEvent" true true false
      [Plain; Plain] [];
    EP "IDXGIAdapter3_UnregisterHardwareContentProtectionTeardownStatus" true false false
      [Plain] [];
    EP "IDXGIAdapter3_QueryVideoMemoryInfo" true true false
      [Plain; Plain; Plain] [];
    EP "IDXGIAdapter3_SetVideoMemoryReservation" true true false
      [Plain; Plain; Plain] [];
    EP "IDXGIAdapter3_RegisterVideoMemoryBudgetChangeNotificationEvent" true true false
      [Plain; Plain] [];
    EP "IDXGIAdapter3_UnregisterVideoMemoryBudgetChangeNotification" true false false
      [Plain] [];
    EP "IDXGIOutput5_DuplicateOutput1" true true false
      [Object; Plain; Plain; Plain; Plain] [WrapObj (IidConst "IDXGIOutputDuplication") 4];
    EP "IDXGISwapChain4_SetHDRMetaData" true true false
      [Plain; Plain; Plain] [];
    EP "IDXGIDevice4_OfferResources1" true true false
      [Plain; ObjectArray 0; Plain; Plain] [];
    EP "IDXGIDevice4_ReclaimResources1" true true false
      [Plain; ObjectArray 0; Plain] [];
    EP "IDXGIFactory5_CheckFeatureSupport" true true false
      [Plain; Plain; Plain] [];
    EP "DXGIDeclareAdapterRemovalSupport" false true false
      [] [];
    EP "IDXGIAdapter4_GetDesc3" true true false
      [Plain] [];
    EP "IDXGIOutput6_GetDesc1" true true false
      [Plain] [];
    EP "IDXGIOutput6_CheckHardwareCompositionSupport" true true false
      [Plain] [];
    EP "IDXGIFactory6_EnumAdapterByGpuPreference" true true false
      [Plain; Plain; Plain; Plain] [WrapObj (IidParam 2) 3];
    EP "IDXGIFactory7_RegisterAdaptersChangedEvent" true true false
      [Plain; Plain] [];
    EP "IDXGIFactory7_UnregisterAdaptersChangedEvent" true true false
      [Plain] [];
    EP "D3D12SerializeRootSignature" false true false
      [Plain; Plain; Plain; Plain] [WrapObj (IidConst "ID3D10Blob") 2; WrapObj (IidConst "ID3D10Blob") 3];
    EP "D3D12CreateRootSignatureDeserializer" false true false
      [Plain; Plain; Plain; Plain] [WrapObj (IidParam 2) 3];
    EP "D3D12SerializeVersionedRootSignature" false true false
      [Plain; Plain; Plain] [WrapObj (IidConst "ID3D10Blob") 1; WrapObj (IidConst "ID3D10Blob") 2];
    EP "D3D12CreateVersionedRootSignatureDeserializer" false true false
      [Plain; Plain; Plain; Plain] [WrapObj (IidParam 2) 3];
    EP "D3D12CreateDevice" false true false
      [Object; Plain; Plain; Plain] [WrapObj (IidParam 2) 3];
    EP "D3D12GetDebugInterface" false true false
      [Plain; Plain] [WrapObj (IidParam 0) 1];
    EP "D3D12EnableExperimentalFeatures" false true false
      [Plain; Plain; Plain; Plain] [];
    EP "ID3D12Object_GetPrivateData" true true false
      [Plain; Plain; Plain] [];
    EP "ID3D12Object_SetPrivateData" true true false
      [Plain; Plain; Plain] [];
    EP "ID3D12Object_SetPrivateDataInterface" true true false
      [Plain; Object] [];
    EP "ID3D12Object_SetName" true true false
      [Plain] [];
    EP "ID3D12DeviceChild_GetDevice" true true false
      [Plain; Plain] [WrapObj (IidParam 0) 1];
    EP "ID3D12RootSignatureDeserializer_GetRootSignatureDesc" true true false
      [] [];
    EP "ID3D12VersionedRootSignatureDeserializer_GetRootSignatureDescAtVersion" true true false
      [Plain; Plain] [];
    EP "ID3D12VersionedRootSignatureDeserializer_GetUnconvertedRootSignatureDesc" true true false
      [] [];
    EP "ID3D12Heap_GetDesc" true true false
      [] [];
    EP "ID3D12Resource_Map" true true false
      [Plain; Plain; Plain] [];
    EP "ID3D12Resource_Unmap" true false false
      [Plain; Plain] [];
    EP "ID3D12Resource_GetDesc" true true false
      [] [];
    EP "ID3D12Resource_GetGPUVirtualAddress" true true false
      [] [];
    EP "ID3D12Resource_WriteToSubresource" true true false
      [Plain; Plain; Plain; Plain; Plain] [];
    EP "ID3D12Resource_ReadFromSubresource" true true false
      [Plain; Plain; Plain; Plain; Plain] [];
    EP "ID3D12Resource_GetHeapProperties" true true false
      [Plain; Plain] [];
    EP "ID3D12CommandAllocator_Reset" true true false
      [] [];
    EP "ID3D12Fence_GetCompletedValue" true true false
      [] [];
    EP "ID3D12Fence_SetEventOnCompletion" true true false
      [Plain; Plain] [];
    EP "ID3D12Fence_Signal" true true false
      [Plain] [];
    EP "ID3D12Fence1_GetCreationFlags" true true false
      [] [];
    EP "ID3D12PipelineState_GetCachedBlob" true true false
      [Plain] [WrapObj (IidConst "ID3D10Blob") 0];
    EP "ID3D12DescriptorHeap_GetDesc" true true false
      [] [];
    EP "ID3D12DescriptorHeap_GetCPUDescriptorHandleForHeapStart" true true true
      [] [];
    EP "ID3D12DescriptorHeap_GetGPUDescriptorHandleForHeapStart" true true true
      [] [];
    EP "ID3D12CommandList_GetType" true true false
      [] [];
    EP "ID3D12GraphicsCommandList_Close" true true false
      [] [];
    EP "ID3D12GraphicsCommandList_Reset" true true false
      [Object; Object] [];
    EP "ID3D12GraphicsCommandList_ClearState" true false false
      [Object] [];
    EP "ID3D12GraphicsCommandList_DrawInstanced" true false false
      [Plain; Plain; Plain; Plain] [];
    EP "ID3D12GraphicsCommandList_DrawIndexedInstanced" true false false
      [Plain; Plain; Plain; Plain; Plain] [];
    EP "ID3D12GraphicsCommandList_Dispatch" true false false
      [Plain; Plain; Plain] [];
    EP "ID3D12GraphicsCommandList_CopyBufferRegion" true false false
      [Object; Plain; Object; Plain; Plain] [];
    EP "ID3D12GraphicsCommandList_CopyTextureRegion" true false false
      [StructPtr; Plain; Plain; Plain; StructPtr; Plain] [];
    EP "ID3D12GraphicsCommandList_CopyResource" true false false
      [Object; Object] [];
    EP "ID3D12GraphicsCommandList_CopyTiles" true false false
      [Object; Plain; Plain; Object; Plain; Plain] [];
    EP "ID3D12GraphicsCommandList_ResolveSubresource" true false false
      [Object; Plain; Object; Plain; Plain] [];
    EP "ID3D12GraphicsCommandList_IASetPrimitiveTopology" true false false
      [Plain] [];
    EP "ID3D12GraphicsCommandList_RSSetViewports" true false false
      [Plain; Plain] [];
    EP "ID3D12GraphicsCommandList_RSSetScissorRects" true false false
      [Plain; Plain] [];
    EP "ID3D12GraphicsCommandList_OMSetBlendFactor" true false false
      [Plain] [];
    EP "ID3D12GraphicsCommandList_OMSetStencilRef" true false false
      [Plain] [];
    EP "ID3D12GraphicsCommandList_SetPipelineState" true false false
      [Object] [];
    EP "ID3D12GraphicsCommandList_ResourceBarrier" true false false
      [Plain; StructArray (Count 0)] [];
    EP "ID3D12GraphicsCommandList_ExecuteBundle" true false false
      [Object] [];
    EP "ID3D12GraphicsCommandList_SetDescriptorHeaps" true false false
      [Plain; ObjectArray 0] [];
    EP "ID3D12GraphicsCommandList_SetComputeRootSignature" true false false
      [Object] [];
    EP "ID3D12GraphicsCommandList_SetGraphicsRootSignature" true false false
      [Object] [];
    EP "ID3D12GraphicsCommandList_SetComputeRootDescriptorTable" true false false
      [Plain; StructVal] [];
    EP "ID3D12GraphicsCommandList_SetGraphicsRootDescriptorTable" true false false
      [Plain; StructVal] [];
    EP "ID3D12GraphicsCommandList_SetComputeRoot32BitConstant" true false false
      [Plain; Plain; Plain] [];
    EP "ID3D12GraphicsCommandList_SetGraphicsRoot32BitConstant" true false false
      [Plain; Plain; Plain] [];
    EP "ID3D12GraphicsCommandList_SetComputeRoot32BitConstants" true false false
      [Plain; Plain; Plain; Plain] [];
    EP "ID3D12GraphicsCommandList_SetGraphicsRoot32BitConstants" true false false
      [Plain; Plain; Plain; Plain] [];
    EP "ID3D12GraphicsCommandList_SetComputeRootConstantBufferView" true false false
      [Plain; Plain] [];
    EP "ID3D12GraphicsCommandList_SetGraphicsRootConstantBufferView" true false false
      [Plain; Plain] [];
    EP "ID3D12GraphicsCommandList_SetComputeRootShaderResourceView" true false false
      [Plain; Plain] [];
    EP "ID3D12GraphicsCommandList_SetGraphicsRootShaderResourceView" true false false
      [Plain; Plain] [];
    EP "ID3D12GraphicsCommandList_SetComputeRootUnorderedAccessView" true false false
      [Plain; Plain] [];
    EP "ID3D12GraphicsCommandList_SetGraphicsRootUnorderedAccessView" true false false
      [Plain; Plain] [];
    EP "ID3D12GraphicsCommandList_IASetIndexBuffer" true false false
      [Plain] [];
    EP "ID3D12GraphicsCommandList_IASetVertexBuffers" true false false
      [Plain; Plain; Plain] [];
    EP "ID3D12GraphicsCommandList_SOSetTargets" true false false
      [Plain; Plain; Plain] [];
    EP "ID3D12GraphicsCommandList_OMSetRenderTargets" true false false
      [Plain; StructArray (OneIf 2 0); Plain; StructPtr] [];
    EP "ID3D12GraphicsCommandList_ClearDepthStencilView" true false false
      [StructVal; Plain; Plain; Plain; Plain; Plain] [];
    EP "ID3D12GraphicsCommandList_ClearRenderTargetView" true false false
      [StructVal; Plain; Plain; Plain] [];
    EP "ID3D12GraphicsCommandList_ClearUnorderedAccessViewUint" true false false
      [StructVal; StructVal; Object; Plain; Plain; Plain] [];
    EP "ID3D12GraphicsCommandList_ClearUnorderedAccessViewFloat" true false false
      [StructVal; StructVal; Object; Plain; Plain; Plain] [];
    EP "ID3D12GraphicsCommandList_DiscardResource" true false false
      [Object; Plain] [];
    EP "ID3D12GraphicsCommandList_BeginQuery" true false false
      [Object; Plain; Plain] [];
    EP "ID3D12GraphicsCommandList_EndQuery" true false false
      [Object; Plain; Plain] [];
    EP "ID3D12GraphicsCommandList_ResolveQueryData" true false false
      [Object; Plain; Plain; Plain; Object; Plain] [];
    EP "ID3D12GraphicsCommandList_SetPredication" true false false
      [Object; Plain; Plain] [];
    EP "ID3D12GraphicsCommandList_SetMarker" true false false
      [Plain; Plain; Plain] [];
    EP "ID3D12GraphicsCommandList_BeginEvent" true false false
      [Plain; Plain; Plain] [];
    EP "ID3D12GraphicsCommandList_EndEvent" true false false
      [] [];
    EP "ID3D12GraphicsCommandList_ExecuteIndirect" true false false
      [Object; Plain; Object; Plain; Object; Plain] [];
    EP "ID3D12GraphicsCommandList1_AtomicCopyBufferUINT" true false false
      [Object; Plain; Object; Plain; Plain; ObjectArray 4; Plain] [];
    EP "ID3D12GraphicsCommandList1_AtomicCopyBufferUINT64" true false false
      [Object; Plain; Object; Plain; Plain; ObjectArray 4; Plain] [];
    EP "ID3D12GraphicsCommandList1_OMSetDepthBounds" true false false
      [Plain; Plain] [];
    EP "ID3D12GraphicsCommandList1_SetSamplePositions" true false false
      [Plain; Plain; Plain] [];
    EP "ID3D12GraphicsCommandList1_ResolveSubresourceRegion" true false false
      [Object; Plain; Plain; Plain; Object; Plain; Plain; Plain; Plain] [];
    EP "ID3D12GraphicsCommandList1_SetViewInstanceMask" true false false
      [Plain] [];
    EP "ID3D12GraphicsCommandList2_WriteBufferImmediate" true false false
      [Plain; Plain; Plain] [];
    EP "ID3D12CommandQueue_UpdateTileMappings" true false false
      [Object; Plain; Plain; Plain; Object; Plain; Plain; Plain; Plain; Plain] [];
    EP "ID3D12CommandQueue_CopyTileMappings" true false false
      [Object; Plain; Object; Plain; Plain; Plain] [];
    EP "ID3D12CommandQueue_ExecuteCommandLists" true false false
      [Plain; ObjectArray 0] [];
    EP "ID3D12CommandQueue_SetMarker" true false false
      [Plain; Plain; Plain] [];
    EP "ID3D12CommandQueue_BeginEvent" true false false
      [Plain; Plain; Plain] [];
    EP "ID3D12CommandQueue_EndEvent" true false false
      [] [];
    EP "ID3D12CommandQueue_Signal" true true false
      [Object; Plain] [];
    EP "ID3D12CommandQueue_Wait" true true false
      [Object; Plain] [];
    EP "ID3D12CommandQueue_GetTimestampFrequency" true true false
      [Plain] [];
    EP "ID3D12CommandQueue_GetClockCalibration" true true false
      [Plain; Plain] [];
    EP "ID3D12CommandQueue_GetDesc" true true false
      [] [];
    EP "ID3D12Device_GetNodeCount" true true false
      [] [];
    EP "ID3D12Device_CreateCommandQueue" true true false
      [Plain; Plain; Plain] [WrapObj (IidParam 1) 2];
    EP "ID3D12Device_CreateCommandAllocator" true true false
      [Plain; Plain; Plain] [WrapObj (IidParam 1) 2];
    EP "ID3D12Device_CreateGraphicsPipelineState" true true false
      [StructPtr; Plain; Plain] [WrapObj (IidParam 1) 2];
    EP "ID3D12Device_CreateComputePipelineState" true true false
      [StructPtr; Plain; Plain] [WrapObj (IidParam 1) 2];
    EP "ID3D12Device_CreateCommandList" true true false
      [Plain; Plain; Object; Object; Plain; Plain] [WrapObj (IidParam 4) 5];
    EP "ID3D12Device_CheckFeatureSupport" true true false
      [Plain; Plain; Plain] [];
    EP "ID3D12Device_CreateDescriptorHeap" true true false
      [Plain; Plain; Plain] [WrapObj (IidParam 1) 2];
    EP "ID3D12Device_GetDescriptorHandleIncrementSize" true true false
      [Plain] [];
    EP "ID3D12Device_CreateRootSignature" true true false
      [Plain; Plain; Plain; Plain; Plain] [WrapObj (IidParam 3) 4];
    EP "ID3D12Device_CreateConstantBufferView" true false false
      [Plain; StructVal] [];
    EP "ID3D12Device_CreateShaderResourceView" true false false
      [Object; Plain; StructVal] [];
    EP "ID3D12Device_CreateUnorderedAccessView" true false false
      [Object; Object; Plain; StructVal] [];
    EP "ID3D12Device_CreateRenderTargetView" true false false
      [Object; Plain; StructVal] [];
    EP "ID3D12Device_CreateDepthStencilView" true false false
      [Object; Plain; StructVal] [];
    EP "ID3D12Device_CreateSampler" true false false
      [Plain; StructVal] [];
    EP "ID3D12Device_CopyDescriptors" true false false
      [Plain; StructArray (Count 0); Plain; Plain; StructArray (Count 3); Plain; Plain] [];
    EP "ID3D12Device_CopyDescriptorsSimple" true false false
      [Plain; StructVal; StructVal; Plain] [];
    EP "ID3D12Device_GetResourceAllocationInfo" true true false
      [Plain; Plain; Plain] [];
    EP "ID3D12Device_GetCustomHeapProperties" true true false
      [Plain; Plain] [];
    EP "ID3D12Device_CreateCommittedResource" true true true
      [Plain; Plain; Plain; Plain; Plain; Plain; Plain] [WrapObj (IidParam 5) 6];
    EP "ID3D12Device_CreateHeap" true true true
      [Plain; Plain; Plain] [WrapObj (IidParam 1) 2];
    EP "ID3D12Device_CreatePlacedResource" true true false
      [Object; Plain; Plain; Plain; Plain; Plain; Plain] [WrapObj (IidParam 5) 6];
    EP "ID3D12Device_CreateReservedResource" true true false
      [Plain; Plain; Plain; Plain; Plain] [WrapObj (IidParam 3) 4];
    EP "ID3D12Device_CreateSharedHandle" true true false
      [Object; Plain; Plain; Plain; Plain] [];
    EP "ID3D12Device_OpenSharedHandle" true true false
      [Plain; Plain; Plain] [WrapObj (IidParam 1) 2];
    EP "ID3D12Device_OpenSharedHandleByName" true true false
      [Plain; Plain; Plain] [];
    EP "ID3D12Device_MakeResident" true true false
      [Plain; ObjectArray 0] [];
    EP "ID3D12Device_Evict" true true false
      [Plain; ObjectArray 0] [];
    EP "ID3D12Device_CreateFence" true true false
      [Plain; Plain; Plain; Plain] [WrapObj (IidParam 2) 3];
    EP "ID3D12Device_GetDeviceRemovedReason" true true false
      [] [];
    EP "ID3D12Device_GetCopyableFootprints" true false false
      [Plain; Plain; Plain; Plain; Plain; Plain; Plain; Plain] [];
    EP "ID3D12Device_CreateQueryHeap" true true false
      [Plain; Plain; Plain] [WrapObj (IidParam 1) 2];
    EP "ID3D12Device_SetStablePowerState" true true false
      [Plain] [];
    EP "ID3D12Device_CreateCommandSignature" true true false
      [Plain; Object; Plain; Plain] [WrapObj (IidParam 2) 3];
    EP "ID3D12Device_GetResourceTiling" true false false
      [Object; Plain; Plain; Plain; Plain; Plain; Plain] [];
    EP "ID3D12Device_GetAdapterLuid" true true false
      [] [];
    EP "ID3D12PipelineLibrary_StorePipeline" true true false
      [Plain; Object] [];
    EP "ID3D12PipelineLibrary_LoadGraphicsPipeline" true true true
      [Plain; StructPtr; Plain; Plain] [WrapObj (IidParam 2) 3];
    EP "ID3D12PipelineLibrary_LoadComputePipeline" true true true
      [Plain; StructPtr; Plain; Plain] [WrapObj (IidParam 2) 3];
    EP "ID3D12PipelineLibrary_GetSerializedSize" true true false
      [] [];
    EP "ID3D12PipelineLibrary_Serialize" true true false
      [Plain; Plain] [];
    EP "ID3D12PipelineLibrary1_LoadPipeline" true true true
      [Plain; StructPtr; Plain; Plain] [WrapObj (IidParam 2) 3];
    EP "ID3D12Device1_CreatePipelineLibrary" true true true
      [Plain; Plain; Plain; Plain] [WrapObj (IidParam 2) 3];
    EP "ID3D12Device1_SetEventOnMultipleFenceCompletion" true true false
      [ObjectArray 2; Plain; Plain; Plain; Plain] [];
    EP "ID3D12Device1_SetResidencyPriority" true true false
      [Plain; ObjectArray 0; Plain] [];
    EP "ID3D12Device2_CreatePipelineState" true true false
      [StructPtr; Plain; Plain] [WrapObj (IidParam 1) 2];
    EP "ID3D12Device3_OpenExistingHeapFromAddress" true true false
      [Plain; Plain; Plain] [WrapObj (IidParam 1) 2];
    EP "ID3D12Device3_OpenExistingHeapFromFileMapping" true true false
      [Plain; Plain; Plain] [WrapObj (IidParam 1) 2];
    EP "ID3D12Device3_EnqueueMakeResident" true true false
      [Plain; Plain; ObjectArray 1; Object; Plain] [];
    EP "ID3D12ProtectedSession_GetStatusFence" true true false
      [Plain; Plain] [WrapObj (IidParam 0) 1];
    EP "ID3D12ProtectedSession_GetSessionStatus" true true false
      [] [];
    EP "ID3D12ProtectedResourceSession_GetDesc" true true false
      [] [];
    EP "ID3D12Device4_CreateCommandList1" true true false
      [Plain; Plain; Plain; Plain; Plain] [WrapObj (IidParam 3) 4];
    EP "ID3D12Device4_CreateProtectedResourceSession" true true false
      [Plain; Plain; Plain] [WrapObj (IidParam 1) 2];
    EP "ID3D12Device4_CreateCommittedResource1" true true true
      [Plain; Plain; Plain; Plain; Plain; Object; Plain; Plain] [WrapObj (IidParam 6) 7];
    EP "ID3D12Device4_CreateHeap1" true true true
      [Plain; Object; Plain; Plain] [WrapObj (IidParam 2) 3];
    EP "ID3D12Device4_CreateReservedResource1" true true false
      [Plain; Plain; Plain; Object; Plain; Plain] [WrapObj (IidParam 4) 5];
    EP "ID3D12Device4_GetResourceAllocationInfo1" true true false
      [Plain; Plain; Plain; Plain] [];
    EP "ID3D12LifetimeOwner_LifetimeStateUpdated" true false false
      [Plain] [];
    EP "ID3D12SwapChainAssistant_GetLUID" true true false
      [] [];
    EP "ID3D12SwapChainAssistant_GetSwapChainObject" true true false
      [Plain; Plain] [WrapObj (IidParam 0) 1];
    EP "ID3D12SwapChainAssistant_GetCurrentResourceAndCommandQueue" true true false
      [Plain; Plain; Plain; Plain] [WrapObj (IidParam 0) 1; WrapObj (IidParam 2) 3];
    EP "ID3D12SwapChainAssistant_InsertImplicitSync" true true false
      [] [];
    EP "ID3D12LifetimeTracker_DestroyOwnedObject" true true false
      [Object] [];
    EP "ID3D12StateObjectProperties_GetShaderIdentifier" true true false
      [Plain] [];
    EP "ID3D12StateObjectProperties_GetShaderStackSize" true true false
      [Plain] [];
    EP "ID3D12StateObjectProperties_GetPipelineStackSize" true true false
      [] [];
    EP "ID3D12StateObjectProperties_SetPipelineStackSize" true false false
      [Plain] [];
    EP "ID3D12Device5_CreateLifetimeTracker" true true false
      [Object; Plain; Plain] [WrapObj (IidParam 1) 2];
    EP "ID3D12Device5_RemoveDevice" true false false
      [] [];
    EP "ID3D12Device5_EnumerateMetaCommands" true true false
      [Plain; Plain] [];
    EP "ID3D12Device5_EnumerateMetaCommandParameters" true true false
      [Plain; Plain; Plain; Plain; Plain] [];
    EP "ID3D12Device5_CreateMetaCommand" true true false
      [Plain; Plain; Plain; Plain; Plain; Plain] [WrapObj (IidParam 4) 5];
    EP "ID3D12Device5_CreateStateObject" true true false
      [StructPtr; Plain; Plain] [WrapObj (IidParam 1) 2];
    EP "ID3D12Device5_GetRaytracingAccelerationStructurePrebuildInfo" true false false
      [Plain; Plain] [];
    EP "ID3D12Device5_CheckDriverMatchingIdentifier" true true false
      [Plain; Plain] [];
    EP "ID3D12DeviceRemovedExtendedDataSettings_SetAutoBreadcrumbsEnablement" true false false
      [Plain] [];
    EP "ID3D12DeviceRemovedExtendedDataSettings_SetPageFaultEnablement" true false false
      [Plain] [];
    EP "ID3D12DeviceRemovedExtendedDataSettings_SetWatsonDumpEnablement" true false false
      [Plain] [];
    EP "ID3D12DeviceRemovedExtendedDataSettings1_SetBreadcrumbContextEnablement" true false false
      [Plain] [];
    EP "ID3D12DeviceRemovedExtendedData_GetAutoBreadcrumbsOutput" true true false
      [Plain] [WrapStr 0];
    EP "ID3D12DeviceRemovedExtendedData_GetPageFaultAllocationOutput" true true false
      [Plain] [];
    EP "ID3D12DeviceRemovedExtendedData1_GetAutoBreadcrumbsOutput1" true true false
      [Plain] [WrapStr 0];
    EP "ID3D12DeviceRemovedExtendedData1_GetPageFaultAllocationOutput1" true true false
      [Plain] [WrapStr 0];
    EP "ID3D12Device6_SetBackgroundProcessingMode" true true false
      [Plain; Plain; Plain; Plain] [];
    EP "ID3D12ProtectedResourceSession1_GetDesc1" true true false
      [] [];
    EP "ID3D12Device7_AddToStateObject" true true false
      [StructPtr; Object; Plain; Plain] [WrapObj (IidParam 2) 3];
    EP "ID3D12Device7_CreateProtectedResourceSession1" true true false
      [Plain; Plain; Plain] [WrapObj (IidParam 1) 2];
    EP "ID3D12Device8_GetResourceAllocationInfo2" true true false
      [Plain; Plain; Plain; Plain] [];
    EP "ID3D12Device8_CreateCommittedResource2" true true true
      [Plain; Plain; Plain; Plain; Plain; Object; Plain; Plain] [WrapObj (IidParam 6) 7];
    EP "ID3D12Device8_CreatePlacedResource1" true true false
      [Object; Plain; Plain; Plain; Plain; Plain; Plain] [WrapObj (IidParam 5) 6];
    EP "ID3D12Device8_CreateSamplerFeedbackUnorderedAccessView" true false false
      [Object; Object; StructVal] [];
    EP "ID3D12Device8_GetCopyableFootprints1" true false false
      [Plain; Plain; Plain; Plain; Plain; Plain; Plain; Plain] [];
    EP "ID3D12Resource1_GetProtectedResourceSession" true true false
      [Plain; Plain] [WrapObj (IidParam 0) 1];
    EP "ID3D12Resource2_GetDesc1" true true false
      [] [];
    EP "ID3D12Heap1_GetProtectedResourceSession" true true false
      [Plain; Plain] [WrapObj (IidParam 0) 1];
    EP "ID3D12GraphicsCommandList3_SetProtectedResourceSession" true false false
      [Object] [];
    EP "ID3D12MetaCommand_GetRequiredParameterResourceSize" true true false
      [Plain; Plain] [];
    EP "ID3D12GraphicsCommandList4_BeginRenderPass" true false false
      [Plain; StructArray (Count 0); StructPtr; Plain] [];
    EP "ID3D12GraphicsCommandList4_EndRenderPass" true false false
      [] [];
    EP "ID3D12GraphicsCommandList4_InitializeMetaCommand" true false false
      [Object; Plain; Plain] [];
    EP "ID3D12GraphicsCommandList4_ExecuteMetaCommand" true false false
      [Object; Plain; Plain] [];
    EP "ID3D12GraphicsCommandList4_BuildRaytracingAccelerationStructure" true false false
      [Plain; Plain; Plain] [];
    EP "ID3D12GraphicsCommandList4_EmitRaytracingAccelerationStructurePostbuildInfo" true false false
      [Plain; Plain; Plain] [];
    EP "ID3D12GraphicsCommandList4_CopyRaytracingAccelerationStructure" true false false
      [Plain; Plain; Plain] [];
    EP "ID3D12GraphicsCommandList4_SetPipelineState1" true false false
      [Object] [];
    EP "ID3D12GraphicsCommandList4_DispatchRays" true false false
      [Plain] [];
    EP "ID3D12Tools_EnableShaderInstrumentation" true false false
      [Plain] [];
    EP "ID3D12Tools_ShaderInstrumentationEnabled" true true false
      [] [];
    EP "ID3D12GraphicsCommandList5_RSSetShadingRate" true false false
      [Plain; Plain] [];
    EP "ID3D12GraphicsCommandList5_RSSetShadingRateImage" true false false
      [Object] [];
    EP "ID3D12GraphicsCommandList6_DispatchMesh" true false false
      [Plain; Plain; Plain] [];
    EP "ID3D10Blob_GetBufferPointer" true true false
      [] [];
    EP "ID3D10Blob_GetBufferSize" true true false
      [] [];
    EP "ID3DDestructionNotifier_RegisterDestructionCallback" true true false
      [Plain; Plain; Plain] [];
    EP "ID3DDestructionNotifier_UnregisterDestructionCallback" true true false
      [Plain] []
  ].

Definition entry_point (id : ApiCallId) : option EntryPoint :=
  find (λ ep, String.eqb (ep_id ep) id) entry_points.

(** A well-formed descriptor: outputs are wrapped only by an entry point
    that returns a status. *)
Definition well_formed (ep : EntryPoint) : bool :=
  match ep_wraps ep with [] => true | _ => ep_returns ep end.

(** The descriptors of the entry points written out above. *)
Definition CreateDXGIFactory_ep : EntryPoint :=
  EP "CreateDXGIFactory" false true false
    [Plain; Plain] [WrapObj (IidParam 0) 1].

Definition IDXGIObject_SetPrivateData_ep : EntryPoint :=
  EP "IDXGIObject_SetPrivateData" true true false
    [Plain; Plain; Plain] [].

Definition IDXGIObject_SetPrivateDataInterface_ep : EntryPoint :=
  EP "IDXGIObject_SetPrivateDataInterface" true true false
    [Plain; Object] [].

Definition IDXGIObject_GetParent_ep : EntryPoint :=
  EP "IDXGIObject_GetParent" true true false
    [Plain; Plain] [WrapObj (IidParam 0) 1].

Definition IDXGIDevice_QueryResourceResidency_ep : EntryPoint :=
  EP "IDXGIDevice_QueryResourceResidency" true true false
    [ObjectArray 2; Plain; Plain] [].

Definition CreateDXGIFactory2_ep : EntryPoint :=
  EP "CreateDXGIFactory2" false true true
    [Plain; Plain; Plain] [WrapObj (IidParam 1) 2].

Definition D3D12CreateDevice_ep : EntryPoint :=
  EP "D3D12CreateDevice" false true false
    [Object; Plain; Plain; Plain] [WrapObj (IidParam 2) 3].

Definition D3D12GetDebugInterface_ep : EntryPoint :=
  EP "D3D12GetDebugInterface" false true false
    [Plain; Plain] [WrapObj (IidParam 0) 1].

Definition ID3D12CommandQueue_ExecuteCommandLists_ep : EntryPoint :=
  EP "ID3D12CommandQueue_ExecuteCommandLists" true false false
    [Plain; ObjectArray 0] [].

Fixpoint tree_writes_all (cs : list Call) : list (address * list field) :=
  match cs with
  | [] => []
  | c :: cs' => tree_writes c ++ tree_writes_all cs'
  end.

Fixpoint calls_all (cs : list Call) : nat :=
  match cs with
  | [] => O
  | c :: cs' => (calls c + calls_all cs')%nat
  end.

(** The state in which the outermost call unwraps its arguments: the
    counter incremented, the pre-call hook dispatched and, when an argument
    needs it, the scratch memory obtained. *)
Definition enter (ep : EntryPoint) (t : thread) (this : option address)
    (args : list arg) (s : State) : State :=
  let s1 := (IncrementCallScope t s).2 in
  let s2 := (CustomWrapperPreCall (ep_id ep) this args s1).2 in
  if needs_memory (ep_params ep) then (GetHandleUnwrapMemory t s2).2 else s2.

(** The state the outermost call returns in, from the one its outputs
    were wrapped in: the call encoded, the post-call hook dispatched, the
    counter decremented. *)
Definition leave (ep : EntryPoint) (t : thread) (this : option address)
    (args : list arg) (result : Z) (s : State) : State :=
  let s1 := (Encode (ep_id ep) this (reported ep result) args s).2 in
  let s2 :=
    (CustomWrapperPostCall (ep_id ep) this (reported ep result) args s1).2 in
  (DecrementCallScope t s2).2.

(** The record [Encode] writes for a call in state [s]. *)
Definition record_of (id : ApiCallId) (this : option address)
    (result : option Z) (args : list arg) (s : State) : TraceRecord :=
  {| tr_call := id;
     tr_object := this ≫= (λ w, GetCaptureId w s);
     tr_result := result;
     tr_payload := map (encode_arg s) args |}.

(** The scratch buffers of a thread. *)
Definition scratch (t : thread) (s : State) : list (list field) :=
  default [] (unwrap_memory_ s !! t).

(** What unwrapping the arguments may change: nothing but the scratch
    memory of the calling thread, which only grows. *)
Definition scratch_grows (t : thread) (s s' : State) : Prop :=
  capture_enabled s' = capture_enabled s
  ∧ trace s' = trace s
  ∧ registry s' = registry s
  ∧ app_memory s' = app_memory s
  ∧ call_scope_ s' = call_scope_ s
  ∧ log s' = log s
  ∧ (∃ new, scratch t s' = scratch t s ++ new)
  ∧ (∀ t', t' ≠ t → unwrap_memory_ s' !! t' = unwrap_memory_ s !! t').

(** How the outermost call passes on one argument: [a'] is what the
    callee receives for the argument [a] of a parameter of mode [mode],
    the registry and the memory of the application being those of [s] and
    [s'] the state when the callee is invoked. *)
Inductive passed (t : thread) (s s' : State) (args : list arg)
  : UnwrapMode → arg → arg → Prop :=
| passed_plain a : passed t s s' args Plain a a
| passed_object r :
    passed t s s' args Object (Obj r) (Obj (unwrap_ref (registry s) r))
| passed_array_none count p :
    p = PNull ∨ arg_z args count = 0 →
    passed t s s' args (ObjectArray count) (Ptr p) (Ptr PNull)
| passed_array count a index :
    arg_z args count ≠ 0 →
    scratch t s' !! index =
      Some (map (unwrap_field (registry s))
              (take (Z.to_nat (arg_z args count))
                    (default [] (app_memory s !! a)))) →
    passed t s s' args (ObjectArray count) (Ptr (PApp a))
      (Ptr (PScratch t index))
| passed_struct_null :
    passed t s s' args StructPtr (Ptr PNull) (Ptr PNull)
| passed_struct a index :
    scratch t s' !! index =
      Some (map (unwrap_field (registry s)) (default [] (app_memory s !! a))) →
    passed t s s' args StructPtr (Ptr (PApp a)) (Ptr (PScratch t index))
| passed_struct_value fields index :
    scratch t s' !! index = Some (map (unwrap_field (registry s)) fields) →
    passed t s s' args StructVal (Struct fields)
      (Struct (map (unwrap_field (registry s)) fields))
| passed_struct_array_none count p :
    p = PNull ∨ count_of args count = 0 →
    passed t s s' args (StructArray count) (Ptr p) (Ptr PNull)
| passed_struct_array count a index :
    count_of args count ≠ 0 →
    scratch t s' !! index =
      Some (map (unwrap_field (registry s))
              (take (Z.to_nat (count_of args count))
                    (default [] (app_memory s !! a)))) →
    passed t s s' args (StructArray count) (Ptr (PApp a))
      (Ptr (PScratch t index))
| passed_other mode a a' :
    match mode, a with
    | Object, Obj _ | ObjectArray _, Ptr (PNull | PApp _)
    | StructPtr, Ptr (PNull | PApp _) | StructVal, Struct _
    | StructArray _, Ptr (PNull | PApp _) | Plain, _ => False
    | _, _ => True
    end →
    passed t s s' args mode a a'.

(** A consistent registry: every [object_map_] entry leads to a live
    wrapper of the object it is filed under, and the next wrapper address
    is unused. *)
Definition registry_ok (reg : Registry) : Prop :=
  (∀ ty o w, object_map_ reg !! (ty, o) = Some w →
     ∃ info, wrappers reg !! w = Some info ∧ w_object info = o)
  ∧ (∀ w info, wrappers reg !! w = Some info → (w < next_wrapper reg)%N).

(** A registry that has kept every entry and wrapper of another. *)
Definition registry_extends (reg reg' : Registry) : Prop :=
  (∀ k w, object_map_ reg !! k = Some w → object_map_ reg' !! k = Some w)
  ∧ (∀ w info, wrappers reg !! w = Some info →
       wrappers reg' !! w = Some info).

(** The addresses of the output slots an entry point wraps. *)
Definition wrap_slot (args : list arg) (w : WrapSpec) : pointer :=
  match w with
  | WrapObj _ object => arg_ptr args object
  | WrapStr value => arg_ptr args value
  end.

Definition is_wrap_event (e : Event) : bool :=
  match e with EvWrap _ _ => true | _ => false end.

Fixpoint wrap_fields (fs : list field) (reg : Registry)
  : list field * Registry :=
  match fs with
  | [] => ([], reg)
  | f :: fs' =>
      let '(f', reg1) := wrap_field f reg in
      let '(fs'', reg2) := wrap_fields fs' reg1 in
      (f' :: fs'', reg2)
  end.

(** What wrapping the outputs may change: the registry and the memory of
    the application; the log gains [WrapObject] and [WrapStruct] calls. *)
Definition wraps_only (s s' : State) : Prop :=
  capture_enabled s' = capture_enabled s
  ∧ trace s' = trace s
  ∧ call_scope_ s' = call_scope_ s
  ∧ unwrap_memory_ s' = unwrap_memory_ s
  ∧ ∃ evs, log s' = log s ++ evs ∧ Forall (λ e, is_wrap_event e = true) evs.

Definition is_increment (e : Event) : bool :=
  match e with EvIncrementCallScope _ _ => true | _ => false end.

Definition is_decrement (e : Event) : bool :=
  match e with EvDecrementCallScope _ _ => true | _ => false end.

Definition count_events (P : Event → bool) (evs : list Event) : nat :=
  length (List.filter P evs).

(** What a reentrant call may leave in the log: changes of the counter of
    the thread that keep it at or above [depth], and calls of real
    implementations. *)
Definition passthrough (t : thread) (depth : Z) (e : Event) : Prop :=
  match e with
  | EvIncrementCallScope t' d | EvDecrementCallScope t' d =>
      t' = t ∧ depth ≤ d
  | EvForward (RealCall _) _ _ => True
  | _ => False
  end.

(** What a reentrant call leaves alone: whether capture is enabled, the
    trace, the registry and the scratch memory. *)
Definition quiet (s s' : State) : Prop :=
  capture_enabled s' = capture_enabled s
  ∧ trace s' = trace s
  ∧ registry s' = registry s
  ∧ unwrap_memory_ s' = unwrap_memory_ s.

(** The effect of a reentrant execution [c] started in [s]: it returns
    what its callee returned, is [quiet], restores the counter of every
    thread, changes the memory of the application by the writes of the
    callees only, and logs one increment and one decrement per call and
    otherwise only calls of real implementations. *)
Definition reentrant_effect (t : thread) (s : State)
    (writes : list (address * list field)) (n : nat) (s' : State) : Prop :=
  quiet s s'
  ∧ (∀ t', call_scope t' s' = call_scope t' s)
  ∧ app_memory s' = apply_writes writes (app_memory s)
  ∧ ∃ evs, log s' = log s ++ evs
      ∧ Forall (passthrough t (call_scope t s)) evs
      ∧ count_events is_increment evs = n
      ∧ count_events is_decrement evs = n.

(** The events of the interception logic: hooks, scratch memory, wrapping
    and encoding. *)
Definition is_hook_event (e : Event) : bool :=
  match e with
  | EvPreCall _ _ _ | EvUnwrapMemory _ | EvWrap _ _ | EvEncode _ _ _ _
  | EvPostCall _ _ _ _ => true
  | _ => false
  end.

Definition is_encode (e : Event) : bool :=
  match e with EvEncode _ _ _ _ => true | _ => false end.

(** The log of an outermost call of [ep]: the callee saw [views], called
    back with the events [evs_cb], and wrapping logged [evs_wrap]. *)
Definition outermost_log (ep : EntryPoint) (t : thread)
    (this : option address) (args : list arg) (target : Target)
    (views : list view) (result : Z) (evs_cb evs_wrap : list Event)
  : list Event :=
  [EvIncrementCallScope t 1; EvPreCall (ep_id ep) this args]
  ++ (if needs_memory (ep_params ep) then [EvUnwrapMemory t] else [])
  ++ [EvForward target (ep_id ep) views]
  ++ evs_cb ++ evs_wrap
  ++ [EvEncode (ep_id ep) this (reported ep result) args;
      EvPostCall (ep_id ep) this (reported ep result) args;
      EvDecrementCallScope t 0].


Definition initial_registry : Registry :=
  {| object_map_ := ∅; wrappers := ∅; object_ids := ∅;
     next_capture_id := 1%N; next_wrapper := 1%N |}.

Definition initial_state : State :=
  {| call_scope_ := ∅; capture_enabled := true; trace := [];
     registry := initial_registry; app_memory := ∅; unwrap_memory_ := ∅;
     log := [] |}.

(** A state in which the application holds a command queue and a command
    list, wrapped by two earlier calls of [Wrap], and, at address 200, an
    array of one element, the command list. *)
Definition sample_registry : Registry :=
  (Wrap "ID3D12GraphicsCommandList" 901%N
     (Wrap "ID3D12CommandQueue" 900%N initial_registry).2).2.

Definition sample_state : State :=
  {| call_scope_ := ∅; capture_enabled := true; trace := [];
     registry := sample_registry;
     app_memory := {[ 200%N := [FObj "ID3D12CommandList" (Wrapped 2%N)] ]};
     unwrap_memory_ := ∅; log := [] |}.

(** *** Wrapped outputs *)






(** [D3D12SerializeRootSignature], lines 7540-7599: two outputs, both
    wrapped as [ID3D10Blob] on success. *)
Definition D3D12SerializeRootSignature (t : thread) (env : Callee)
    (pRootSignature : pointer) (Version : Z) (ppBlob ppErrorBlob : pointer)
  : M HRESULT :=
  call_scope <- IncrementCallScope t;;
  result <-
    (if call_scope =? 1
     then
       CustomWrapperPreCall "D3D12SerializeRootSignature" None
         [Ptr pRootSignature; Val Version; Ptr ppBlob; Ptr ppErrorBlob];;;
       result <- env (RealCall None) "D3D12SerializeRootSignature"
                   [Ptr pRootSignature; Val Version; Ptr ppBlob;
                    Ptr ppErrorBlob];;
       when (SUCCEEDED result)
         (WrapObject "ID3D10Blob" ppBlob;;;
          WrapObject "ID3D10Blob" ppErrorBlob);;;
       Encode "D3D12SerializeRootSignature" None (Some result)
         [Ptr pRootSignature; Val Version; Ptr ppBlob; Ptr ppErrorBlob];;;
       CustomWrapperPostCall "D3D12SerializeRootSignature" None (Some result)
         [Ptr pRootSignature; Val Version; Ptr ppBlob; Ptr ppErrorBlob];;;
       ret result
     else
       env (RealCall None) "D3D12SerializeRootSignature"
         [Ptr pRootSignature; Val Version; Ptr ppBlob; Ptr ppErrorBlob]);;
  DecrementCallScope t;;;
  ret result.

Definition D3D12SerializeRootSignature_ep : EntryPoint :=
  EP "D3D12SerializeRootSignature" false true false
    [Plain; Plain; Plain; Plain]
    [WrapObj (IidConst "ID3D10Blob") 2; WrapObj (IidConst "ID3D10Blob") 3].

(** *** Constructors, destructors and [GetExistingWrapper]

    The 97 constructors, the 40 destructors and the 40 [GetExistingWrapper]
    functions of the file, by class. *)

Definition set_object_map
    (f : gmap (IID * address) address → gmap (IID * address) address)
    (reg : Registry) : Registry :=
  {| object_map_ := f (object_map_ reg); wrappers := wrappers reg;
     object_ids := object_ids reg; next_capture_id := next_capture_id reg;
     next_wrapper := next_wrapper reg |}.

Definition set_wrappers
    (f : gmap address WrapperInfo → gmap address WrapperInfo)
    (reg : Registry) : Registry :=
  {| object_map_ := object_map_ reg; wrappers := f (wrappers reg);
     object_ids := object_ids reg; next_capture_id := next_capture_id reg;
     next_wrapper := next_wrapper reg |}.

(** Modelled from the spec: [AddWrapperMapEntry], [RemoveWrapperMapEntry]
    and [FindMapEntry] of [encode/dx12_object_wrapper_util.h] add, remove
    and look up the entry of an object in the map of a class, under its
    lock. *)
Definition AddWrapperMapEntry (class : IID) (object wrapper : address)
  : Registry → Registry :=
  set_object_map <[(class, object) := wrapper]>.

Definition RemoveWrapperMapEntry (class : IID) (object : address)
  : Registry → Registry :=
  set_object_map (delete (class, object)).

Definition FindMapEntry (class : IID) (object : address) (reg : Registry)
  : option address :=
  object_map_ reg !! (class, object).

(** Modelled from the spec: the constructor of [IUnknown_Wrapper], the root
    of every chain, which is outside the file, records the object, the
    interface and the capture id of the wrapper; its destructor ends the
    life of the wrapper.  Neither touches [object_ids]: the capture id of
    an object is assigned by [Wrap], and its release when the last wrapper
    of the object is destroyed, which the design places in the reference
    counting of [IUnknown_Wrapper], is not modelled.  What is stated of
    constructors and destructors below is about [object_map_] and
    [wrappers] and says nothing of the capture ids after a destruction. *)
Definition IUnknown_Wrapper_ctor (riid : IID) (object : address)
    (id : CaptureId) (this : address) : Registry → Registry :=
  set_wrappers
    <[this := {| w_object := object; w_riid := riid; w_capture_id := id |}]>.

Definition IUnknown_Wrapper_dtor (this : address) : Registry → Registry :=
  set_wrappers (delete this).

(** The constructor of [class_Wrapper]: the constructor of the base class,
    then its body, [AddWrapperMapEntry] for a class with a map and nothing
    for the others.  [fuel] bounds the length of the chain. *)
Fixpoint Wrapper_ctor (fuel : nat) (class riid : IID) (object : address)
    (id : CaptureId) (this : address) (reg : Registry) : Registry :=
  match fuel with
  | O => reg
  | S fuel' =>
      match assoc class wrapper_classes with
      | Some (base, has_map) =>
          let reg := Wrapper_ctor fuel' base riid object id this reg in
          if has_map then AddWrapperMapEntry class object this reg else reg
      | None => IUnknown_Wrapper_ctor riid object id this reg
      end
  end.

(** The destructor of [class_Wrapper]: its body, for a class with a map
    [CustomWrapperDestroyCall (this)] (recorded in the list returned) and
    [RemoveWrapperMapEntry] of the wrapped object, then the destructor of
    the base class. *)
Fixpoint Wrapper_dtor (fuel : nat) (class : IID) (this : address)
    (reg : Registry) : list address * Registry :=
  match fuel with
  | O => ([], reg)
  | S fuel' =>
      match assoc class wrapper_classes with
      | Some (base, has_map) =>
          let '(destroy_calls, reg) :=
            if has_map
            then
              ([this],
               match wrappers reg !! this with
               | Some info => RemoveWrapperMapEntry class (w_object info) reg
               | None => reg
               end)
            else ([], reg) in
          let '(more, reg) := Wrapper_dtor fuel' base this reg in
          (destroy_calls ++ more, reg)
      | None => ([], IUnknown_Wrapper_dtor this reg)
      end
  end.

(** [class_Wrapper::GetExistingWrapper], of a class with a map. *)
Definition GetExistingWrapper (class : IID) (object : address)
    (reg : Registry) : option address :=
  FindMapEntry class object reg.

Definition chain_fuel : nat := S (length wrapper_classes).

(** The classes with a map on the constructor chain of a class, the most
    derived first. *)
Fixpoint map_classes (fuel : nat) (class : IID) : list IID :=
  match fuel with
  | O => []
  | S fuel' =>
      match assoc class wrapper_classes with
      | Some (base, has_map) =>
          (if has_map then [class] else []) ++ map_classes fuel' base
      | None => []
      end
  end.

(** The chain of a class ends at [IUnknown_Wrapper] within the fuel. *)
Fixpoint reaches_root (fuel : nat) (class : IID) : bool :=
  match fuel with
  | O => false
  | S fuel' =>
      match assoc class wrapper_classes with
      | Some (base, _) => reaches_root fuel' base
      | None => true
      end
  end.

(** The chain of a class ends at the root and has at most one class with a
    map, the one [interface_type] names. *)
Definition chain_ok (class : IID) : bool :=
  reaches_root chain_fuel class
  && match map_classes chain_fuel class, interface_type class with
     | [c], Some ty => String.eqb c ty
     | [], None => true
     | _, _ => false
     end.

Definition is_forward (e : Event) : bool :=
  match e with EvForward _ _ _ => true | _ => false end.

(** An execution with a callback: the driver, creating a factory, asks the
    layer for the debug interface before it returns, and fails to get
    it. *)
Definition sample_call : Call :=
  MkCall CreateDXGIFactory_ep None [Iid "IDXGIFactory"; Ptr (PApp 100%N)]
    {| out_result := S_OK;
       out_writes := [(100%N, [FObj "void" (Real 900%N)])] |}
    [MkCall D3D12GetDebugInterface_ep None
       [Iid "ID3D12Debug"; Ptr (PApp 101%N)]
       {| out_result := E_NOINTERFACE; out_writes := [] |} []].

(** A device creation that fails. *)
Definition failing_call : Call :=
  MkCall D3D12CreateDevice_ep None
    [Obj Null; Val 45056; Iid "ID3D12Device"; Ptr (PApp 100%N)]
    {| out_result := E_FAIL; out_writes := [] |} [].

End Dx12Wrappers.

(** ** Properties of the settings loader *)

Module SettingsLoaderFacts.
Import SettingsLoader.

Lemma append_cons (c : ascii) (a b : string) :
  String c a +:+ b = String c (a +:+ b).
Proof. reflexivity. Qed.

Lemma append_nil_l (b : string) : EmptyString +:+ b = b.
Proof. reflexivity. Qed.

Lemma append_empty_r (s : string) : s +:+ EmptyString = s.
Proof. induction s as [|c s IH]; [done|]. by rewrite append_cons, IH. Qed.

Lemma append_assoc (a b c : string) : (a +:+ b) +:+ c = a +:+ b +:+ c.
Proof. induction a as [|x a IH]; [done|]. by rewrite !append_cons, IH. Qed.

Lemma length_append (a b : string) :
  String.length (a +:+ b) = (String.length a + String.length b)%nat.
Proof.
  induction a as [|x a IH]; [done|].
  rewrite append_cons. cbn [String.length Nat.add]. by rewrite IH.
Qed.

Lemma substring_0_all (s : string) : String.substring 0 (String.length s) s = s.
Proof.
  induction s as [|c s IH]; [done|].
  cbn [String.length String.substring]. by rewrite IH.
Qed.

Lemma substring_0_0 (s : string) : String.substring 0 0 s = EmptyString.
Proof. by destruct s. Qed.

Lemma back_cons (c d : ascii) (s : string) :
  back (String c (String d s)) = back (String d s).
Proof. reflexivity. Qed.

Lemma init_cons (c d : ascii) (s : string) :
  init (String c (String d s)) = String c (init (String d s)).
Proof. reflexivity. Qed.

Lemma init_back (s : string) (b : ascii) :
  back s = Some b → s = init s +:+ String b EmptyString.
Proof.
  induction s as [|c s IH]; [done|].
  destruct s as [|d s].
  - by intros [= ->].
  - rewrite back_cons, init_cons, append_cons. intros Hb. f_equal. by apply IH.
Qed.

Lemma back_is_Some (c : ascii) (s : string) : is_Some (back (String c s)).
Proof.
  revert c. induction s as [|d s IH]; intros c; [by eexists|].
  rewrite back_cons. apply IH.
Qed.

Lemma substring_0_S (n : nat) (c : ascii) (s : string) :
  String.substring 0 (S n) (String c s) = String c (String.substring 0 n s).
Proof. reflexivity. Qed.

Lemma substring_S (n m : nat) (c : ascii) (s : string) :
  String.substring (S n) m (String c s) = String.substring n m s.
Proof. reflexivity. Qed.

Lemma substring_0_init (c : ascii) (s : string) :
  String.substring 0 (String.length s) (String c s) = init (String c s).
Proof.
  revert c. induction s as [|d s IH]; intros c; [done|].
  cbn [String.length]. by rewrite substring_0_S, init_cons, IH.
Qed.

(** [RemoveQuotes] is undefined exactly on the empty string. *)
Lemma RemoveQuotes_empty : RemoveQuotes EmptyString = None.
Proof. reflexivity. Qed.

(** On a non-empty string shorter than [size_t] can count, [RemoveQuotes]
    returns the string without one leading quote character, when it starts
    with one, and without one trailing quote character, when it ends with
    one. *)
Lemma RemoveQuotes_shape (source : string) :
  source ≠ EmptyString →
  length_z source < size_t_modulus →
  ∃ r pre suf,
    RemoveQuotes source = Some r
    ∧ source = pre +:+ r +:+ suf
    ∧ at_most_one_quote pre ∧ at_most_one_quote suf.
Proof.
  destruct source as [|f rest]; [done|]. intros _ Hlen.
  destruct (back_is_Some f rest) as [b Hb].
  unfold RemoveQuotes. rewrite Hb. cbn [front mbind option_bind].
  unfold length_z, size_t_modulus in *.
  cbn [String.length] in *.
  destruct (is_quote f) eqn:Hf, (is_quote b) eqn:Hq; cbn -[Z.of_nat Z.pow back init].
  - (* both ends quoted *)
    unfold substr, size_t_sub, length_z, size_t_modulus. cbn [String.length].
    destruct (Z.ltb_spec (Z.of_nat (S (String.length rest))) 1) as [?|_]; [lia|].
    destruct rest as [|d rest'].
    + (* a single quote character *)
      exists EmptyString, (String f EmptyString), EmptyString.
      split; [done|]. split; [done|]. split; [right; by exists f|by left].
    + exists (init (String d rest')), (String f EmptyString), (String b EmptyString).
      cbn [String.length] in Hlen.
      split.
      * f_equal. cbn [String.length].
        replace ((Z.of_nat (S (S (String.length rest'))) - (0 + 1 + 1)) mod 2 ^ 64)
          with (Z.of_nat (String.length rest')) by (rewrite Z.mod_small; lia).
        rewrite Z.min_l by lia. rewrite Nat2Z.id.
        change (Z.to_nat 1) with 1%nat.
        rewrite substring_S. apply substring_0_init.
      * split; [|split; [right; by exists f|right; by exists b]].
        rewrite append_cons, append_nil_l. f_equal.
        apply init_back. by rewrite back_cons in Hb.
  - (* leading quote only *)
    unfold substr, size_t_sub, length_z, size_t_modulus. cbn [String.length].
    destruct (Z.ltb_spec (Z.of_nat (S (String.length rest))) 1) as [?|_]; [lia|].
    exists rest, (String f EmptyString), EmptyString.
    split.
    + f_equal.
      replace ((Z.of_nat (S (String.length rest)) - (0 + 1)) mod 2 ^ 64)
        with (Z.of_nat (String.length rest)) by (rewrite Z.mod_small; lia).
      rewrite Z.min_l by lia. rewrite Nat2Z.id.
      change (Z.to_nat 1) with 1%nat.
      rewrite substring_S. apply substring_0_all.
    + split; [|split; [right; by exists f|by left]].
      rewrite (append_empty_r rest). reflexivity.
  - (* trailing quote only *)
    unfold substr, size_t_sub, length_z, size_t_modulus. cbn [String.length].
    destruct (Z.ltb_spec (Z.of_nat (S (String.length rest))) 0) as [?|_]; [lia|].
    exists (init (String f rest)), EmptyString, (String b EmptyString).
    split.
    + f_equal.
      replace ((Z.of_nat (S (String.length rest)) - (0 + 1)) mod 2 ^ 64)
        with (Z.of_nat (String.length rest)) by (rewrite Z.mod_small; lia).
      rewrite Z.min_l by lia. rewrite Nat2Z.id.
      change (Z.to_nat 0) with 0%nat.
      apply substring_0_init.
    + split; [|split; [by left|right; by exists b]].
      apply init_back. exact Hb.
  - (* no quote *)
    exists (String f rest), EmptyString, EmptyString.
    split; [done|]. split; [|split; by left].
    rewrite (append_empty_r (String f rest)). reflexivity.
Qed.

Lemma RemoveQuotes_defined (source : string) :
  source ≠ EmptyString → is_Some (RemoveQuotes source).
Proof.
  destruct source as [|f rest]; [done|]. intros _.
  destruct (back_is_Some f rest) as [b Hb].
  unfold RemoveQuotes. rewrite Hb. cbn [front mbind option_bind].
  unfold substr, length_z. cbn [String.length].
  destruct (is_quote f), (is_quote b); cbn -[Z.of_nat size_t_sub];
    try (by eexists);
    match goal with
    | |- context [Z.ltb ?a ?b] => destruct (Z.ltb_spec a b); [lia|by eexists]
    end.
Qed.

(** *** Scanning *)

Lemma skip_space_cons (c : ascii) (r : string) :
  skip_space (String c r) = if isspace c then skip_space r else String c r.
Proof. reflexivity. Qed.

Lemma skip_space_spec (s : string) :
  ∃ ws, s = ws +:+ skip_space s ∧ all_chars isspace ws = true.
Proof.
  induction s as [|c r [ws [IH1 IH2]]].
  - by exists EmptyString.
  - rewrite skip_space_cons. destruct (isspace c) eqn:Hc.
    + exists (String c ws). rewrite append_cons, <- IH1. split; [done|].
      cbn [all_chars]. by rewrite Hc, IH2.
    + by exists EmptyString.
Qed.

Lemma scan_set_spec (P : ascii → bool) (w : nat) (s tok rest : string) :
  scan_set P w s = (tok, rest) →
  s = tok +:+ rest ∧ all_chars P tok = true ∧ (String.length tok ≤ w)%nat.
Proof.
  revert s tok rest. induction w as [|w IH]; intros s tok rest.
  - destruct s; intros [= <- <-]; repeat split; auto.
  - destruct s as [|c r]; [intros [= <- <-]; repeat split; cbn; lia|].
    cbn [scan_set]. destruct (P c) eqn:Hc.
    + destruct (scan_set P w r) as [tok' rest'] eqn:Hscan.
      intros [= <- <-]. destruct (IH _ _ _ Hscan) as (-> & Hall & Hlen).
      rewrite append_cons. cbn [all_chars String.length].
      rewrite Hc, Hall. repeat split; lia.
    + intros [= <- <-]. repeat split; cbn; lia.
Qed.

Lemma is_empty_false (s : string) : is_empty s = false → s ≠ EmptyString.
Proof. by destruct s. Qed.

(** When [sscanf] reports two conversions, the input has that form and
    the buffers hold the key and the value. *)
Lemma sscanf_two (input key0 value0 key value : string) :
  sscanf input key0 value0 = (2, key, value) →
  parses_as_key_value input key value.
Proof.
  unfold sscanf.
  destruct (skip_space_spec input) as (ws1 & Hin & Hws1).
  destruct (is_empty (skip_space input)) eqn:He1; [by intros [=]|].
  destruct (scan_set key_char (kDefaultTokenSize - 1) (skip_space input))
    as [k s2] eqn:Hk.
  destruct (scan_set_spec _ _ _ _ _ Hk) as (Hs1 & Hkall & Hklen).
  destruct (is_empty k) eqn:Hke; [by intros [=]|].
  destruct (skip_space_spec s2) as (ws2 & Hs2 & Hws2).
  destruct (skip_space s2) as [|c s4] eqn:Hs3; [by intros [=]|].
  destruct (Ascii.eqb c EQUALS) eqn:Hc; [|by intros [=]].
  apply Ascii.eqb_eq in Hc. subst c.
  destruct (skip_space_spec s4) as (ws3 & Hs4 & Hws3).
  destruct (is_empty (skip_space s4)) eqn:He5; [by intros [=]|].
  destruct (scan_set value_char (kDefaultTokenSize - 1) (skip_space s4))
    as [v rest] eqn:Hv.
  destruct (scan_set_spec _ _ _ _ _ Hv) as (Hs5 & Hvall & Hvlen).
  destruct (is_empty v) eqn:Hve; [by intros [=]|].
  intros [= <- <-].
  exists ws1, ws2, ws3, rest.
  split.
  { rewrite Hin at 1. f_equal. rewrite Hs1 at 1. f_equal.
    rewrite Hs2 at 1. f_equal. f_equal. rewrite Hs4 at 1. f_equal. done. }
  change (kDefaultTokenSize - 1)%nat with 511%nat in *.
  repeat split; auto using is_empty_false.
Qed.

(** The number of conversions [sscanf] reports is [EOF], 0, 1 or 2. *)
Lemma sscanf_count (input key0 value0 : string) :
  (sscanf input key0 value0).1.1 ∈ [-1; 0; 1; 2].
Proof.
  unfold sscanf.
  repeat (match goal with
          | |- context [if ?b then _ else _] => destruct b
          | |- context [let '(_, _) := ?p in _] => destruct p
          | |- context [match ?x with EmptyString => _ | String _ _ => _ end] =>
              destruct x
          end); cbn; set_solver.
Qed.

(** *** Comments *)

Lemma has_char_append (c : ascii) (a b : string) :
  has_char c (a +:+ b) = has_char c a || has_char c b.
Proof.
  induction a as [|x a IH]; [done|].
  rewrite append_cons. cbn [has_char]. rewrite IH. by rewrite orb_assoc.
Qed.

Lemma find_first_of_Some (c : ascii) (s : string) (n : nat) :
  find_first_of c s = Some n →
  has_char c (erase_from n s) = false
  ∧ ∃ rest, s = erase_from n s +:+ String c rest.
Proof.
  unfold erase_from. revert n. induction s as [|d r IH]; intros n; [done|].
  cbn [find_first_of]. destruct (Ascii.eqb d c) eqn:Hd.
  - intros [= <-]. apply Ascii.eqb_eq in Hd. subst d.
    split; [done|]. by exists r.
  - destruct (find_first_of c r) as [m|] eqn:Hf; [|done].
    intros [= <-]. destruct (IH m eq_refl) as (Hno & rest & Hr).
    rewrite substring_0_S. cbn [has_char]. rewrite Hd, Hno.
    split; [done|]. exists rest. rewrite append_cons. by f_equal.
Qed.

Lemma find_first_of_None (c : ascii) (s : string) :
  find_first_of c s = None → has_char c s = false.
Proof.
  induction s as [|d r IH]; [done|].
  cbn [find_first_of has_char]. destruct (Ascii.eqb d c); [done|].
  destruct (find_first_of c r); [done|]. intros _. by apply IH.
Qed.

(** Stripping the comment keeps the text before the first [#] and nothing
    else. *)
Lemma strip_comment_spec (line : string) :
  has_char kCommentDelimiter (strip_comment line) = false
  ∧ (strip_comment line = line
     ∨ ∃ rest, line = strip_comment line +:+ String kCommentDelimiter rest).
Proof.
  unfold strip_comment.
  destruct (find_first_of kCommentDelimiter line) as [n|] eqn:Hf.
  - destruct (find_first_of_Some _ _ _ Hf) as (Hno & rest & Hr).
    split; [done|]. right. by exists rest.
  - split; [by apply find_first_of_None|by left].
Qed.

(** *** The filter *)

Lemma nat_of_ascii_inj (a b : ascii) : nat_of_ascii a = nat_of_ascii b → a = b.
Proof.
  intros H. rewrite <- (ascii_nat_embedding a), <- (ascii_nat_embedding b).
  by rewrite H.
Qed.

Lemma nat_of_ascii_zero (a : ascii) : nat_of_ascii a = 0%nat → a = NUL.
Proof. intros H. apply nat_of_ascii_inj. by rewrite H. Qed.

Lemma c_str_no_NUL (s : string) : has_char NUL s = false → c_str s = s.
Proof.
  induction s as [|c r IH]; [done|]. cbn [has_char c_str].
  destruct (Ascii.eqb c NUL); [done|]. intros H. by rewrite IH.
Qed.

Lemma c_str_has_no_NUL (s : string) : has_char NUL (c_str s) = false.
Proof.
  induction s as [|c r IH]; [done|]. cbn [c_str].
  destruct (Ascii.eqb c NUL) eqn:Hc; [done|]. cbn [has_char]. by rewrite Hc.
Qed.

(** With a filter free of NUL characters, the comparison is zero only for
    keys that start with the filter. *)
Lemma StringCompare_prefix (key filter : string) :
  has_char NUL filter = false →
  StringCompare key filter (String.length filter) = 0 →
  ∃ rest, key = filter +:+ rest.
Proof.
  revert key. induction filter as [|c2 r2 IH]; intros key Hnul.
  - intros _. by exists key.
  - cbn [has_char] in Hnul. apply orb_false_iff in Hnul as [Hc2 Hr2].
    destruct key as [|c1 r1]; cbn [String.length StringCompare].
    + intros H. assert (nat_of_ascii c2 = 0%nat) as Hz by lia.
      apply nat_of_ascii_zero in Hz. subst c2. done.
    + destruct (Ascii.eqb c1 c2) eqn:Hc.
      * apply Ascii.eqb_eq in Hc. subst c1. intros H.
        destruct (IH r1 Hr2 H) as [rest ->]. by exists rest.
      * intros H. assert (nat_of_ascii c1 = nat_of_ascii c2) as Hz by lia.
        apply nat_of_ascii_inj in Hz. subst c1.
        by rewrite Ascii.eqb_refl in Hc.
Qed.

(** A filter with an embedded NUL character is compared as the C string
    before that character, terminator included: only the key equal to it
    passes. *)
Lemma StringCompare_embedded_NUL (key filter : string) :
  has_char NUL filter = true →
  has_char NUL key = false →
  StringCompare key (c_str filter) (String.length filter) = 0 →
  key = c_str filter.
Proof.
  revert key. induction filter as [|c r IH]; intros key; [done|].
  cbn [has_char c_str String.length]. destruct (Ascii.eqb c NUL) eqn:Hc.
  - intros _ Hk. destruct key as [|c1 r1]; [done|]. cbn [StringCompare].
    intros H. assert (nat_of_ascii c1 = 0%nat) as Hz by lia.
    apply nat_of_ascii_zero in Hz. subst c1. done.
  - cbn [orb]. intros Hr Hk. destruct key as [|c1 r1]; cbn [StringCompare].
    + intros H. assert (nat_of_ascii c = 0%nat) as Hz by lia.
      apply nat_of_ascii_zero in Hz. subst c. done.
    + cbn [has_char] in Hk. apply orb_false_iff in Hk as [Hc1 Hr1].
      destruct (Ascii.eqb c1 c) eqn:Hcc.
      * apply Ascii.eqb_eq in Hcc. subst c1. intros H.
        by rewrite (IH r1 Hr Hr1 H).
      * intros H. assert (nat_of_ascii c1 = nat_of_ascii c) as Hz by lia.
        apply nat_of_ascii_inj in Hz. subst c1.
        by rewrite Ascii.eqb_refl in Hcc.
Qed.

(** *** One line of the file *)

(** What the loop body may store for the text of a line whose comment has
    been removed: the key and value of a [key = value] form, the key passing
    the filter, the value without its quotes. *)
Lemma parses_key_no_NUL (input key value : string) :
  has_char NUL input = false →
  parses_as_key_value input key value → has_char NUL key = false.
Proof.
  intros Hin (ws1 & ws2 & ws3 & rest & -> & _).
  rewrite !has_char_append in Hin.
  apply orb_false_iff in Hin as [_ Hin].
  by apply orb_false_iff in Hin as [Hin _].
Qed.

Lemma c_str_prefix (s : string) : ∃ more, s = c_str s +:+ more.
Proof.
  induction s as [|c r [more IH]]; [by exists EmptyString|].
  cbn [c_str]. destruct (Ascii.eqb c NUL).
  - by exists (String c r).
  - exists more. rewrite append_cons. by f_equal.
Qed.

Lemma parses_c_str (s key value : string) :
  parses_as_key_value (c_str s) key value → parses_as_key_value s key value.
Proof.
  intros (ws1 & ws2 & ws3 & rest & Hs & H).
  destruct (c_str_prefix s) as [more Hmore].
  exists ws1, ws2, ws3, (rest +:+ more). split; [|exact H].
  rewrite Hmore, Hs at 1.
  rewrite !append_assoc, append_cons, !append_assoc. done.
Qed.

Lemma process_line_cases (filter line : string) (st : LoopState) :
  ∃ st', process_line filter line st = Some st'
    ∧ (settings_map st' = settings_map st
       ∨ ∃ key unquoted,
           settings_map st' = <[key := unquoted]> (settings_map st)
           ∧ stored_entry filter (strip_comment line) key unquoted).
Proof.
  unfold process_line.
  destruct (sscanf (c_str (strip_comment line)) (key_buf st) (value_buf st))
    as [[n key] value] eqn:Hscan.
  destruct (Z.eqb_spec n 2) as [->|_]; [|eexists; split; [done|by left]].
  pose proof (sscanf_two _ _ _ _ _ Hscan) as Hparse.
  destruct (is_empty filter
            || (StringCompare key (c_str filter) (String.length filter) =? 0))
    eqn:Hfilter; [|eexists; split; [done|by left]].
  assert (value ≠ EmptyString ∧ length_z value < size_t_modulus) as [Hne Hlen].
  { destruct Hparse as (? & ? & ? & ? & _ & _ & _ & _ & _ & _ & _ & Hv & _ & Hl).
    split; [done|]. unfold length_z, size_t_modulus.
    assert (2 ^ 64 = 18446744073709551616) as -> by reflexivity. lia. }
  destruct (RemoveQuotes_shape value Hne Hlen)
    as (unquoted & pre & suf & Hrq & Hval & Hpre & Hsuf).
  rewrite Hrq. cbn [mbind option_bind]. eexists. split; [done|].
  right. exists key, unquoted. split; [done|].
  exists value, pre, suf. split; [by apply parses_c_str|]. split; [done|].
  apply orb_true_iff in Hfilter. split; [|split; [|done]].
  - intros Hnonempty Hnul. destruct Hfilter as [Hf|Hf]; [congruence|].
    apply Z.eqb_eq in Hf. rewrite (c_str_no_NUL _ Hnul) in Hf.
    by apply StringCompare_prefix.
  - intros Hnul. destruct Hfilter as [Hf|Hf]; [by destruct filter|].
    apply Z.eqb_eq in Hf. apply StringCompare_embedded_NUL; [done| |done].
    eapply parses_key_no_NUL; [apply c_str_has_no_NUL|exact Hparse].
Qed.

Lemma process_lines_total (filter : string) (ls : list string) (st : LoopState) :
  is_Some (process_lines filter ls st).
Proof.
  revert st. induction ls as [|l ls IH]; intros st; [by eexists|].
  cbn [process_lines]. destruct (process_line_cases filter l st) as (st' & -> & _).
  apply IH.
Qed.

(** *** The whole file *)

Lemma read_line_Some (s l rest : string) :
  read_line s = (l, Some rest) →
  split_lines s = (l :: (split_lines rest).1, (split_lines rest).2)
  ∧ (String.length rest < String.length s)%nat.
Proof.
  revert l. induction s as [|c r IH]; intros l; [done|].
  cbn [read_line split_lines String.length]. destruct (Ascii.eqb c LF).
  - intros [= <- <-]. destruct (split_lines r). split; [done|lia].
  - destruct (read_line r) as [l' [rest'|]] eqn:Hr; [|done].
    intros [= <- <-]. destruct (IH l' eq_refl) as [-> Hlen]. split; [done|lia].
Qed.

Lemma read_line_None (s l : string) :
  read_line s = (l, None) → split_lines s = ([], s) ∧ l = s.
Proof.
  revert l. induction s as [|c r IH]; intros l; [by intros [= <-]|].
  cbn [read_line split_lines]. destruct (Ascii.eqb c LF); [done|].
  destruct (read_line r) as [l' [rest'|]] eqn:Hr; [done|].
  intros [= <-]. destruct (IH l' eq_refl) as [-> ->]. done.
Qed.

Lemma good_end_of_stream (file : ifstream) (tail : string) :
  good (end_of_stream file tail) = false.
Proof. unfold end_of_stream, good. by destruct (device_error file). Qed.

Lemma good_fresh (file : ifstream) :
  good file = true →
  file = {| pending := pending file; device_error := device_error file;
            eofbit := false; failbit := false; badbit := false |}.
Proof.
  destruct file as [p d [] [] []]; cbn; try done.
Qed.

Lemma read_loop_not_good (fuel : nat) (filter : string) (file : ifstream)
    (line : string) (st : LoopState) (w : World) :
  good file = false → read_loop fuel filter file line st w = Some (file, st, w).
Proof. intros H. destruct fuel; cbn [read_loop]; by rewrite H. Qed.

(** With fuel beyond the length of what is left to read, the loop handles
    the current line and every later line that ends in a line feed, in
    order, and stops at the end of the content. *)
Lemma read_loop_spec (filter : string) (fuel : nat) (file : ifstream)
    (line : string) (st : LoopState) (w : World) :
  good file = true →
  (String.length (pending file) < fuel)%nat →
  read_loop fuel filter file line st w =
    (st' ← process_lines filter (line :: (split_lines (pending file)).1) st;
     Some (end_of_stream file (split_lines (pending file)).2, st',
           end_of_world file w)).
Proof.
  revert file line st w. induction fuel as [|fuel IH]; intros file line st w Hgood Hlen;
    [lia|].
  cbn [read_loop process_lines]. rewrite Hgood.
  destruct (process_line_cases filter line st) as (st1 & -> & _).
  cbn [mbind option_bind]. unfold getline. rewrite Hgood.
  destruct (read_line (pending file)) as [l [rest|]] eqn:Hr.
  - destruct (read_line_Some _ _ _ Hr) as [-> Hlt].
    rewrite IH; [|done|cbn; lia]. done.
  - destruct (read_line_None _ _ Hr) as [-> ->]. cbn [process_lines fst snd].
    unfold end_of_stream, end_of_world.
    destruct (device_error file) as [err|]; by rewrite read_loop_not_good.
Qed.

Lemma LoadLayerSettingsFile_readable (filename filter content : string)
    (read_error : option Z) (m : gmap string string) (w : World) :
  files w !! filename = Some (Readable content read_error) →
  LoadLayerSettingsFile filename filter (Some m) w =
    (st' ← process_lines filter (split_lines content).1 (loop_start m);
     Some (default 0 read_error, Some (settings_map st'),
           world_after filename read_error w)).
Proof.
  intros Hfile. unfold LoadLayerSettingsFile, open. cbn [files]. rewrite Hfile.
  cbn [good eofbit failbit badbit orb negb]. unfold getline.
  cbn [good eofbit failbit badbit orb negb pending device_error].
  destruct (read_line content) as [l [rest|]] eqn:Hr.
  - destruct (read_line_Some _ _ _ Hr) as [-> _].
    rewrite read_loop_spec; [|done|cbn; lia].
    cbn [pending fst snd]. fold (loop_start m).
    destruct (process_lines filter (l :: (split_lines rest).1) (loop_start m))
      as [st'|]; [|done].
    cbn [mbind option_bind]. unfold end_of_stream, end_of_world, world_after.
    cbn [device_error]. by destruct read_error.
  - destruct (read_line_None _ _ Hr) as [-> ->].
    cbn [fst process_lines mbind option_bind mret option_ret].
    unfold world_after. destruct read_error as [err|];
      by rewrite read_loop_not_good.
Qed.

Lemma LoadLayerSettingsFile_unreadable (filename filter : string)
    (m : gmap string string) (w : World) (err : Z) :
  files w !! filename = Some (Unreadable err) →
  LoadLayerSettingsFile filename filter (Some m) w =
    Some (err, Some m, world_after filename (Some err) w).
Proof.
  intros Hfile. unfold LoadLayerSettingsFile, open. cbn [files]. by rewrite Hfile.
Qed.

Lemma LoadLayerSettingsFile_missing (filename filter : string)
    (m : gmap string string) (w : World) :
  files w !! filename = None →
  LoadLayerSettingsFile filename filter (Some m) w =
    Some (ENOENT, Some m, world_after filename (Some ENOENT) w).
Proof.
  intros Hfile. unfold LoadLayerSettingsFile, open. cbn [files]. by rewrite Hfile.
Qed.

End SettingsLoaderFacts.

(** ** Properties of the wrappers *)

Module Dx12Facts.
Import Dx12Wrappers.

Ltac monad_cbv :=
  cbv [bind ret when emit IncrementCallScope DecrementCallScope
       CustomWrapperPreCall CustomWrapperPostCall GetHandleUnwrapMemory
       GetWrappedObjectAs GetWrappedObject Encode
       wrapper_body wrap_on_success wrap_outputs wrap_output outer_target
       real_target reported unwrap_args unwrap_arg needs_memory existsb orb
       arg_z arg_ptr arg_iid iid_of count_of
       ep_id ep_this ep_returns ep_override ep_params ep_wraps
       lookup list_lookup].

(** *** The entry points are instances of the pattern *)

Lemma descriptors_in_table :
  Forall (λ ep, entry_point (ep_id ep) = Some ep)
    [CreateDXGIFactory_ep; IDXGIObject_SetPrivateData_ep;
     IDXGIObject_SetPrivateDataInterface_ep; IDXGIObject_GetParent_ep;
     IDXGIDevice_QueryResourceResidency_ep; CreateDXGIFactory2_ep;
     D3D12CreateDevice_ep; D3D12GetDebugInterface_ep;
     ID3D12CommandQueue_ExecuteCommandLists_ep].
Proof. repeat constructor; vm_compute; reflexivity. Qed.

Lemma entry_points_well_formed : forallb well_formed entry_points = true.
Proof. vm_compute. reflexivity. Qed.

Lemma CreateDXGIFactory_pattern t env riid ppFactory s :
  CreateDXGIFactory t env riid ppFactory s =
  wrapper_body CreateDXGIFactory_ep t env None [Iid riid; Ptr ppFactory] s.
Proof. reflexivity. Qed.

Lemma IDXGIObject_SetPrivateData_pattern t env this Name DataSize pData s :
  IDXGIObject_SetPrivateData t env this Name DataSize pData s =
  wrapper_body IDXGIObject_SetPrivateData_ep t env (Some this)
    [Iid Name; Val DataSize; Ptr pData] s.
Proof. reflexivity. Qed.

Lemma IDXGIObject_SetPrivateDataInterface_pattern t env this Name pUnknown s :
  IDXGIObject_SetPrivateDataInterface t env this Name pUnknown s =
  wrapper_body IDXGIObject_SetPrivateDataInterface_ep t env (Some this)
    [Iid Name; Obj pUnknown] s.
Proof. reflexivity. Qed.

Lemma IDXGIObject_GetParent_pattern t env this riid ppParent s :
  IDXGIObject_GetParent t env this riid ppParent s =
  wrapper_body IDXGIObject_GetParent_ep t env (Some this)
    [Iid riid; Ptr ppParent] s.
Proof. reflexivity. Qed.

Lemma IDXGIDevice_QueryResourceResidency_pattern t env this ppResources
    pResidencyStatus NumResources s :
  IDXGIDevice_QueryResourceResidency t env this ppResources pResidencyStatus
    NumResources s =
  wrapper_body IDXGIDevice_QueryResourceResidency_ep t env (Some this)
    [Ptr ppResources; Ptr pResidencyStatus; Val NumResources] s.
Proof.
  unfold IDXGIDevice_QueryResourceResidency,
    IDXGIDevice_QueryResourceResidency_ep.
  monad_cbv. destruct (call_scope t s + 1 =? 1); [|reflexivity].
  destruct (UnwrapObjects ppResources NumResources t _) as [p s1].
  reflexivity.
Qed.

Lemma CreateDXGIFactory2_pattern t env Flags riid ppFactory s :
  CreateDXGIFactory2 t env Flags riid ppFactory s =
  wrapper_body CreateDXGIFactory2_ep t env None
    [Val Flags; Iid riid; Ptr ppFactory] s.
Proof. reflexivity. Qed.

Lemma D3D12CreateDevice_pattern t env pAdapter MinimumFeatureLevel riid
    ppDevice s :
  D3D12CreateDevice t env pAdapter MinimumFeatureLevel riid ppDevice s =
  wrapper_body D3D12CreateDevice_ep t env None
    [Obj pAdapter; Val MinimumFeatureLevel; Iid riid; Ptr ppDevice] s.
Proof. reflexivity. Qed.

Lemma D3D12GetDebugInterface_pattern t env riid ppvDebug s :
  D3D12GetDebugInterface t env riid ppvDebug s =
  wrapper_body D3D12GetDebugInterface_ep t env None
    [Iid riid; Ptr ppvDebug] s.
Proof. reflexivity. Qed.

Lemma ID3D12CommandQueue_ExecuteCommandLists_pattern t env this
    NumCommandLists ppCommandLists s :
  ID3D12CommandQueue_ExecuteCommandLists t env this NumCommandLists
    ppCommandLists s =
  bind (wrapper_body ID3D12CommandQueue_ExecuteCommandLists_ep t env
          (Some this) [Val NumCommandLists; Ptr ppCommandLists])
       (λ _, ret ()) s.
Proof.
  unfold ID3D12CommandQueue_ExecuteCommandLists,
    ID3D12CommandQueue_ExecuteCommandLists_ep.
  monad_cbv. destruct (call_scope t s + 1 =? 1).
  - destruct (UnwrapObjects ppCommandLists NumCommandLists t _) as [p s1].
    destruct (env _ _ _ _) as [r s2]. reflexivity.
  - destruct (env _ _ _ _) as [r s2]. reflexivity.
Qed.

(** *** The two paths of the pattern *)

Lemma wrapper_body_outermost ep t env this args s :
  call_scope t s = 0 →
  wrapper_body ep t env this args s =
    let s1 := enter ep t this args s in
    let '(args', s2) := unwrap_args t args (ep_params ep) args s1 in
    let '(r, s3) := env (outer_target ep this s).1 (ep_id ep) args' s2 in
    let '(_, s4) := wrap_on_success ep r args s3 in
    (r, leave ep t this args r s4).
Proof.
  intros Hscope. unfold wrapper_body, enter, leave.
  cbv [bind ret when emit IncrementCallScope DecrementCallScope
       CustomWrapperPreCall CustomWrapperPostCall GetHandleUnwrapMemory
       GetWrappedObjectAs Encode outer_target real_target].
  rewrite Hscope. change (0 + 1 =? 1) with true. cbv iota.
  destruct (needs_memory (ep_params ep)), (ep_override ep), this as [w|];
    cbn [fst snd];
    destruct (unwrap_args _ _ _ _ _) as [args' s2];
    destruct (env _ _ _ _) as [r s3];
    destruct (wrap_on_success _ _ _ _) as [[] s4]; reflexivity.
Qed.

Lemma wrapper_body_reentrant ep t env this args s :
  call_scope t s ≠ 0 →
  wrapper_body ep t env this args s =
    let '(r, s2) :=
      env (real_target this s).1 (ep_id ep) args (IncrementCallScope t s).2 in
    (r, (DecrementCallScope t s2).2).
Proof.
  intros Hscope. unfold wrapper_body.
  cbv [bind ret emit IncrementCallScope DecrementCallScope
       GetWrappedObjectAs real_target].
  destruct (Z.eqb_spec (call_scope t s + 1) 1) as [?|_]; [lia|].
  destruct this as [w|]; cbn [fst snd];
    destruct (env _ _ _ _) as [r s2]; reflexivity.
Qed.

(** *** Frames of the stages *)

Ltac solve_scope :=
  let t' := fresh "t'" in
  intros t'; unfold call_scope; cbn;
  destruct (decide (t' = _)) as [->|?];
  [by rewrite lookup_insert_eq|by rewrite lookup_insert_ne].

Lemma call_scope_insert t t' d s :
  call_scope t' (set_call_scope <[t := d]> s) =
  if decide (t' = t) then d else call_scope t' s.
Proof.
  unfold call_scope, set_call_scope. cbn [call_scope_].
  destruct (decide (t' = t)) as [->|Hne].
  - by rewrite lookup_insert_eq.
  - by rewrite lookup_insert_ne.
Qed.

Lemma enter_spec ep t this args s :
  let s' := enter ep t this args s in
  capture_enabled s' = capture_enabled s
  ∧ trace s' = trace s
  ∧ registry s' = registry s
  ∧ app_memory s' = app_memory s
  ∧ (∀ t', call_scope t' s' =
           if decide (t' = t) then call_scope t s + 1 else call_scope t' s)
  ∧ log s' = log s ++ EvIncrementCallScope t (call_scope t s + 1)
                   :: EvPreCall (ep_id ep) this args
                   :: (if needs_memory (ep_params ep)
                       then [EvUnwrapMemory t] else [])
  ∧ unwrap_memory_ s' = (if needs_memory (ep_params ep)
                         then <[t := []]> (unwrap_memory_ s)
                         else unwrap_memory_ s).
Proof.
  unfold enter.
  cbv [bind ret emit IncrementCallScope CustomWrapperPreCall
       GetHandleUnwrapMemory set_call_scope set_unwrap_memory].
  destruct (needs_memory (ep_params ep)); cbn;
    repeat split; try done; try solve_scope; by rewrite <- !app_assoc.
Qed.

Lemma read_block_ext p s s' :
  app_memory s' = app_memory s → unwrap_memory_ s' = unwrap_memory_ s →
  read_block p s' = read_block p s.
Proof. intros H1 H2. destruct p; cbn; by rewrite ?H1, ?H2. Qed.

Lemma encode_arg_ext a s s' :
  registry s' = registry s → app_memory s' = app_memory s →
  unwrap_memory_ s' = unwrap_memory_ s →
  encode_arg s' a = encode_arg s a.
Proof.
  intros H1 H2 H3. destruct a as [| | |p|]; cbn; rewrite ?H1; try done.
  destruct p; [done| |]; by rewrite (read_block_ext _ s s').
Qed.

Lemma record_of_ext id this result args s s' :
  registry s' = registry s → app_memory s' = app_memory s →
  unwrap_memory_ s' = unwrap_memory_ s →
  record_of id this result args s' = record_of id this result args s.
Proof.
  intros H1 H2 H3. unfold record_of, GetCaptureId. rewrite H1. f_equal.
  apply map_ext. intros a. by apply encode_arg_ext.
Qed.

Lemma leave_spec ep t this args r s :
  let s' := leave ep t this args r s in
  capture_enabled s' = capture_enabled s
  ∧ registry s' = registry s
  ∧ app_memory s' = app_memory s
  ∧ unwrap_memory_ s' = unwrap_memory_ s
  ∧ (∀ t', call_scope t' s' =
           if decide (t' = t) then call_scope t s - 1 else call_scope t' s)
  ∧ trace s' = trace s ++ (if capture_enabled s
                           then [record_of (ep_id ep) this (reported ep r)
                                   args s]
                           else [])
  ∧ log s' = log s ++ [EvEncode (ep_id ep) this (reported ep r) args;
                       EvPostCall (ep_id ep) this (reported ep r) args;
                       EvDecrementCallScope t (call_scope t s - 1)].
Proof.
  unfold leave.
  cbv [bind ret emit DecrementCallScope CustomWrapperPostCall Encode
       set_trace set_call_scope].
  cbn [capture_enabled fst snd]. destruct (capture_enabled s) eqn:Hc; cbn;
    rewrite ?Hc; repeat split; try done; try solve_scope;
    try (by rewrite <- !app_assoc); try (by rewrite app_nil_r).
Qed.

Lemma scratch_grows_refl t s : scratch_grows t s s.
Proof. repeat split; try done. exists []. by rewrite app_nil_r. Qed.

Lemma scratch_grows_trans t s1 s2 s3 :
  scratch_grows t s1 s2 → scratch_grows t s2 s3 → scratch_grows t s1 s3.
Proof.
  intros (A1 & A2 & A3 & A4 & A5 & A6 & [n1 A7] & A8)
         (B1 & B2 & B3 & B4 & B5 & B6 & [n2 B7] & B8).
  repeat split; try congruence.
  - exists (n1 ++ n2). by rewrite B7, A7, app_assoc.
  - intros t' Hne. by rewrite B8, A8.
Qed.

Lemma alloc_scratch_spec t cells s :
  (alloc_scratch t cells s).1 = PScratch t (length (scratch t s))
  ∧ scratch t (alloc_scratch t cells s).2 = scratch t s ++ [cells]
  ∧ scratch_grows t s (alloc_scratch t cells s).2.
Proof.
  unfold scratch_grows, alloc_scratch, scratch, set_unwrap_memory. cbn.
  rewrite lookup_insert_eq. cbn. repeat split; try done.
  - by exists [cells].
  - intros t' Hne. by rewrite lookup_insert_ne.
Qed.

Lemma scratch_lookup_grows t s s' index cells :
  scratch_grows t s s' →
  scratch t s !! index = Some cells → scratch t s' !! index = Some cells.
Proof.
  intros (_ & _ & _ & _ & _ & _ & [new ->] & _) H.
  by apply lookup_app_l_Some.
Qed.

Lemma passed_mono t s s1 s2 args mode a a' :
  scratch_grows t s1 s2 →
  passed t s s1 args mode a a' → passed t s s2 args mode a a'.
Proof.
  intros Hg H. destruct H; try (by constructor);
    econstructor; eauto using scratch_lookup_grows.
Qed.

Lemma passed_ext t s0 s s' args mode a a' :
  registry s = registry s0 → app_memory s = app_memory s0 →
  passed t s s' args mode a a' → passed t s0 s' args mode a a'.
Proof.
  intros Hr Hm H. destruct H; rewrite ?Hr, ?Hm in *; try (by constructor);
    econstructor; eauto.
Qed.

Lemma alloc_scratch_lookup t cells s :
  scratch t (alloc_scratch t cells s).2 !! length (scratch t s) = Some cells.
Proof.
  destruct (alloc_scratch_spec t cells s) as (_ & -> & _).
  by rewrite lookup_app_r, Nat.sub_diag.
Qed.

Lemma unwrap_arg_spec t args mode a s :
  scratch_grows t s (unwrap_arg t args mode a s).2
  ∧ passed t s (unwrap_arg t args mode a s).2 args mode a
      (unwrap_arg t args mode a s).1.
Proof.
  destruct mode as [| |count| | |count], a as [z|riid|r|p|fields];
    try (split; [apply scratch_grows_refl|by constructor]).
  - (* an array of interface pointers *)
    unfold unwrap_arg, UnwrapObjects, bind, ret.
    destruct p as [|a|t' i].
    + split; [apply scratch_grows_refl|constructor; by left].
    + destruct (Z.eqb_spec (arg_z args count) 0) as [Hz|Hz].
      * split; [apply scratch_grows_refl|constructor; by right].
      * destruct (alloc_scratch t _ s) as [p' s'] eqn:Ha.
        pose proof (alloc_scratch_spec t
          (map (unwrap_field (registry s))
             (take (Z.to_nat (arg_z args count)) (read_block (PApp a) s))) s)
          as (Hp & _ & Hg).
        pose proof (alloc_scratch_lookup t
          (map (unwrap_field (registry s))
             (take (Z.to_nat (arg_z args count)) (read_block (PApp a) s))) s)
          as Hl.
        rewrite Ha in Hp, Hg, Hl. cbn in Hp, Hg, Hl. subst p'. cbn.
        split; [done|]. by constructor.
    + split; [|by constructor].
      destruct (arg_z args count =? 0); [apply scratch_grows_refl|].
      apply alloc_scratch_spec.
  - (* a pointer to a structure *)
    unfold unwrap_arg, UnwrapStructPtrObjects, bind, ret.
    destruct p as [|a|t' i].
    + split; [apply scratch_grows_refl|constructor].
    + destruct (alloc_scratch t _ s) as [p' s'] eqn:Ha.
      pose proof (alloc_scratch_spec t
        (map (unwrap_field (registry s)) (read_block (PApp a) s)) s)
        as (Hp & _ & Hg).
      pose proof (alloc_scratch_lookup t
        (map (unwrap_field (registry s)) (read_block (PApp a) s)) s) as Hl.
      rewrite Ha in Hp, Hg, Hl. cbn in Hp, Hg, Hl. subst p'. cbn.
      split; [done|]. by constructor.
    + split; [|by constructor]. apply alloc_scratch_spec.
  - (* a structure passed by value *)
    unfold unwrap_arg, UnwrapStructValue, bind, ret.
    destruct (alloc_scratch t _ s) as [p' s'] eqn:Ha.
    pose proof (alloc_scratch_spec t
      (map (unwrap_field (registry s)) fields) s) as (Hp & _ & Hg).
    pose proof (alloc_scratch_lookup t
      (map (unwrap_field (registry s)) fields) s) as Hl.
    rewrite Ha in Hp, Hg, Hl. cbn in Hp, Hg, Hl. cbn.
    split; [done|]. econstructor. exact Hl.
  - (* an array of structures *)
    unfold unwrap_arg, UnwrapStructArrayObjects, bind, ret.
    destruct p as [|a|t' i].
    + split; [apply scratch_grows_refl|constructor; by left].
    + destruct (Z.eqb_spec (count_of args count) 0) as [Hz|Hz].
      * split; [apply scratch_grows_refl|constructor; by right].
      * destruct (alloc_scratch t _ s) as [p' s'] eqn:Ha.
        pose proof (alloc_scratch_spec t
          (map (unwrap_field (registry s))
             (take (Z.to_nat (count_of args count)) (read_block (PApp a) s)))
          s) as (Hp & _ & Hg).
        pose proof (alloc_scratch_lookup t
          (map (unwrap_field (registry s))
             (take (Z.to_nat (count_of args count)) (read_block (PApp a) s)))
          s) as Hl.
        rewrite Ha in Hp, Hg, Hl. cbn in Hp, Hg, Hl. subst p'. cbn.
        split; [done|]. by constructor.
    + split; [|by constructor].
      destruct (count_of args count =? 0); [apply scratch_grows_refl|].
      apply alloc_scratch_spec.
Qed.

Lemma unwrap_args_cons t args mode modes a0 actuals s :
  unwrap_args t args (mode :: modes) (a0 :: actuals) s =
  let '(a0', s1) := unwrap_arg t args mode a0 s in
  let '(rest, s2) := unwrap_args t args modes actuals s1 in
  (a0' :: rest, s2).
Proof. reflexivity. Qed.

(** Unwrapping the arguments changes nothing but the scratch memory of
    the thread, and passes each argument on as its mode says. *)
Lemma unwrap_args_spec t args modes actuals s :
  scratch_grows t s (unwrap_args t args modes actuals s).2
  ∧ length (unwrap_args t args modes actuals s).1 = length actuals
  ∧ (∀ i a, actuals !! i = Some a →
       ∃ a', (unwrap_args t args modes actuals s).1 !! i = Some a'
             ∧ passed t s (unwrap_args t args modes actuals s).2 args
                 (default Plain (modes !! i)) a a').
Proof.
  revert actuals s. induction modes as [|mode modes IH]; intros actuals s.
  - cbn. split; [apply scratch_grows_refl|]. split; [done|].
    intros i a Hi. exists a. split; [done|constructor].
  - destruct actuals as [|a0 actuals].
    { cbn. split; [apply scratch_grows_refl|]. split; [done|]. by intros. }
    rewrite unwrap_args_cons.
    destruct (unwrap_arg_spec t args mode a0 s) as [Hg0 Hp0].
    destruct (unwrap_arg t args mode a0 s) as [a0' s1]. cbn [fst snd] in *.
    destruct (IH actuals s1) as (Hg1 & Hlen & Hrest).
    destruct (unwrap_args t args modes actuals s1) as [rest s2].
    cbn [fst snd ret] in *.
    split; [by eapply scratch_grows_trans|]. split; [simpl; by rewrite Hlen|].
    intros [|i] a Hi; cbn in Hi |- *.
    + injection Hi as <-. exists a0'. split; [done|].
      by eapply passed_mono.
    + destruct (Hrest i a Hi) as (a' & Ha' & Hp). exists a'. split; [done|].
      destruct Hg0 as (_ & _ & Hr & Hm & _).
      by eapply passed_ext.
Qed.

(** *** The registry *)

Lemma registry_extends_refl reg : registry_extends reg reg.
Proof. by split. Qed.

Lemma registry_extends_trans r1 r2 r3 :
  registry_extends r1 r2 → registry_extends r2 r3 → registry_extends r1 r3.
Proof. intros [A1 A2] [B1 B2]. split; eauto. Qed.

Lemma initial_registry_ok : registry_ok initial_registry.
Proof. split; intros *; cbn; by rewrite lookup_empty. Qed.

(** [Wrap] keeps the registry consistent and every earlier entry; for an
    interface whose wrapper class keeps an [object_map_] it returns a
    wrapper filed under the object, for any other the reference itself. *)
Lemma Wrap_spec riid o reg :
  registry_ok reg →
  registry_ok (Wrap riid o reg).2
  ∧ registry_extends reg (Wrap riid o reg).2
  ∧ match interface_type riid with
    | Some ty =>
        ∃ w info, (Wrap riid o reg).1 = Wrapped w
          ∧ object_map_ (Wrap riid o reg).2 !! (ty, o) = Some w
          ∧ wrappers (Wrap riid o reg).2 !! w = Some info
          ∧ w_object info = o
    | None => Wrap riid o reg = (Real o, reg)
    end.
Proof.
  intros [Hmap Hfresh]. unfold Wrap.
  destruct (interface_type riid) as [ty|];
    [|split; [by split|split; [apply registry_extends_refl|done]]].
  destruct (object_map_ reg !! (ty, o)) as [w|] eqn:Hw.
  - cbn. split; [by split|]. split; [apply registry_extends_refl|].
    destruct (Hmap _ _ _ Hw) as (info & Hinfo & Ho). by exists w, info.
  - cbn. assert (wrappers reg !! next_wrapper reg = None) as Hnone.
    { destruct (wrappers reg !! next_wrapper reg) as [info|] eqn:Hi; [|done].
      apply Hfresh in Hi. lia. }
    split; [split|split; [split|]].
    + intros ty' o' w'. cbn.
      destruct (decide ((ty, o) = (ty', o'))) as [[= <- <-]|Hne].
      * rewrite lookup_insert_eq. intros [= <-]. eexists.
        by rewrite lookup_insert_eq.
      * rewrite lookup_insert_ne by done. intros Hw'.
        destruct (Hmap _ _ _ Hw') as (info & Hinfo & Ho). exists info.
        split; [|done]. rewrite lookup_insert_ne; [done|].
        intros <-. congruence.
    + intros w' info. cbn.
      destruct (decide (next_wrapper reg = w')) as [<-|Hne].
      * intros _. lia.
      * rewrite lookup_insert_ne by done. intros Hw'. apply Hfresh in Hw'. lia.
    + intros k w' Hk. cbn.
      destruct (decide ((ty, o) = k)) as [<-|Hne]; [congruence|].
      by rewrite lookup_insert_ne.
    + intros w' info Hw'. cbn.
      destruct (decide (next_wrapper reg = w')) as [<-|Hne]; [congruence|].
      by rewrite lookup_insert_ne.
    + eexists _, _. split; [done|]. cbn.
      by rewrite !lookup_insert_eq.
Qed.

Lemma unwrap_ref_extends reg reg' w info :
  registry_extends reg reg' → wrappers reg !! w = Some info →
  unwrap_ref reg' (Wrapped w) = Real (w_object info).
Proof. intros [_ H] Hw. cbn. by rewrite (H _ _ Hw). Qed.

(** Unwrapping what [Wrap] returns gives the real reference back. *)
Lemma unwrap_Wrap riid o reg :
  registry_ok reg →
  unwrap_ref (Wrap riid o reg).2 (Wrap riid o reg).1 = Real o.
Proof.
  intros Hok. destruct (Wrap_spec riid o reg Hok) as (_ & _ & H).
  destruct (interface_type riid) as [ty|].
  - destruct H as (w & info & -> & _ & Hw & <-). cbn. by rewrite Hw.
  - by rewrite H.
Qed.

Lemma wrap_ref_spec iid r reg :
  registry_ok reg →
  registry_ok (wrap_ref iid r reg).2
  ∧ registry_extends reg (wrap_ref iid r reg).2.
Proof.
  intros Hok. destruct r; cbn; try (split; [done|apply registry_extends_refl]).
  destruct (Wrap_spec iid object reg Hok) as (? & ? & _). done.
Qed.

(** *** Wrapping the outputs *)

Lemma field_ind' (P : field → Prop) :
  (∀ z, P (FVal z)) →
  (∀ iid r, P (FObj iid r)) →
  (∀ fs, Forall P fs → P (FStruct fs)) →
  ∀ f, P f.
Proof.
  intros Hv Ho Hs. fix IH 1. intros [z|iid r|fs]; [apply Hv|apply Ho|].
  apply Hs. induction fs as [|f fs IHfs]; constructor; [apply IH|exact IHfs].
Qed.

Lemma wrap_field_struct fs reg :
  wrap_field (FStruct fs) reg =
  let '(fs', reg') := wrap_fields fs reg in (FStruct fs', reg').
Proof.
  cbn [wrap_field].
  enough (∀ fs reg,
    (fix wrap_fields (fs : list field) (reg : Registry)
       : list field * Registry :=
       match fs with
       | [] => ([], reg)
       | f :: fs' =>
           let '(f', reg1) := wrap_field f reg in
           let '(fs'', reg2) := wrap_fields fs' reg1 in
           (f' :: fs'', reg2)
       end) fs reg = wrap_fields fs reg) as H by (by rewrite H).
  clear. intros fs. induction fs as [|f fs IH]; intros reg; [done|].
  cbn [wrap_fields]. destruct (wrap_field f reg) as [f' reg1].
  by rewrite IH.
Qed.

Lemma wrap_field_spec f :
  ∀ reg, registry_ok reg →
    registry_ok (wrap_field f reg).2
    ∧ registry_extends reg (wrap_field f reg).2.
Proof.
  induction f as [z|iid r|fs IH] using field_ind'; intros reg Hok.
  - split; [done|apply registry_extends_refl].
  - cbn [wrap_field].
    pose proof (wrap_ref_spec iid r reg Hok) as H.
    by destruct (wrap_ref iid r reg).
  - rewrite wrap_field_struct.
    assert (registry_ok (wrap_fields fs reg).2
            ∧ registry_extends reg (wrap_fields fs reg).2) as H.
    { revert reg Hok. induction IH as [|f fs Hf _ IHfs]; intros reg Hok.
      - split; [done|apply registry_extends_refl].
      - cbn [wrap_fields]. destruct (Hf reg Hok) as [Hok1 Hext1].
        destruct (wrap_field f reg) as [f' reg1]. cbn [snd] in *.
        destruct (IHfs reg1 Hok1) as [Hok2 Hext2].
        destruct (wrap_fields fs reg1) as [fs' reg2]. cbn [snd] in *.
        split; [done|by eapply registry_extends_trans]. }
    by destruct (wrap_fields fs reg).
Qed.

Lemma wraps_only_refl s : wraps_only s s.
Proof. repeat split; try done. exists []. by rewrite app_nil_r. Qed.

Lemma wraps_only_trans s1 s2 s3 :
  wraps_only s1 s2 → wraps_only s2 s3 → wraps_only s1 s3.
Proof.
  intros (A1 & A2 & A3 & A4 & e1 & A5 & A6) (B1 & B2 & B3 & B4 & e2 & B5 & B6).
  repeat split; try congruence. exists (e1 ++ e2).
  split; [by rewrite B5, A5, app_assoc|by apply Forall_app].
Qed.

(** [WrapObject]: a frame, a consistent and larger registry, every other
    address untouched, and the slot itself holding what [Wrap] returned
    when it held a reference to a real object. *)
Lemma WrapObject_spec riid p s :
  let s' := (WrapObject riid p s).2 in
  wraps_only s s'
  ∧ (registry_ok (registry s) →
     registry_ok (registry s') ∧ registry_extends (registry s) (registry s'))
  ∧ (∀ a, p ≠ PApp a → app_memory s' !! a = app_memory s !! a)
  ∧ (∀ a iid o rest,
       p = PApp a → app_memory s !! a = Some (FObj iid (Real o) :: rest) →
       app_memory s' !! a =
         Some (FObj iid (Wrap riid o (registry s)).1 :: rest)
       ∧ registry s' = (Wrap riid o (registry s)).2).
Proof.
  unfold WrapObject, bind, emit. cbn [fst snd].
  assert (wraps_only s
            {| call_scope_ := call_scope_ s;
               capture_enabled := capture_enabled s; trace := trace s;
               registry := registry s; app_memory := app_memory s;
               unwrap_memory_ := unwrap_memory_ s;
               log := log s ++ [EvWrap riid p] |}) as Hemit.
  { repeat split; try done. exists [EvWrap riid p]. split; [done|].
    by constructor. }
  destruct p as [|a|t i]; cbn [app_memory registry];
    try (split; [done|]; split; [intros; split; [done|
           apply registry_extends_refl]|]; split; [done|by intros]).
  destruct (app_memory s !! a) as [[|[z|iid [|o|w] |fs] rest]|] eqn:Ha;
    try (split; [done|]; split; [intros; split; [done|
           apply registry_extends_refl]|]; split; [done|];
         intros a' iid' o' rest' [= <-]; congruence).
  destruct (Wrap riid o (registry s)) as [r reg] eqn:HW. cbn.
  split; [done|]. split.
  { intros Hok. pose proof (Wrap_spec riid o (registry s) Hok) as H.
    rewrite HW in H. by destruct H as (? & ? & _). }
  split.
  - intros a' Hne. rewrite lookup_insert_ne; [done|]. congruence.
  - intros a' iid' o' rest' [= <-]. rewrite Ha. intros [= <- <- <-].
    by rewrite HW, lookup_insert_eq.
Qed.

Lemma WrapStruct_spec p s :
  let s' := (WrapStruct p s).2 in
  wraps_only s s'
  ∧ (registry_ok (registry s) →
     registry_ok (registry s') ∧ registry_extends (registry s) (registry s'))
  ∧ (∀ a, p ≠ PApp a → app_memory s' !! a = app_memory s !! a).
Proof.
  unfold WrapStruct, bind, emit. cbn [fst snd].
  assert (wraps_only s
            {| call_scope_ := call_scope_ s;
               capture_enabled := capture_enabled s; trace := trace s;
               registry := registry s; app_memory := app_memory s;
               unwrap_memory_ := unwrap_memory_ s;
               log := log s ++ [EvWrap "struct" p] |}) as Hemit.
  { repeat split; try done. exists [EvWrap "struct" p]. split; [done|].
    by constructor. }
  destruct p as [|a|t i]; cbn [app_memory registry];
    try (split; [done|]; split; [intros; split; [done|
           apply registry_extends_refl]|done]).
  destruct (app_memory s !! a) as [cells|] eqn:Ha;
    [|split; [done|]; split; [intros; split; [done|
           apply registry_extends_refl]|done]].
  pose proof (wrap_field_spec (FStruct cells) (registry s)) as Hf.
  destruct (wrap_field (FStruct cells) (registry s)) as [f reg]. cbn.
  split; [done|]. split; [exact Hf|].
  intros a' Hne. rewrite lookup_insert_ne; [done|]. congruence.
Qed.

Lemma wrap_output_spec args w s :
  let s' := (wrap_output args w s).2 in
  wraps_only s s'
  ∧ (registry_ok (registry s) →
     registry_ok (registry s') ∧ registry_extends (registry s) (registry s'))
  ∧ (∀ a, wrap_slot args w ≠ PApp a → app_memory s' !! a = app_memory s !! a).
Proof.
  destruct w as [src n|n]; cbn [wrap_output wrap_slot].
  - destruct (WrapObject_spec (iid_of args src) (arg_ptr args n) s)
      as (? & ? & ? & _). done.
  - apply WrapStruct_spec.
Qed.

Lemma wrap_outputs_cons args w ws s :
  (wrap_outputs args (w :: ws) s).2 =
  (wrap_outputs args ws (wrap_output args w s).2).2.
Proof.
  destruct ws as [|w' ws]; cbn [wrap_outputs]; unfold bind, ret;
    by destruct (wrap_output args w s).
Qed.

Lemma wrap_outputs_spec args ws s :
  let s' := (wrap_outputs args ws s).2 in
  wraps_only s s'
  ∧ (registry_ok (registry s) →
     registry_ok (registry s') ∧ registry_extends (registry s) (registry s'))
  ∧ (∀ a, PApp a ∉ map (wrap_slot args) ws →
       app_memory s' !! a = app_memory s !! a).
Proof.
  revert s. induction ws as [|w ws IH]; intros s.
  - cbn. split; [apply wraps_only_refl|].
    split; [intros; split; [done|apply registry_extends_refl]|done].
  - cbn zeta. rewrite wrap_outputs_cons.
    destruct (wrap_output_spec args w s) as (Hw1 & Hreg1 & Hmem1).
    destruct (IH (wrap_output args w s).2) as (Hw2 & Hreg2 & Hmem2).
    split; [by eapply wraps_only_trans|]. split.
    + intros Hok. destruct (Hreg1 Hok) as [Hok1 Hext1].
      destruct (Hreg2 Hok1) as [Hok2 Hext2].
      split; [done|by eapply registry_extends_trans].
    + intros a Ha. cbn [map] in Ha. apply not_elem_of_cons in Ha as [Ha1 Ha2].
      rewrite Hmem2 by done. apply Hmem1. congruence.
Qed.

(** After the outputs are wrapped, a slot that held a reference to a real
    object, and that no other output of the call shares, holds the wrapper
    filed under that object when the wrapper class of the interface keeps
    an [object_map_], and the reference itself otherwise. *)
Lemma wrap_outputs_slot args ws s src n a iid o rest :
  NoDup (map (wrap_slot args) ws) →
  WrapObj src n ∈ ws →
  arg_ptr args n = PApp a →
  app_memory s !! a = Some (FObj iid (Real o) :: rest) →
  registry_ok (registry s) →
  let s' := (wrap_outputs args ws s).2 in
  match interface_type (iid_of args src) with
  | Some ty =>
      ∃ w info,
        app_memory s' !! a = Some (FObj iid (Wrapped w) :: rest)
        ∧ object_map_ (registry s') !! (ty, o) = Some w
        ∧ wrappers (registry s') !! w = Some info
        ∧ w_object info = o
  | None => app_memory s' !! a = Some (FObj iid (Real o) :: rest)
  end.
Proof.
  revert s. induction ws as [|w ws IH]; intros s Hnd Hin Hptr Hmem Hok;
    [by apply elem_of_nil in Hin|].
  cbn zeta. rewrite wrap_outputs_cons.
  cbn [map] in Hnd. apply NoDup_cons in Hnd as [Hhead Hnd].
  apply elem_of_cons in Hin as [<-|Hin].
  - (* the slot is wrapped first; the other outputs leave it alone *)
    cbn [wrap_output wrap_slot] in *. rewrite Hptr in *.
    destruct (WrapObject_spec (iid_of args src) (PApp a) s)
      as (_ & Hreg & _ & Hslot).
    destruct (Hslot a iid o rest eq_refl Hmem) as [Hmem1 Hreg1].
    destruct (Hreg Hok) as [Hok1 _].
    destruct (wrap_outputs_spec args ws (WrapObject (iid_of args src) (PApp a) s).2)
      as (_ & Hreg2 & Hmem2).
    destruct (Hreg2 Hok1) as [_ [Hext_map Hext_w]].
    rewrite Hmem2 by done. rewrite Hmem1.
    pose proof (Wrap_spec (iid_of args src) o (registry s) Hok) as (_ & _ & HW).
    destruct (interface_type (iid_of args src)) as [ty|].
    + destruct HW as (w & info & -> & Hm & Hw & Ho). exists w, info.
      rewrite <- Hreg1 in Hm, Hw. auto.
    + by rewrite HW.
  - (* another output is wrapped first *)
    assert (wrap_slot args w ≠ PApp a) as Hne.
    { intros Heq. apply Hhead. rewrite Heq.
      apply list_elem_of_In, in_map_iff. exists (WrapObj src n).
      split; [done|by apply list_elem_of_In]. }
    destruct (wrap_output_spec args w s) as (_ & Hreg1 & Hmem1).
    destruct (Hreg1 Hok) as [Hok1 _].
    apply IH; try done. by rewrite Hmem1.
Qed.

Lemma wrap_on_success_state ep r args s :
  (wrap_on_success ep r args s).2 =
  if SUCCEEDED r then (wrap_outputs args (ep_wraps ep) s).2 else s.
Proof.
  unfold wrap_on_success, when.
  destruct (ep_wraps ep) as [|w ws]; destruct (SUCCEEDED r); done.
Qed.

Lemma wrap_on_success_spec ep r args s :
  let s' := (wrap_on_success ep r args s).2 in
  wraps_only s s'
  ∧ (registry_ok (registry s) →
     registry_ok (registry s') ∧ registry_extends (registry s) (registry s'))
  ∧ (SUCCEEDED r = false → s' = s).
Proof.
  cbn zeta. rewrite wrap_on_success_state. destruct (SUCCEEDED r).
  - destruct (wrap_outputs_spec args (ep_wraps ep) s) as (? & ? & _). done.
  - split; [apply wraps_only_refl|].
    split; [intros; split; [done|apply registry_extends_refl]|done].
Qed.

(** *** Executions *)

Lemma Call_ind' (P : Call → Prop) :
  (∀ ep this args outcome callbacks,
     Forall P callbacks → P (MkCall ep this args outcome callbacks)) →
  ∀ c, P c.
Proof.
  intros H. fix IH 1. intros [ep this args outcome callbacks]. apply H.
  induction callbacks as [|c cs IHcs]; constructor; [apply IH|exact IHcs].
Qed.

Lemma run_unfold t ep this args outcome callbacks :
  run t (MkCall ep this args outcome callbacks) =
  wrapper_body ep t (driver outcome (run_all t callbacks)) this args.
Proof.
  cbn [run]. do 2 f_equal.
  induction callbacks as [|c cs IH]; [done|].
  cbn [run_all]. by rewrite <- IH.
Qed.

Lemma tree_writes_unfold ep this args outcome callbacks :
  tree_writes (MkCall ep this args outcome callbacks) =
  tree_writes_all callbacks ++ out_writes outcome.
Proof. reflexivity. Qed.

Lemma calls_unfold ep this args outcome callbacks :
  calls (MkCall ep this args outcome callbacks) = S (calls_all callbacks).
Proof. reflexivity. Qed.

Lemma driver_eq outcome callbacks target id args s :
  driver outcome callbacks target id args s =
  let s1 := (emit (EvForward target id (map (view_arg s) args)) s).2 in
  (out_result outcome,
   set_app_memory (apply_writes (out_writes outcome)) (callbacks s1).2).
Proof.
  unfold driver, bind, write_outputs, ret. cbn [emit fst snd].
  by destruct (callbacks _).
Qed.

Lemma apply_writes_app ws1 ws2 m :
  apply_writes (ws1 ++ ws2) m = apply_writes ws2 (apply_writes ws1 m).
Proof. unfold apply_writes. by rewrite foldl_app. Qed.

Lemma count_events_app P evs1 evs2 :
  count_events P (evs1 ++ evs2) =
  (count_events P evs1 + count_events P evs2)%nat.
Proof. unfold count_events. by rewrite List.filter_app, length_app. Qed.

Lemma passthrough_mono t d d' e :
  d' ≤ d → passthrough t d e → passthrough t d' e.
Proof.
  intros Hle. destruct e as [t' x|t' x| | |[]| | |]; cbn; try done;
    intros [-> ?]; split; [done|lia| done|lia].
Qed.

Lemma reentrant_effect_refl t s : reentrant_effect t s [] 0 s.
Proof.
  repeat split; try done. exists []. rewrite app_nil_r. repeat split.
  constructor.
Qed.

Lemma reentrant_effect_trans t s1 s2 s3 ws1 ws2 n1 n2 :
  reentrant_effect t s1 ws1 n1 s2 → reentrant_effect t s2 ws2 n2 s3 →
  reentrant_effect t s1 (ws1 ++ ws2) (n1 + n2) s3.
Proof.
  intros ((A1 & A2 & A3 & A4) & As & Am & e1 & Al & Af & Ai & Ad)
         ((B1 & B2 & B3 & B4) & Bs & Bm & e2 & Bl & Bf & Bi & Bd).
  split; [repeat split; congruence|].
  split; [intros t'; by rewrite Bs, As|].
  split; [by rewrite Bm, Am, apply_writes_app|].
  exists (e1 ++ e2). split; [by rewrite Bl, Al, app_assoc|].
  split; [|by rewrite !count_events_app, Ai, Ad, Bi, Bd].
  apply Forall_app. split; [done|]. by rewrite As in Bf.
Qed.

Lemma real_target_is_real this s : ∃ o, (real_target this s).1 = RealCall o.
Proof. destruct this; cbn; eauto. Qed.

(** A reentrant call whose callee calls back through reentrant calls is
    itself a reentrant call. *)
Lemma wrapper_body_reentrant_effect ep t outcome callbacks ws n this args s :
  (∀ s1, 0 < call_scope t s1 → reentrant_effect t s1 ws n (callbacks s1).2) →
  0 < call_scope t s →
  (wrapper_body ep t (driver outcome callbacks) this args s).1
    = out_result outcome
  ∧ reentrant_effect t s (ws ++ out_writes outcome) (S n)
      (wrapper_body ep t (driver outcome callbacks) this args s).2.
Proof.
  intros Hcb Hpos. rewrite wrapper_body_reentrant by lia.
  rewrite driver_eq. cbn zeta. cbn [fst snd]. split; [done|].
  destruct (real_target_is_real this s) as [o ->].
  remember (emit (EvForward (RealCall o) (ep_id ep)
                    (map (view_arg (IncrementCallScope t s).2) args))
                 (IncrementCallScope t s).2).2 as s1 eqn:Hs1.
  assert (call_scope t s1 = call_scope t s + 1) as Hd1.
  { subst s1. unfold call_scope. cbn. by rewrite lookup_insert_eq. }
  assert (∀ t', t' ≠ t → call_scope t' s1 = call_scope t' s) as Hother.
  { intros t' Hne. subst s1. unfold call_scope. cbn.
    by rewrite lookup_insert_ne. }
  assert (quiet s s1 ∧ app_memory s1 = app_memory s
          ∧ log s1 = log s ++ [EvIncrementCallScope t (call_scope t s + 1);
                               EvForward (RealCall o) (ep_id ep)
                                 (map (view_arg (IncrementCallScope t s).2)
                                    args)])
    as ((P1 & P2 & P3 & P4) & Pm & Pl).
  { subst s1. cbn. repeat split. by rewrite <- app_assoc. }
  clear Hs1.
  destruct (Hcb s1 ltac:(lia))
    as ((Q1 & Q2 & Q3 & Q4) & Hs & Hm & evs & Hl & Hf & Hi & Hd).
  unfold reentrant_effect, quiet.
  cbv [DecrementCallScope bind emit ret set_call_scope set_app_memory].
  cbn [fst snd capture_enabled trace registry unwrap_memory_ app_memory log
       call_scope_].
  rewrite Q1, Q2, Q3, Q4, Hm, Hl, P1, P2, P3, P4, Pm, Pl.
  split; [done|]. split; [|split].
  - intros t'. unfold call_scope in *. cbn [call_scope_].
    destruct (decide (t' = t)) as [->|Hne].
    + rewrite lookup_insert_eq. cbn. rewrite Hs, Hd1. lia.
    + rewrite lookup_insert_ne by done. rewrite Hs. by apply Hother.
  - by rewrite apply_writes_app.
  - exists ([EvIncrementCallScope t (call_scope t s + 1);
             EvForward (RealCall o) (ep_id ep)
               (map (view_arg (IncrementCallScope t s).2) args)]
            ++ evs
            ++ [EvDecrementCallScope t (call_scope t (callbacks s1).2 - 1)]).
    split; [by rewrite <- !app_assoc|].
    split.
    + rewrite Hs, Hd1. repeat (apply Forall_app; split).
      * constructor; [cbn; split; [done|lia]|].
        constructor; [done|constructor].
      * eapply Forall_impl; [exact Hf|]. intros e. rewrite Hd1.
        apply passthrough_mono. lia.
      * constructor; [cbn; split; [done|lia]|constructor].
    + rewrite !count_events_app, Hi, Hd. cbn. split; lia.
Qed.

Lemma run_all_reentrant cs :
  Forall (λ c, ∀ t s, 0 < call_scope t s →
                (run t c s).1 = result_of c
                ∧ reentrant_effect t s (tree_writes c) (calls c) (run t c s).2)
         cs →
  ∀ t s, 0 < call_scope t s →
    reentrant_effect t s (tree_writes_all cs) (calls_all cs) (run_all t cs s).2.
Proof.
  induction 1 as [|c cs Hc _ IH]; intros t s Hpos.
  - apply reentrant_effect_refl.
  - cbn [run_all tree_writes_all calls_all]. unfold bind.
    destruct (Hc t s Hpos) as [_ He].
    destruct (run t c s) as [r s1]. cbn [snd] in He.
    eapply reentrant_effect_trans; [exact He|]. apply IH.
    destruct He as (_ & Hs & _). rewrite Hs. done.
Qed.

(** Every execution started at a depth of at least one is a reentrant
    call, whatever its callbacks. *)
Lemma run_reentrant c :
  ∀ t s, 0 < call_scope t s →
    (run t c s).1 = result_of c
    ∧ reentrant_effect t s (tree_writes c) (calls c) (run t c s).2.
Proof.
  induction c as [ep this args outcome callbacks IH] using Call_ind'.
  intros t s Hpos. rewrite run_unfold, tree_writes_unfold, calls_unfold.
  apply wrapper_body_reentrant_effect; [|done].
  intros s1 Hpos1. by apply run_all_reentrant.
Qed.

(** The stages of an outermost call: the arguments are unwrapped in the
    state [enter] leaves, giving [args'] and [s2]; the callee is invoked
    with them and returns in [s3], having been seen with [args'], called
    back only through reentrant calls and written its outputs; the outputs
    are wrapped, giving [s4]; the call returns in [leave ... s4]. *)
Lemma run_outermost t ep this args outcome callbacks s :
  call_scope t s = 0 →
  ∃ args' s2 evs s3 s4,
    run t (MkCall ep this args outcome callbacks) s =
      (out_result outcome, leave ep t this args (out_result outcome) s4)
    ∧ unwrap_args t args (ep_params ep) args (enter ep t this args s)
        = (args', s2)
    ∧ quiet s2 s3
    ∧ (∀ t', call_scope t' s3 = call_scope t' s2)
    ∧ app_memory s3 =
        apply_writes (tree_writes (MkCall ep this args outcome callbacks))
          (app_memory s2)
    ∧ log s3 = log s2 ++ EvForward (outer_target ep this s).1 (ep_id ep)
                           (map (view_arg s2) args') :: evs
    ∧ Forall (passthrough t 1) evs
    ∧ count_events is_increment evs = calls_all callbacks
    ∧ count_events is_decrement evs = calls_all callbacks
    ∧ s4 = (wrap_on_success ep (out_result outcome) args s3).2.
Proof.
  intros Hscope. rewrite run_unfold, wrapper_body_outermost by done.
  cbn zeta.
  pose proof (enter_spec ep t this args s) as (_ & _ & _ & _ & Hs1 & _).
  pose proof (unwrap_args_spec t args (ep_params ep) args
                (enter ep t this args s)) as [Hg _].
  destruct (unwrap_args t args (ep_params ep) args (enter ep t this args s))
    as [args' s2]. cbn [fst snd] in Hg.
  rewrite driver_eq. cbn zeta.
  remember (emit (EvForward (outer_target ep this s).1 (ep_id ep)
                    (map (view_arg s2) args')) s2).2 as s2' eqn:Hs2'.
  assert (call_scope t s2' = 1) as Hd.
  { destruct Hg as (_ & _ & _ & _ & Hc & _).
    subst s2'. unfold call_scope in *. cbn. rewrite Hc.
    specialize (Hs1 t). rewrite decide_True in Hs1 by done.
    rewrite Hs1, Hscope. done. }
  assert (quiet s2 s2' ∧ app_memory s2' = app_memory s2
          ∧ call_scope_ s2' = call_scope_ s2
          ∧ log s2' = log s2 ++ [EvForward (outer_target ep this s).1 (ep_id ep)
                                   (map (view_arg s2) args')])
    as ((P1 & P2 & P3 & P4) & Pm & Pc & Pl).
  { subst s2'. cbn. repeat split. }
  clear Hs2'.
  destruct (run_all_reentrant callbacks) with (t := t) (s := s2')
    as ((Q1 & Q2 & Q3 & Q4) & Qs & Qm & evs & Ql & Qf & Qi & Qd); [|lia|].
  { apply Forall_forall. intros c _. apply run_reentrant. }
  destruct (wrap_on_success ep (out_result outcome) args _) as [[] s4] eqn:Hw.
  exists args', s2, evs,
    (set_app_memory (apply_writes (out_writes outcome))
       (run_all t callbacks s2').2), s4.
  split; [done|]. split; [done|].
  split; [unfold quiet; cbn; repeat split; congruence|].
  split.
  { intros t'. unfold call_scope in *. cbn. rewrite Qs. by rewrite Pc. }
  split; [rewrite tree_writes_unfold, apply_writes_app; cbn;
          by rewrite Qm, Pm|].
  split; [cbn; by rewrite Ql, Pl, <- app_assoc|].
  split; [by rewrite Hd in Qf|]. split; [done|]. split; [done|].
  by rewrite Hw.
Qed.

Lemma app_eq_self {A : Type} (l evs : list A) : l = l ++ evs → evs = [].
Proof.
  intros H. apply (app_inv_head l). by rewrite app_nil_r.
Qed.

(** The log of an outermost call; the callee is seen with the unwrapped
    arguments, the hooks and the encoder with the arguments of the
    application. *)
Lemma run_outermost_log t ep this args outcome callbacks s :
  call_scope t s = 0 →
  let unwrapped :=
    unwrap_args t args (ep_params ep) args (enter ep t this args s) in
  ∃ evs_cb evs_wrap,
    log (run t (MkCall ep this args outcome callbacks) s).2 =
      log s ++ outermost_log ep t this args (outer_target ep this s).1
                 (map (view_arg unwrapped.2) unwrapped.1)
                 (out_result outcome) evs_cb evs_wrap
    ∧ Forall (passthrough t 1) evs_cb
    ∧ count_events is_increment evs_cb = calls_all callbacks
    ∧ count_events is_decrement evs_cb = calls_all callbacks
    ∧ Forall (λ e, is_wrap_event e = true) evs_wrap
    ∧ (SUCCEEDED (out_result outcome) = false → evs_wrap = []).
Proof.
  intros Hscope.
  destruct (run_outermost t ep this args outcome callbacks s Hscope)
    as (args' & s2 & evs & s3 & s4 & -> & Hun & _ & Hsc & _ & Hl3 & Hf & Hi
        & Hd & ->).
  pose proof (enter_spec ep t this args s) as (_ & _ & _ & _ & Hs1 & Hl1 & _).
  pose proof (unwrap_args_spec t args (ep_params ep) args
                (enter ep t this args s)) as [Hg _].
  cbn zeta. rewrite Hun in Hg |- *. cbn [fst snd] in Hg |- *.
  destruct Hg as (_ & _ & _ & _ & Hc2 & Hl2 & _).
  pose proof (wrap_on_success_spec ep (out_result outcome) args s3)
    as ((_ & _ & Hc4 & _ & evs_wrap & Hl4 & Hfw) & _ & Hfail).
  pose proof (leave_spec ep t this args (out_result outcome)
                (wrap_on_success ep (out_result outcome) args s3).2)
    as (_ & _ & _ & _ & _ & _ & Hl5).
  assert (call_scope t (wrap_on_success ep (out_result outcome) args s3).2 = 1)
    as Hdepth.
  { unfold call_scope in *. rewrite Hc4. rewrite Hsc, Hc2.
    specialize (Hs1 t). rewrite decide_True in Hs1 by done.
    rewrite Hs1, Hscope. done. }
  exists evs, evs_wrap.
  split; [|repeat split; try done].
  - rewrite Hl5, Hl4, Hl3, Hl2, Hl1, Hdepth, Hscope.
    unfold outermost_log. change (0 + 1) with 1. change (1 - 1) with 0.
    rewrite <- !app_assoc. cbn [app]. rewrite <- ?app_assoc. done.
  - intros Hr. rewrite (Hfail Hr) in Hl4. by apply app_eq_self in Hl4.
Qed.

(** The state an outermost call returns in: capture and the scratch
    memory of other threads as they were, the counter of every thread
    restored, one record appended to the trace when capture is enabled,
    the registry consistent and larger, and unchanged when the call
    failed. *)
Lemma run_outermost_state t ep this args outcome callbacks s :
  call_scope t s = 0 →
  let s' := (run t (MkCall ep this args outcome callbacks) s).2 in
  (run t (MkCall ep this args outcome callbacks) s).1 = out_result outcome
  ∧ capture_enabled s' = capture_enabled s
  ∧ (∀ t', call_scope t' s' = call_scope t' s)
  ∧ (∃ record,
       trace s' = trace s ++ (if capture_enabled s then [record] else [])
       ∧ tr_call record = ep_id ep
       ∧ tr_result record = reported ep (out_result outcome))
  ∧ (registry_ok (registry s) →
     registry_ok (registry s') ∧ registry_extends (registry s) (registry s'))
  ∧ (SUCCEEDED (out_result outcome) = false →
     registry s' = registry s
     ∧ app_memory s' =
         apply_writes (tree_writes (MkCall ep this args outcome callbacks))
           (app_memory s)).
Proof.
  intros Hscope.
  destruct (run_outermost t ep this args outcome callbacks s Hscope)
    as (args' & s2 & evs & s3 & s4 & -> & Hun & (Q1 & Q2 & Q3 & Q4) & Hsc
        & Hm3 & _ & _ & _ & _ & ->).
  pose proof (enter_spec ep t this args s)
    as (E1 & E2 & E3 & E4 & Es & _ & _).
  pose proof (unwrap_args_spec t args (ep_params ep) args
                (enter ep t this args s)) as [Hg _].
  rewrite Hun in Hg. cbn [snd] in Hg.
  destruct Hg as (G1 & G2 & G3 & G4 & G5 & _).
  pose proof (wrap_on_success_spec ep (out_result outcome) args s3)
    as ((W1 & W2 & W3 & _) & Wreg & Wfail).
  pose proof (leave_spec ep t this args (out_result outcome)
                (wrap_on_success ep (out_result outcome) args s3).2)
    as (L1 & L2 & L3 & _ & Ls & Lt & _).
  cbn zeta. cbn [fst snd].
  split; [done|]. split; [congruence|]. split.
  { intros t'. rewrite Ls. unfold call_scope in *. rewrite W3.
    rewrite !Hsc, !G5.
    pose proof (Es t) as Et. rewrite decide_True in Et by done.
    pose proof (Es t') as Et'. rewrite Et.
    destruct (decide (t' = t)) as [->|Hne]; [lia|done]. }
  split.
  { eexists. rewrite Lt, W1, W2, Q1, Q2, G1, G2, E1, E2. split; [done|].
    by split. }
  split.
  { intros Hok. rewrite L2. rewrite <- E3, <- G3, <- Q3 in Hok |- *.
    by apply Wreg. }
  intros Hr. rewrite L2, L3, (Wfail Hr). split; [congruence|].
  by rewrite Hm3, G4, E4.
Qed.


(** A reentrant call starts by incrementing the counter and ends by
    decrementing it to the value it had. *)
Lemma run_reentrant_brackets t c s :
  0 < call_scope t s →
  ∃ mid, log (run t c s).2 =
    log s ++ EvIncrementCallScope t (call_scope t s + 1) :: mid
          ++ [EvDecrementCallScope t (call_scope t s)].
Proof.
  destruct c as [ep this args outcome callbacks]. intros Hpos.
  rewrite run_unfold, wrapper_body_reentrant by lia.
  rewrite driver_eq. cbn zeta. cbn [fst snd].
  remember (emit (EvForward (real_target this s).1 (ep_id ep)
                    (map (view_arg (IncrementCallScope t s).2) args))
                 (IncrementCallScope t s).2).2 as s1 eqn:Hs1.
  assert (call_scope t s1 = call_scope t s + 1) as Hd1.
  { subst s1. unfold call_scope. cbn. by rewrite lookup_insert_eq. }
  assert (log s1 = log s ++ [EvIncrementCallScope t (call_scope t s + 1);
                             EvForward (real_target this s).1 (ep_id ep)
                               (map (view_arg (IncrementCallScope t s).2)
                                  args)]) as Pl.
  { subst s1. cbn. by rewrite <- app_assoc. }
  clear Hs1.
  destruct (run_all_reentrant callbacks) with (t := t) (s := s1)
    as (_ & Qs & _ & evs & Ql & _); [|lia|].
  { apply Forall_forall. intros c _. apply run_reentrant. }
  exists (EvForward (real_target this s).1 (ep_id ep)
            (map (view_arg (IncrementCallScope t s).2) args) :: evs).
  cbv [DecrementCallScope bind emit ret set_call_scope set_app_memory].
  cbn [fst snd log]. unfold call_scope in *. cbn [call_scope_].
  rewrite Qs, Hd1, Ql, Pl. rewrite <- !app_assoc. cbn [app].
  by replace (default 0 (call_scope_ s !! t) + 1 - 1)
    with (default 0 (call_scope_ s !! t)) by lia.
Qed.

Lemma passthrough_not_hook t d e : passthrough t d e → is_hook_event e = false.
Proof. by destruct e as [| | | |[]| | |]. Qed.

Lemma filter_none {A : Type} (P : A → bool) (l : list A) :
  Forall (λ x, P x = false) l → List.filter P l = [].
Proof.
  induction 1 as [|x l Hx _ IH]; [done|]. cbn. by rewrite Hx.
Qed.

Lemma filter_all {A : Type} (P : A → bool) (l : list A) :
  Forall (λ x, P x = true) l → List.filter P l = l.
Proof.
  induction 1 as [|x l Hx _ IH]; [done|]. cbn. by rewrite Hx, IH.
Qed.

Lemma needs_memory_lookup modes i mode :
  modes !! i = Some mode →
  (match mode with Plain | Object => False | _ => True end) →
  needs_memory modes = true.
Proof.
  unfold needs_memory.
  revert i. induction modes as [|m modes IH]; intros [|i]; cbn [existsb];
    try done.
  - intros [= ->]. by destruct mode.
  - intros Hi Hm. rewrite (IH i Hi Hm). by destruct m.
Qed.

(** Without an array or a structure among the parameters, unwrapping the
    arguments leaves the state as it is. *)
Lemma unwrap_args_no_memory t args modes actuals s :
  needs_memory modes = false → (unwrap_args t args modes actuals s).2 = s.
Proof.
  unfold needs_memory. revert actuals s.
  induction modes as [|mode modes IH]; intros actuals s H; [done|].
  destruct actuals as [|a actuals]; [done|].
  cbn [existsb] in H. apply orb_false_iff in H as [Hm Hrest].
  rewrite unwrap_args_cons.
  assert ((unwrap_arg t args mode a s).2 = s) as Ha.
  { by destruct mode, a. }
  destruct (unwrap_arg t args mode a s) as [a' s1]. cbn [snd] in Ha. subst s1.
  specialize (IH actuals s Hrest).
  by destruct (unwrap_args t args modes actuals s).
Qed.

(** *** Wrapping outputs that may share a slot *)























End Dx12Facts.

(** ** The properties the design document states *)

Import SettingsLoader SettingsLoaderFacts Dx12Wrappers Dx12Facts.

(** C9.  [LoadLayerSettingsFile] called with a null [settings] pointer
    returns [EINVAL] at once, opening no file and changing nothing.  With a
    map, it opens the file (once) and returns 0 when the file is read to its
    end, and [errno] when the file cannot be opened or a read error occurs
    before the end.  The function always returns. *)
Theorem LoadLayerSettingsFile_status (filename filter : string)
    (settings : option (gmap string string)) (w : World) :
  ∃ result settings' w',
    LoadLayerSettingsFile filename filter settings w
      = Some (result, settings', w')
    ∧ match settings with
      | None => result = EINVAL ∧ settings' = None ∧ w' = w
      | Some m =>
          opened w' = opened w ++ [filename]
          ∧ match files w !! filename with
            | Some (Readable content None) =>
                result = 0 ∧ errno w' = errno w
            | Some (Readable content (Some err)) =>
                result = errno w' ∧ errno w' = err
            | Some (Unreadable err) =>
                result = errno w' ∧ errno w' = err ∧ settings' = Some m
            | None =>
                result = errno w' ∧ errno w' = ENOENT ∧ settings' = Some m
            end
      end.
Proof.
  destruct settings as [m|]; [|by eexists _, _, _].
  destruct (files w !! filename) as [[err|content read_error]|] eqn:Hfile.
  - rewrite (LoadLayerSettingsFile_unreadable _ _ _ _ _ Hfile).
    by eexists _, _, _.
  - rewrite (LoadLayerSettingsFile_readable _ _ _ _ _ _ Hfile).
    destruct (process_lines_total filter (split_lines content).1
                (loop_start m)) as [st' ->].
    cbn [mbind option_bind]. eexists _, _, _. split; [done|].
    split; [done|]. by destruct read_error.
  - rewrite (LoadLayerSettingsFile_missing _ _ _ _ Hfile).
    by eexists _, _, _.
Qed.

(** C10.  For a line the loop of [LoadLayerSettingsFile] handles, the text
    from the first [#] on is dropped; the map gains an entry only if the
    rest has the form [key = value], with a key and a value of at most 511
    characters, and only if the key starts with the filter when there is
    one (a filter with an embedded NUL character is compared as the C
    string before it); the value stored is the value read without at most
    one leading and one trailing quote character.  [RemoveQuotes] is
    undefined on the empty string and defined on every other one; the loop
    only calls it on a non-empty value.  The lines handled are those of the
    file that end in a line feed, in order. *)
Theorem process_line_stores (filter line : string) (st : LoopState) :
  has_char kCommentDelimiter (strip_comment line) = false
  ∧ (strip_comment line = line
     ∨ ∃ rest, line = strip_comment line +:+ String kCommentDelimiter rest)
  ∧ (∃ st', process_line filter line st = Some st'
       ∧ (settings_map st' = settings_map st
          ∨ ∃ key unquoted,
              settings_map st' = <[key := unquoted]> (settings_map st)
              ∧ stored_entry filter (strip_comment line) key unquoted))
  ∧ RemoveQuotes EmptyString = None
  ∧ (∀ source, source ≠ EmptyString → is_Some (RemoveQuotes source))
  ∧ (∀ filename content read_error m w,
       files w !! filename = Some (Readable content read_error) →
       ∃ result st' w',
         LoadLayerSettingsFile filename filter (Some m) w
           = Some (result, Some (settings_map st'), w')
         ∧ process_lines filter (split_lines content).1 (loop_start m)
             = Some st').
Proof.
  destruct (strip_comment_spec line) as [Hno Hprefix].
  split; [done|]. split; [done|].
  split; [apply process_line_cases|]. split; [done|].
  split; [apply RemoveQuotes_defined|].
  intros filename content read_error m w Hfile.
  rewrite (LoadLayerSettingsFile_readable _ _ _ _ _ _ Hfile).
  destruct (process_lines_total filter (split_lines content).1
              (loop_start m)) as [st' ->].
  by eexists _, _, _.
Qed.

(** C1.  For every entry point and every thread, the interception logic
    (pre-call hook, scratch memory and argument unwrapping, output wrapping,
    encoding, post-call hook) runs only when the depth after the increment
    is 1.  At any other depth the wrapper forwards the arguments as they
    are to the real implementation and does nothing else; a call made while
    another intercepted call is running on the thread, callbacks of its own
    included, logs no interception event and leaves the trace, the registry
    and the scratch memory alone.  An outermost call, whatever calls back
    into the layer while it is forwarded, dispatches the hooks of the
    outermost call only and encodes exactly one call, the outermost, which
    is the one record the trace gains (when capture is enabled). *)
Theorem reentrancy_suppression (t : thread) (ep : EntryPoint)
    (this : option address) (args : list arg) :
  (∀ env s, call_scope t s ≠ 0 →
     wrapper_body ep t env this args s =
       let '(r, s2) :=
         env (real_target this s).1 (ep_id ep) args
           (IncrementCallScope t s).2 in
       (r, (DecrementCallScope t s2).2))
  ∧ (∀ outcome callbacks s, 0 < call_scope t s →
       let s' := (run t (MkCall ep this args outcome callbacks) s).2 in
       trace s' = trace s
       ∧ registry s' = registry s
       ∧ unwrap_memory_ s' = unwrap_memory_ s
       ∧ ∃ evs, log s' = log s ++ evs
           ∧ Forall (λ e, is_hook_event e = false) evs)
  ∧ (∀ outcome callbacks s, call_scope t s = 0 →
       let s' := (run t (MkCall ep this args outcome callbacks) s).2 in
       ∃ evs evs_wrap record,
         log s' = log s ++ evs
         ∧ List.filter is_hook_event evs =
             EvPreCall (ep_id ep) this args
             :: (if needs_memory (ep_params ep) then [EvUnwrapMemory t] else [])
             ++ evs_wrap
             ++ [EvEncode (ep_id ep) this
                   (reported ep (out_result outcome)) args;
                 EvPostCall (ep_id ep) this
                   (reported ep (out_result outcome)) args]
         ∧ Forall (λ e, is_wrap_event e = true) evs_wrap
         ∧ List.filter is_encode evs =
             [EvEncode (ep_id ep) this (reported ep (out_result outcome))
                args]
         ∧ trace s' = trace s ++ (if capture_enabled s then [record] else [])
         ∧ tr_call record = ep_id ep).
Proof.
  split; [intros env s; apply wrapper_body_reentrant|]. split.
  - intros outcome callbacks s Hpos.
    destruct (run_reentrant (MkCall ep this args outcome callbacks) t s Hpos)
      as (_ & (_ & Ht & Hr & Hu) & _ & _ & evs & Hl & Hf & _).
    cbn zeta. repeat split; try done. exists evs. split; [done|].
    eapply Forall_impl; [exact Hf|]. intros e. apply passthrough_not_hook.
  - intros outcome callbacks s Hscope.
    destruct (run_outermost_log t ep this args outcome callbacks s Hscope)
      as (evs_cb & evs_wrap & Hl & Hf & _ & _ & Hw & _).
    destruct (run_outermost_state t ep this args outcome callbacks s Hscope)
      as (_ & _ & _ & (record & Ht & Hc & _) & _).
    assert (Forall (λ e, is_hook_event e = false) evs_cb) as Hcb.
    { eapply Forall_impl; [exact Hf|]. intros e. apply passthrough_not_hook. }
    assert (Forall (λ e, is_encode e = false) evs_cb) as Hcb'.
    { eapply Forall_impl; [exact Hf|].
      intros e. by destruct e as [| | | |[]| | |]. }
    assert (Forall (λ e, is_hook_event e = true) evs_wrap) as Hwh.
    { eapply Forall_impl; [exact Hw|]. intros e. by destruct e. }
    assert (Forall (λ e, is_encode e = false) evs_wrap) as Hwe.
    { eapply Forall_impl; [exact Hw|]. intros e. by destruct e. }
    cbn zeta. eexists _, evs_wrap, record. split; [exact Hl|].
    unfold outermost_log. rewrite !List.filter_app.
    rewrite (filter_none _ _ Hcb), (filter_none _ _ Hcb'),
      (filter_all _ _ Hwh), (filter_none _ _ Hwe).
    split; [by destruct (needs_memory (ep_params ep))|].
    split; [done|]. split; [by destruct (needs_memory (ep_params ep))|].
    by split.
Qed.

(** C2.  When the call an outermost entry point forwards returns a failure
    status, no output is wrapped: the registry (wrappers, capture ids,
    [object_map_] entries) is what it was and neither [WrapObject] nor
    [WrapStruct] is called; the call is still encoded, with the failure
    status, and the record reaches the trace when capture is enabled. *)
Theorem failure_transparency (t : thread) (ep : EntryPoint)
    (this : option address) (args : list arg) (outcome : Outcome)
    (callbacks : list Call) (s : State) :
  call_scope t s = 0 →
  ep_returns ep = true →
  SUCCEEDED (out_result outcome) = false →
  let s' := (run t (MkCall ep this args outcome callbacks) s).2 in
  (run t (MkCall ep this args outcome callbacks) s).1 = out_result outcome
  ∧ registry s' = registry s
  ∧ (∃ evs, log s' = log s ++ evs
       ∧ List.filter is_wrap_event evs = []
       ∧ List.filter is_encode evs =
           [EvEncode (ep_id ep) this (Some (out_result outcome)) args])
  ∧ ∃ record,
      trace s' = trace s ++ (if capture_enabled s then [record] else [])
      ∧ tr_call record = ep_id ep
      ∧ tr_result record = Some (out_result outcome).
Proof.
  intros Hscope Hret Hfail.
  destruct (run_outermost_log t ep this args outcome callbacks s Hscope)
    as (evs_cb & evs_wrap & Hl & Hf & _ & _ & _ & Hnone).
  destruct (run_outermost_state t ep this args outcome callbacks s Hscope)
    as (Hres & _ & _ & (record & Ht & Hc & Hr) & _ & Hreg).
  rewrite (Hnone Hfail) in Hl. unfold reported in *. rewrite Hret in *.
  assert (Forall (λ e, is_wrap_event e = false) evs_cb) as Hcb.
  { eapply Forall_impl; [exact Hf|].
    intros e. by destruct e as [| | | |[]| | |]. }
  assert (Forall (λ e, is_encode e = false) evs_cb) as Hcb'.
  { eapply Forall_impl; [exact Hf|].
    intros e. by destruct e as [| | | |[]| | |]. }
  cbn zeta. split; [done|]. split; [by apply Hreg|]. split.
  - eexists. split; [exact Hl|]. unfold outermost_log.
    rewrite !List.filter_app, (filter_none _ _ Hcb), (filter_none _ _ Hcb').
    unfold reported. rewrite Hret.
    split; by destruct (needs_memory (ep_params ep)).
  - by exists record.
Qed.


(** The same call, on the function as the file has it: the slot holds the
    real reference afterwards and no wrapper was created. *)
Example D3D12GetDebugInterface_unknown_interface :
  let env :=
    driver {| out_result := S_OK;
              out_writes := [(100%N, [FObj "void" (Real 900%N)])] |}
           (ret ()) in
  let '(result, s') :=
    D3D12GetDebugInterface 0%nat env "ID3D12Debug" (PApp 100%N) initial_state in
  result = S_OK
  ∧ app_memory s' !! 100%N = Some [FObj "void" (Real 900%N)]
  ∧ wrappers (registry s') = ∅
  ∧ interface_type "ID3D12Debug" = None.
Proof. vm_compute. repeat split. Qed.

(** [CreateDXGIFactory] asked for [IDXGIObject], on the function as the
    file has it: the class [IDXGIObject_Wrapper] exists, no class of its
    chain has an [object_map_], and the slot holds the real reference
    afterwards. *)
Example CreateDXGIFactory_interface_without_map :
  let env :=
    driver {| out_result := S_OK;
              out_writes := [(100%N, [FObj "void" (Real 900%N)])] |}
           (ret ()) in
  let '(result, s') :=
    CreateDXGIFactory 0%nat env "IDXGIObject" (PApp 100%N) initial_state in
  result = S_OK
  ∧ app_memory s' !! 100%N = Some [FObj "void" (Real 900%N)]
  ∧ wrappers (registry s') = ∅
  ∧ assoc "IDXGIObject" wrapper_classes = Some ("IUnknown", false)
  ∧ interface_type "IDXGIObject" = None.
Proof. vm_compute. repeat split. Qed.



(** C7.  In a consistent registry, unwrapping the reference [Wrap] returns
    for a real object gives that object back, whatever the interface asked
    for, and goes on doing so in every registry that has kept the
    wrappers, in particular after later calls of [Wrap]; for an interface
    with a wrapper class the reference returned is a wrapper. *)
Theorem unwrap_of_wrap (riid : IID) (o : address) (reg : Registry) :
  registry_ok reg →
  let r := (Wrap riid o reg).1 in
  let reg' := (Wrap riid o reg).2 in
  unwrap_ref reg' r = Real o
  ∧ (∀ s, registry s = reg' → GetWrappedObject r s = (Real o, s))
  ∧ (is_Some (interface_type riid) → ∃ w, r = Wrapped w)
  ∧ (∀ reg'', registry_extends reg' reg'' → unwrap_ref reg'' r = Real o)
  ∧ ∀ riid' o', unwrap_ref (Wrap riid' o' reg').2 r = Real o.
Proof.
  intros Hok. cbn zeta.
  destruct (Wrap_spec riid o reg Hok) as (Hok' & _ & Hw).
  assert (∀ reg'', registry_extends (Wrap riid o reg).2 reg'' →
            unwrap_ref reg'' (Wrap riid o reg).1 = Real o) as Hext.
  { intros reg'' Hx. destruct (interface_type riid) as [ty|].
    - destruct Hw as (w & info & -> & _ & Hi & <-).
      by eapply unwrap_ref_extends.
    - by rewrite Hw. }
  split; [by apply unwrap_Wrap|]. split; [|split; [|split]].
  - intros s Hs. unfold GetWrappedObject. by rewrite Hs, unwrap_Wrap.
  - intros [ty Hty]. rewrite Hty in Hw.
    destruct Hw as (w & _ & -> & _). by exists w.
  - exact Hext.
  - intros riid' o'. apply Hext.
    by destruct (Wrap_spec riid' o' _ Hok') as (_ & ? & _).
Qed.

(** C8.  [UnwrapObjects] given a null array or a count of zero returns null
    and leaves the state, the scratch memory included, as it is; so does
    the unwrapping of any array argument of an entry point.  An outermost
    [QueryResourceResidency] called that way forwards a null array and the
    count it was given to the real method, in the state [enter] left, its
    scratch memory empty. *)
Theorem UnwrapObjects_null_or_empty (objects : pointer) (len : Z) (t : thread)
    (s : State) :
  objects = PNull ∨ len = 0 →
  UnwrapObjects objects len t s = (PNull, s)
  ∧ (∀ args count, arg_z args count = len →
       unwrap_arg t args (ObjectArray count) (Ptr objects) s = (Ptr PNull, s))
  ∧ ∀ env this pResidencyStatus,
      call_scope t s = 0 →
      let args := [Ptr objects; Ptr pResidencyStatus; Val len] in
      let s1 :=
        enter IDXGIDevice_QueryResourceResidency_ep t (Some this) args s in
      scratch t s1 = []
      ∧ IDXGIDevice_QueryResourceResidency t env this objects
          pResidencyStatus len s =
        let '(r, s3) :=
          env (RealCall (Some (GetWrappedObjectAs this s).1))
            "IDXGIDevice_QueryResourceResidency"
            [Ptr PNull; Ptr pResidencyStatus; Val len] s1 in
        (r, leave IDXGIDevice_QueryResourceResidency_ep t (Some this) args r
              s3).
Proof.
  intros Hnone.
  assert (∀ s0, UnwrapObjects objects len t s0 = (PNull, s0)) as Hu.
  { intros s0. unfold UnwrapObjects.
    destruct Hnone as [->| ->]; [done|]. by destruct objects. }
  split; [apply Hu|]. split.
  - intros args count Hc. unfold unwrap_arg, bind, ret.
    by rewrite Hc, Hu.
  - intros env this pResidencyStatus Hscope. cbn zeta. split.
    + pose proof (enter_spec IDXGIDevice_QueryResourceResidency_ep t
                    (Some this)
                    [Ptr objects; Ptr pResidencyStatus; Val len] s)
        as (_ & _ & _ & _ & _ & _ & Hm).
      unfold scratch. rewrite Hm. cbn. by rewrite lookup_insert_eq.
    + rewrite IDXGIDevice_QueryResourceResidency_pattern,
        wrapper_body_outermost by done.
      cbn zeta.
      cbn [IDXGIDevice_QueryResourceResidency_ep ep_params ep_override
           ep_id outer_target real_target].
      rewrite !unwrap_args_cons.
      cbn [unwrap_arg arg_z lookup list_lookup]. unfold bind at 1.
      rewrite Hu. cbn [unwrap_args unwrap_arg ret bind fst snd].
      unfold bind, ret, GetWrappedObjectAs. cbn [fst snd].
      destruct (env _ _ _ _) as [r s3]. reflexivity.
Qed.

(** C5.  Started with the counter of the thread at a depth of at least
    zero, every execution, outermost or reentrant, first increments the
    counter and last decrements it to the value it had; it logs as many
    increments, and as many decrements, as it has calls, one of each per
    entry point entered; no counter value it records is below the initial
    depth, so none is negative; and when it returns the counter of every
    thread is what it was. *)
Theorem call_scope_balanced (t : thread) (c : Call) (s : State) :
  0 ≤ call_scope t s →
  let s' := (run t c s).2 in
  (∀ t', call_scope t' s' = call_scope t' s)
  ∧ ∃ evs mid,
      log s' = log s ++ evs
      ∧ evs = EvIncrementCallScope t (call_scope t s + 1)
                :: mid ++ [EvDecrementCallScope t (call_scope t s)]
      ∧ count_events is_increment evs = calls c
      ∧ count_events is_decrement evs = calls c
      ∧ Forall (λ e, match e with
                     | EvIncrementCallScope t' d | EvDecrementCallScope t' d =>
                         t' = t ∧ 0 ≤ call_scope t s ≤ d
                     | _ => True
                     end) evs.
Proof.
  intros Hpos. cbn zeta.
  destruct (decide (call_scope t s = 0)) as [Hz|Hnz].
  - (* the outermost call *)
    destruct c as [ep this args outcome callbacks].
    destruct (run_outermost_log t ep this args outcome callbacks s Hz)
      as (evs_cb & evs_wrap & Hl & Hf & Hi & Hd & Hw & _).
    destruct (run_outermost_state t ep this args outcome callbacks s Hz)
      as (_ & _ & Hs & _).
    split; [exact Hs|].
    assert (count_events is_increment evs_wrap = 0%nat) as Hwi.
    { unfold count_events. rewrite filter_none; [done|].
      eapply Forall_impl; [exact Hw|]. intros e. by destruct e. }
    assert (count_events is_decrement evs_wrap = 0%nat) as Hwd.
    { unfold count_events. rewrite filter_none; [done|].
      eapply Forall_impl; [exact Hw|]. intros e. by destruct e. }
    exists (outermost_log ep t this args (outer_target ep this s).1
              (map (view_arg
                      (unwrap_args t args (ep_params ep) args
                         (enter ep t this args s)).2)
                   (unwrap_args t args (ep_params ep) args
                      (enter ep t this args s)).1)
              (out_result outcome) evs_cb evs_wrap),
      (EvPreCall (ep_id ep) this args
         :: (if needs_memory (ep_params ep) then [EvUnwrapMemory t] else [])
         ++ [EvForward (outer_target ep this s).1 (ep_id ep)
               (map (view_arg
                       (unwrap_args t args (ep_params ep) args
                          (enter ep t this args s)).2)
                    (unwrap_args t args (ep_params ep) args
                       (enter ep t this args s)).1)]
         ++ evs_cb ++ evs_wrap
         ++ [EvEncode (ep_id ep) this (reported ep (out_result outcome)) args;
             EvPostCall (ep_id ep) this (reported ep (out_result outcome))
               args]).
    split; [exact Hl|]. rewrite Hz.
    unfold outermost_log. split; [|split; [|split]].
    + repeat (progress (rewrite <- ?app_assoc; cbn [app])). reflexivity.
    + rewrite calls_unfold, !count_events_app, Hi, Hwi.
      destruct (needs_memory (ep_params ep)); cbn; lia.
    + rewrite calls_unfold, !count_events_app, Hd, Hwd.
      destruct (needs_memory (ep_params ep)); cbn; lia.
    + repeat (apply Forall_app; split).
      * repeat constructor; lia.
      * destruct (needs_memory (ep_params ep)); by repeat constructor.
      * by repeat constructor.
      * eapply Forall_impl; [exact Hf|].
        intros e He. destruct e; try done; destruct He; split; (done || lia).
      * eapply Forall_impl; [exact Hw|]. intros e. by destruct e.
      * repeat constructor; lia.
  - (* a reentrant call *)
    assert (0 < call_scope t s) as Hgt by lia.
    destruct (run_reentrant c t s Hgt)
      as (_ & _ & Hs & _ & evs & Hl & Hf & Hi & Hd).
    destruct (run_reentrant_brackets t c s Hgt) as (mid & Hb).
    split; [exact Hs|]. exists evs, mid. split; [exact Hl|].
    split; [|split; [done|split; [done|]]].
    + rewrite Hl in Hb. by apply app_inv_head in Hb.
    + eapply Forall_impl; [exact Hf|].
      intros e He. destruct e; try done; destruct He; split; (done || lia).
Qed.

(** C6.  In an outermost call, each argument reaches the callee as its
    mode says ([passed]): a wrapped reference by value, resolved; an array
    or a structure with references as a buffer of the scratch memory of
    the thread holding the resolved copy.  Unwrapping changes nothing but
    that scratch memory, which only grows: the memory of the application
    is, when the callee is invoked, what it was at the call.  The scratch
    memory was obtained from [GetHandleUnwrapMemory], empty, before, when a
    parameter needs a copy, and is not touched otherwise.  The encoder and
    the post-call hook receive the arguments the application supplied, and
    the payload of the record is built from them.  An entry point without
    outputs to wrap changes the memory of the application by the writes of
    its callees only. *)
Theorem arguments_unwrapped_in_scratch (t : thread) (ep : EntryPoint)
    (this : option address) (args : list arg) (outcome : Outcome)
    (callbacks : list Call) (s : State) :
  call_scope t s = 0 →
  let c := MkCall ep this args outcome callbacks in
  let s1 := enter ep t this args s in
  let unwrapped := unwrap_args t args (ep_params ep) args s1 in
  let s' := (run t c s).2 in
  (∀ i a, args !! i = Some a →
     ∃ a', unwrapped.1 !! i = Some a'
           ∧ passed t s unwrapped.2 args (default Plain (ep_params ep !! i))
               a a')
  ∧ scratch_grows t s1 unwrapped.2
  ∧ app_memory unwrapped.2 = app_memory s
  ∧ (if needs_memory (ep_params ep) then scratch t s1 = []
     else unwrapped.2 = s1 ∧ unwrap_memory_ s1 = unwrap_memory_ s)
  ∧ (∃ evs_cb evs_wrap,
       log s' =
         log s ++ outermost_log ep t this args (outer_target ep this s).1
                    (map (view_arg unwrapped.2) unwrapped.1)
                    (out_result outcome) evs_cb evs_wrap
       ∧ Forall (passthrough t 1) evs_cb
       ∧ Forall (λ e, is_wrap_event e = true) evs_wrap)
  ∧ (∃ record,
       trace s' = trace s ++ (if capture_enabled s then [record] else [])
       ∧ tr_payload record = map (encode_arg s') args)
  ∧ (ep_wraps ep = [] →
     app_memory s' = apply_writes (tree_writes c) (app_memory s)).
Proof.
  intros Hscope. cbn zeta.
  pose proof (enter_spec ep t this args s) as (E1 & E2 & E3 & E4 & _ & _ & E7).
  pose proof (unwrap_args_spec t args (ep_params ep) args
                (enter ep t this args s)) as (Hg & _ & Hp).
  split; [|split; [exact Hg|split; [|split; [|split; [|split]]]]].
  - intros i a Hi. destruct (Hp i a Hi) as (a' & Ha' & Hpass).
    exists a'. split; [done|]. by eapply passed_ext.
  - destruct Hg as (_ & _ & _ & -> & _). exact E4.
  - destruct (needs_memory (ep_params ep)) eqn:Hn.
    + unfold scratch. rewrite E7. by rewrite lookup_insert_eq.
    + split; [by apply unwrap_args_no_memory|done].
  - destruct (run_outermost_log t ep this args outcome callbacks s Hscope)
      as (evs_cb & evs_wrap & Hl & Hf & _ & _ & Hw & _).
    by exists evs_cb, evs_wrap.
  - destruct (run_outermost t ep this args outcome callbacks s Hscope)
      as (args' & s2 & evs & s3 & s4 & -> & Hun & (Q1 & Q2 & _) & _ & _ & _
          & _ & _ & _ & ->).
    cbn [snd]. rewrite Hun in Hg. cbn [snd] in Hg.
    destruct Hg as (G1 & G2 & _).
    pose proof (wrap_on_success_spec ep (out_result outcome) args s3)
      as ((W1 & W2 & _) & _).
    pose proof (leave_spec ep t this args (out_result outcome)
                  (wrap_on_success ep (out_result outcome) args s3).2)
      as (_ & L2 & L3 & L4 & _ & L6 & _).
    rewrite L6, W1, W2, Q1, Q2, G1, G2, E1, E2.
    eexists. split; [reflexivity|]. cbn [record_of tr_payload].
    apply map_ext. intros a. symmetry. by apply encode_arg_ext.
  - intros Hnone.
    destruct (run_outermost t ep this args outcome callbacks s Hscope)
      as (args' & s2 & evs & s3 & s4 & -> & Hun & _ & _ & Hm & _ & _ & _ & _
          & ->).
    cbn [snd]. rewrite Hun in Hg. cbn [snd] in Hg.
    destruct Hg as (_ & _ & _ & G4 & _).
    pose proof (leave_spec ep t this args (out_result outcome)
                  (wrap_on_success ep (out_result outcome) args s3).2)
      as (_ & _ & L3 & _).
    rewrite L3, wrap_on_success_state, Hnone.
    assert ((if SUCCEEDED (out_result outcome)
             then (wrap_outputs args [] s3).2 else s3) = s3) as ->
      by by destruct (SUCCEEDED (out_result outcome)).
    by rewrite Hm, G4, E4.
Qed.

(** ** The properties at sample executions *)

(** The settings loader on [sample_world]: the comment, the entry
    filtered out and the blank line store nothing, the quotes are removed,
    and the last line, which no line feed ends, is not handled; a read
    error and a file that cannot be opened give [errno]; a null map gives
    [EINVAL] and opens nothing. *)
Example LoadLayerSettingsFile_sample :
  LoadLayerSettingsFile "vk_layer_settings.txt" "lunarg_gfxrecon." (Some ∅)
    sample_world
  = Some (0,
          Some {[ "lunarg_gfxrecon.capture_file" := "capture.gfxr";
                  "lunarg_gfxrecon.log_level" := "debug" ]},
          {| files := files sample_world; errno := 0;
             opened := ["vk_layer_settings.txt"] |})
  ∧ LoadLayerSettingsFile "broken.txt" EmptyString (Some ∅) sample_world
    = Some (5, Some {[ "a" := "1" ]},
            {| files := files sample_world; errno := 5;
               opened := ["broken.txt"] |})
  ∧ LoadLayerSettingsFile "secret.txt" EmptyString (Some ∅) sample_world
    = Some (13, Some ∅,
            {| files := files sample_world; errno := 13;
               opened := ["secret.txt"] |})
  ∧ LoadLayerSettingsFile "secret.txt" EmptyString None sample_world
    = Some (EINVAL, None, sample_world).
Proof. vm_compute. repeat split. Qed.

(** [sample_call] from the initial state: the callback is forwarded as it
    is, one call is encoded, one record written, the factory wrapped. *)
Example sample_call_runs :
  let s' := (run 0%nat sample_call initial_state).2 in
  log s' =
    [EvIncrementCallScope 0%nat 1;
     EvPreCall "CreateDXGIFactory" None [Iid "IDXGIFactory"; Ptr (PApp 100%N)];
     EvForward (RealCall None) "CreateDXGIFactory"
       [VArg (Iid "IDXGIFactory"); VBlock (PApp 100%N) []];
     EvIncrementCallScope 0%nat 2;
     EvForward (RealCall None) "D3D12GetDebugInterface"
       [VArg (Iid "ID3D12Debug"); VBlock (PApp 101%N) []];
     EvDecrementCallScope 0%nat 1;
     EvWrap "IDXGIFactory" (PApp 100%N);
     EvEncode "CreateDXGIFactory" None (Some 0)
       [Iid "IDXGIFactory"; Ptr (PApp 100%N)];
     EvPostCall "CreateDXGIFactory" None (Some 0)
       [Iid "IDXGIFactory"; Ptr (PApp 100%N)];
     EvDecrementCallScope 0%nat 0]
  ∧ trace s' =
      [{| tr_call := "CreateDXGIFactory"; tr_object := None;
          tr_result := Some 0;
          tr_payload := [EIid "IDXGIFactory"; EBlock [EId (Some 1%N)]] |}]
  ∧ app_memory s' !! 100%N = Some [FObj "void" (Wrapped 1%N)].
Proof. vm_compute. repeat split. Qed.

(** [ExecuteCommandLists] on the wrapped command queue of [sample_state]:
    the real queue receives a scratch buffer with the real command list;
    the encoder and the post-call hook receive the array of the
    application, which still holds the wrapper. *)
Example ExecuteCommandLists_sample :
  let env := driver {| out_result := 0; out_writes := [] |} (ret ()) in
  let s' :=
    (ID3D12CommandQueue_ExecuteCommandLists 0%nat env 1%N 1 (PApp 200%N)
       sample_state).2 in
  log s' =
    [EvIncrementCallScope 0%nat 1;
     EvPreCall "ID3D12CommandQueue_ExecuteCommandLists" (Some 1%N)
       [Val 1; Ptr (PApp 200%N)];
     EvUnwrapMemory 0%nat;
     EvForward (RealCall (Some (Real 900%N)))
       "ID3D12CommandQueue_ExecuteCommandLists"
       [VArg (Val 1);
        VBlock (PScratch 0%nat 0) [FObj "ID3D12CommandList" (Real 901%N)]];
     EvEncode "ID3D12CommandQueue_ExecuteCommandLists" (Some 1%N) None
       [Val 1; Ptr (PApp 200%N)];
     EvPostCall "ID3D12CommandQueue_ExecuteCommandLists" (Some 1%N) None
       [Val 1; Ptr (PApp 200%N)];
     EvDecrementCallScope 0%nat 0]
  ∧ app_memory s' !! 200%N = Some [FObj "ID3D12CommandList" (Wrapped 2%N)]
  ∧ unwrap_memory_ s' !! 0%nat
      = Some [[FObj "ID3D12CommandList" (Real 901%N)]].
Proof. vm_compute. repeat split. Qed.

Lemma sample_registry_ok : registry_ok sample_registry.
Proof.
  unfold sample_registry.
  destruct (Wrap_spec "ID3D12CommandQueue" 900%N initial_registry
              initial_registry_ok) as (Hok & _).
  by destruct (Wrap_spec "ID3D12GraphicsCommandList" 901%N _ Hok) as (? & _).
Qed.

(** [failure_transparency] at the failing device creation. *)
Lemma failure_transparency_witness :
  call_scope 0%nat initial_state = 0
  ∧ ep_returns D3D12CreateDevice_ep = true
  ∧ SUCCEEDED E_FAIL = false
  ∧ (run 0%nat failing_call initial_state).1 = E_FAIL
  ∧ registry (run 0%nat failing_call initial_state).2 = initial_registry.
Proof.
  split; [reflexivity|]. split; [reflexivity|]. split; [reflexivity|].
  destruct (failure_transparency 0%nat D3D12CreateDevice_ep None
              [Obj Null; Val 45056; Iid "ID3D12Device"; Ptr (PApp 100%N)]
              {| out_result := E_FAIL; out_writes := [] |} [] initial_state
              eq_refl eq_refl eq_refl) as (Hres & Hreg & _).
  split; [exact Hres|exact Hreg].
Defined.


(** [call_scope_balanced] at [sample_call]. *)
Lemma call_scope_balanced_witness :
  0 ≤ call_scope 0%nat initial_state
  ∧ ∀ t', call_scope t' (run 0%nat sample_call initial_state).2
          = call_scope t' initial_state.
Proof.
  assert (0 ≤ call_scope 0%nat initial_state) as H by (vm_compute; discriminate).
  split; [exact H|].
  exact (proj1 (call_scope_balanced 0%nat sample_call initial_state H)).
Defined.

(** [arguments_unwrapped_in_scratch] at [ExecuteCommandLists] on
    [sample_state]. *)
Lemma arguments_unwrapped_in_scratch_witness :
  call_scope 0%nat sample_state = 0
  ∧ app_memory
      (unwrap_args 0%nat [Val 1; Ptr (PApp 200%N)]
         (ep_params ID3D12CommandQueue_ExecuteCommandLists_ep)
         [Val 1; Ptr (PApp 200%N)]
         (enter ID3D12CommandQueue_ExecuteCommandLists_ep 0%nat (Some 1%N)
            [Val 1; Ptr (PApp 200%N)] sample_state)).2
    = app_memory sample_state.
Proof.
  split; [reflexivity|].
  exact (proj1 (proj2 (proj2
    (arguments_unwrapped_in_scratch 0%nat
       ID3D12CommandQueue_ExecuteCommandLists_ep (Some 1%N)
       [Val 1; Ptr (PApp 200%N)] {| out_result := 0; out_writes := [] |} []
       sample_state eq_refl)))).
Defined.

(** [unwrap_of_wrap] at a device wrapped in the initial registry. *)
Lemma unwrap_of_wrap_witness :
  registry_ok initial_registry
  ∧ unwrap_ref (Wrap "ID3D12Device" 900%N initial_registry).2
      (Wrap "ID3D12Device" 900%N initial_registry).1 = Real 900%N.
Proof.
  split; [apply initial_registry_ok|].
  exact (proj1 (unwrap_of_wrap "ID3D12Device" 900%N initial_registry
                  initial_registry_ok)).
Defined.

(** [UnwrapObjects_null_or_empty] at a null array of no elements. *)
Lemma UnwrapObjects_null_or_empty_witness :
  (PNull = PNull ∨ 0 = 0)
  ∧ UnwrapObjects PNull 0 0%nat initial_state = (PNull, initial_state).
Proof.
  split; [by left|].
  exact (proj1 (UnwrapObjects_null_or_empty PNull 0 0%nat initial_state
                  (or_introl eq_refl))).
Defined.

(** ** Further properties of the settings loader *)

Lemma all_chars_impl (P Q : ascii → bool) (s : string) :
  (∀ c, P c = true → Q c = true) →
  all_chars P s = true → all_chars Q s = true.
Proof.
  intros HPQ. induction s as [|c r IH]; [done|]. cbn.
  intros [Hc Hr]%andb_true_iff. by rewrite (HPQ c Hc), IH.
Qed.

Lemma all_chars_append (P : ascii → bool) (a b : string) :
  all_chars P (a +:+ b) = all_chars P a && all_chars P b.
Proof.
  induction a as [|c a IH]; [done|].
  rewrite append_cons. cbn. by rewrite IH, andb_assoc.
Qed.

Lemma has_char_all_chars (c : ascii) (s : string) :
  has_char c s = negb (all_chars (λ d, negb (Ascii.eqb d c)) s).
Proof.
  induction s as [|d r IH]; [done|]. cbn. rewrite IH.
  by destruct (Ascii.eqb d c).
Qed.

Lemma strip_comment_cons (c : ascii) (r : string) :
  strip_comment (String c r) =
  if Ascii.eqb c kCommentDelimiter then EmptyString
  else String c (strip_comment r).
Proof.
  unfold strip_comment. cbn [find_first_of].
  destruct (Ascii.eqb c kCommentDelimiter); [done|].
  destruct (find_first_of kCommentDelimiter r) as [n|]; [|done].
  change (S <$> Some n) with (Some (S n)). cbv iota beta.
  unfold erase_from. by rewrite substring_0_S.
Qed.

(** What [sscanf] sees of a line: the text before the first comment
    delimiter or NUL. *)
Lemma visible_append (a b : string) :
  all_chars uncut_char a = true →
  c_str (strip_comment (a +:+ b)) = a +:+ c_str (strip_comment b).
Proof.
  induction a as [|c a IH]; [done|]. cbn [all_chars].
  intros [Hc Ha]%andb_true_iff. rewrite !append_cons, strip_comment_cons.
  unfold uncut_char in Hc. apply andb_true_iff in Hc as [Hc1 Hc2].
  apply negb_true_iff in Hc1, Hc2. rewrite Hc1. cbn [c_str].
  by rewrite Hc2, IH.
Qed.

Lemma visible_cut (a b : string) (c : ascii) :
  uncut_char c = false →
  c_str (strip_comment (a +:+ String c b)) = c_str (strip_comment a).
Proof.
  intros Hc. induction a as [|d a IH].
  - rewrite append_nil_l, strip_comment_cons.
    unfold uncut_char in Hc.
    destruct (Ascii.eqb c kCommentDelimiter) eqn:H1; [done|].
    cbn in Hc. apply negb_false_iff in Hc. cbn [c_str]. by rewrite Hc.
  - rewrite append_cons, !strip_comment_cons.
    destruct (Ascii.eqb d kCommentDelimiter); [done|]. cbn [c_str].
    by rewrite IH.
Qed.

(** X1.  [RemoveQuotes] removes a quote character at each end, whether or not
    the two are the same character, and what is between them is kept as it
    is, quotes included.  A string that is one quote character becomes the
    empty string: the count [length - 2] wraps around and [substr] clamps
    it. *)
Theorem RemoveQuotes_both_ends (q1 q2 : ascii) (mid : string) :
  is_quote q1 = true → is_quote q2 = true →
  length_z mid + 2 < size_t_modulus →
  RemoveQuotes (String q1 (mid +:+ String q2 EmptyString)) = Some mid
  ∧ RemoveQuotes (String q1 EmptyString) = Some EmptyString.
Proof.
  intros H1 H2 Hlen. split.
  - assert (back (String q1 (mid +:+ String q2 EmptyString)) = Some q2) as Hb.
    { clear. revert q1. induction mid as [|c mid IH]; intros q1; [done|].
      rewrite append_cons, back_cons. apply IH. }
    unfold RemoveQuotes. cbn [front mbind option_bind]. rewrite Hb.
    cbn [mbind option_bind]. rewrite H1, H2. cbn [Z.add Z.ltb Z.compare].
    unfold substr, size_t_sub, length_z in *.
    cbn [String.length]. rewrite length_append. cbn [String.length].
    rewrite Z.mod_small by lia.
    destruct (Z.ltb_spec (Z.of_nat (S (String.length mid + 1))) 1) as [?|_];
      [lia|].
    f_equal. change (Z.to_nat 1) with 1%nat. rewrite substring_S.
    replace (Z.to_nat _) with (String.length mid) by lia.
    clear. induction mid as [|c mid IH]; [done|].
    rewrite append_cons. cbn [String.length]. by rewrite substring_0_S, IH.
  - unfold RemoveQuotes. cbn [front back mbind option_bind]. by rewrite H1.
Qed.

Lemma RemoveQuotes_both_ends_witness :
  is_quote SQUOTE = true ∧ is_quote DQUOTE = true
  ∧ RemoveQuotes (String SQUOTE ("a 'b'" +:+ String DQUOTE EmptyString))
    = Some "a 'b'".
Proof.
  split; [reflexivity|]. split; [reflexivity|].
  exact (proj1 (RemoveQuotes_both_ends SQUOTE DQUOTE "a 'b'" eq_refl eq_refl
                  eq_refl)).
Defined.

(** X2.  Whatever follows a NUL character in a line is ignored: [sscanf] reads
    the line as a C string. *)
Theorem text_after_NUL_is_ignored (filter a b : string) (st : LoopState) :
  process_line filter (a +:+ String NUL b) st = process_line filter a st.
Proof. unfold process_line. by rewrite visible_cut. Qed.

Lemma parses_has_equals (input key value : string) :
  parses_as_key_value input key value → has_char EQUALS input = true.
Proof.
  intros (ws1 & ws2 & ws3 & rest & -> & _).
  rewrite !has_char_append. cbn [has_char].
  rewrite Ascii.eqb_refl. cbn. by rewrite !orb_true_r.
Qed.

(** X3.  A line without [=] before its first [#] (a comment, a blank line, a
    section header, a key alone) stores nothing. *)
Theorem line_without_equals_stores_nothing (filter line : string)
    (st : LoopState) :
  has_char EQUALS (strip_comment line) = false →
  ∃ st', process_line filter line st = Some st'
         ∧ settings_map st' = settings_map st.
Proof.
  intros Hno.
  destruct (process_line_cases filter line st) as (st' & Hst & [Hsame|Hnew]).
  - by exists st'.
  - destruct Hnew as (key & unquoted & _ & value & pre & suf & Hp & _).
    apply parses_has_equals in Hp. congruence.
Qed.

Lemma line_without_equals_stores_nothing_witness :
  has_char EQUALS (strip_comment "[section] # a = b") = false
  ∧ ∃ st', process_line "" "[section] # a = b" (loop_start ∅) = Some st'
           ∧ settings_map st' = settings_map (loop_start ∅).
Proof.
  split; [reflexivity|].
  exact (line_without_equals_stores_nothing "" "[section] # a = b"
           (loop_start ∅) eq_refl).
Defined.

(** *** Lines that are stored *)

Lemma plain_not_space (c : ascii) : plain_char c = true → isspace c = false.
Proof.
  unfold plain_char. intros [H _]%andb_true_iff. by apply negb_true_iff.
Qed.

Lemma plain_uncut (c : ascii) : plain_char c = true → uncut_char c = true.
Proof. unfold plain_char. by intros [_ H]%andb_true_iff. Qed.

Lemma plain_value_char (c : ascii) : plain_char c = true → value_char c = true.
Proof.
  intros H%plain_not_space. unfold isspace, value_char in *.
  destruct (Ascii.eqb c SPACE), (Ascii.eqb c TAB), (Ascii.eqb c LF),
    (Ascii.eqb c VT), (Ascii.eqb c FF), (Ascii.eqb c CR); done.
Qed.

Lemma plain_key_plain (c : ascii) : plain_key_char c = true → plain_char c = true.
Proof. unfold plain_key_char. by intros [H _]%andb_true_iff. Qed.

Lemma plain_key_key_char (c : ascii) :
  plain_key_char c = true → key_char c = true.
Proof.
  unfold plain_key_char. intros [H1 H2]%andb_true_iff.
  apply plain_not_space in H1. apply negb_true_iff in H2.
  unfold isspace, key_char in *. rewrite H2.
  destruct (Ascii.eqb c SPACE), (Ascii.eqb c TAB), (Ascii.eqb c LF),
    (Ascii.eqb c VT), (Ascii.eqb c FF), (Ascii.eqb c CR); done.
Qed.

Lemma isspace_uncut (c : ascii) : isspace c = true → uncut_char c = true.
Proof.
  unfold isspace, uncut_char.
  destruct (Ascii.eqb_spec c kCommentDelimiter) as [->|_]; [done|].
  destruct (Ascii.eqb_spec c NUL) as [->|_]; done.
Qed.

Lemma separator_space (c : ascii) : separator c = true → isspace c = true.
Proof. unfold separator. by intros [H _]%andb_true_iff. Qed.

Lemma separator_not_key (c : ascii) : separator c = true → key_char c = false.
Proof.
  unfold separator. intros [_ H]%andb_true_iff. by apply negb_true_iff.
Qed.

Lemma skip_space_append (ws s : string) :
  all_chars isspace ws = true → skip_space (ws +:+ s) = skip_space s.
Proof.
  induction ws as [|c ws IH]; [done|]. cbn [all_chars].
  intros [Hc Hws]%andb_true_iff.
  rewrite append_cons, skip_space_cons, Hc. by apply IH.
Qed.

Lemma skip_space_token (P : ascii → bool) (tok rest : string) :
  (∀ c, P c = true → isspace c = false) →
  tok ≠ EmptyString → all_chars P tok = true →
  skip_space (tok +:+ rest) = tok +:+ rest.
Proof.
  intros HP Hne Hall. destruct tok as [|c tok]; [done|].
  cbn [all_chars] in Hall. apply andb_true_iff in Hall as [Hc _].
  by rewrite append_cons, skip_space_cons, (HP c Hc).
Qed.

(** A conversion reads a token that fills the width or is followed by a
    character outside the set, and nothing more. *)
Lemma scan_set_token (P : ascii → bool) (w : nat) (tok rest : string) :
  all_chars P tok = true → (String.length tok ≤ w)%nat →
  String.length tok = w
  ∨ match rest with EmptyString => True | String c _ => P c = false end →
  scan_set P w (tok +:+ rest) = (tok, rest).
Proof.
  revert w. induction tok as [|c tok IH]; intros w Hall Hlen Hend.
  - rewrite append_nil_l. destruct w as [|w]; [by destruct rest|].
    destruct Hend as [Hw|Hend]; [done|].
    destruct rest as [|d rest]; [done|]. cbn. by rewrite Hend.
  - cbn [all_chars] in Hall. apply andb_true_iff in Hall as [Hc Hall].
    cbn [String.length] in Hlen, Hend. destruct w as [|w]; [lia|].
    rewrite append_cons. cbn [scan_set]. rewrite Hc.
    rewrite (IH w); [done|done|lia|].
    destruct Hend as [Hw|Hend]; [left; lia|by right].
Qed.

Lemma StringCompare_append (filter more : string) :
  StringCompare (filter +:+ more) filter (String.length filter) = 0.
Proof.
  induction filter as [|c filter IH]; [by destruct more|].
  rewrite append_cons. cbn [String.length StringCompare].
  by rewrite Ascii.eqb_refl.
Qed.

Lemma is_empty_append (a b : string) :
  a ≠ EmptyString → is_empty (a +:+ b) = false.
Proof. by destruct a. Qed.

Lemma visible_rest (rest : string) :
  ends_token rest = true →
  match c_str (strip_comment rest) with
  | EmptyString => True
  | String c _ => value_char c = false
  end.
Proof.
  destruct rest as [|c rest]; [done|]. cbn [ends_token].
  rewrite strip_comment_cons. unfold uncut_char.
  destruct (Ascii.eqb c kCommentDelimiter); [done|]. cbn [c_str].
  destruct (Ascii.eqb c NUL); [done|]. cbn.
  rewrite orb_false_r. by intros ?%negb_true_iff.
Qed.

(** What [sscanf] reads from a line with a plain entry. *)
Lemma sscanf_plain_entry (line key value key0 value0 : string) :
  plain_entry line key value →
  sscanf (c_str (strip_comment line)) key0 value0 = (2, key, value).
Proof.
  intros (ws1 & ws2 & ws3 & rest & -> & Hws1 & Hws2 & Hws3 & Hk & Hkey & Hklen
          & Hv & Hval & Hvlen & Hend).
  assert (all_chars uncut_char ws1 = true) as U1
    by (eapply all_chars_impl; [apply isspace_uncut|done]).
  assert (all_chars uncut_char ws2 = true) as U2.
  { eapply all_chars_impl; [|exact Hws2].
    intros c Hc. by apply isspace_uncut, separator_space. }
  assert (all_chars uncut_char ws3 = true) as U3
    by (eapply all_chars_impl; [apply isspace_uncut|done]).
  assert (all_chars uncut_char key = true) as Uk.
  { eapply all_chars_impl; [|exact Hkey].
    intros c Hc. by apply plain_uncut, plain_key_plain. }
  assert (all_chars uncut_char value = true) as Uv
    by (eapply all_chars_impl; [apply plain_uncut|done]).
  rewrite (visible_append ws1), (visible_append key), (visible_append ws2)
    by done.
  change (String EQUALS (ws3 +:+ value +:+ rest))
    with (String EQUALS EmptyString +:+ (ws3 +:+ value +:+ rest)).
  rewrite (visible_append (String EQUALS EmptyString)) by done.
  rewrite (visible_append ws3), (visible_append value) by done.
  pose proof (visible_rest rest) as Hrest.
  remember (c_str (strip_comment rest)) as rest' eqn:Er. clear Er.
  rewrite append_cons, append_nil_l.
  unfold sscanf. rewrite skip_space_append by done.
  rewrite (skip_space_token plain_key_char)
    by (done || intros c Hc; by apply plain_not_space, plain_key_plain).
  rewrite is_empty_append by done.
  rewrite (scan_set_token key_char); cycle 1.
  { eapply all_chars_impl; [apply plain_key_key_char|done]. }
  { done. }
  { right. destruct ws2 as [|c ws2]; [cbn; by vm_compute|].
    rewrite append_cons. cbn [all_chars] in Hws2.
    apply andb_true_iff in Hws2 as [Hc _]. by apply separator_not_key. }
  destruct key as [|k0 key]; [done|]. cbn [is_empty].
  rewrite skip_space_append
    by (eapply all_chars_impl; [apply separator_space|done]).
  cbn [skip_space isspace]. change (isspace EQUALS) with false. cbv iota.
  rewrite Ascii.eqb_refl.
  rewrite skip_space_append by done.
  rewrite (skip_space_token plain_char) by (done || apply plain_not_space).
  rewrite is_empty_append by done.
  rewrite (scan_set_token value_char); cycle 1.
  { eapply all_chars_impl; [apply plain_value_char|done]. }
  { done. }
  { destruct Hend as [Hend|Hfull]; [right; by apply Hrest|by left]. }
  by destruct value.
Qed.

(** The loop body on a line with a plain entry whose key starts with the
    filter. *)
Lemma process_line_plain_entry (filter more line key value : string)
    (st : LoopState) :
  plain_entry line key value →
  has_char NUL filter = false →
  key = filter +:+ more →
  ∃ unquoted,
    RemoveQuotes value = Some unquoted
    ∧ process_line filter line st =
        Some {| key_buf := key; value_buf := value;
                settings_map := <[key := unquoted]> (settings_map st) |}.
Proof.
  intros Hentry Hnul Hkey.
  assert (value ≠ EmptyString) as Hv
    by (by destruct Hentry as (? & ? & ? & ? & _ & _ & _ & _ & _ & _ & _ & ?
                                & _)).
  destruct (RemoveQuotes_defined value Hv) as [unquoted Hu].
  exists unquoted. split; [done|]. unfold process_line.
  rewrite (sscanf_plain_entry _ _ _ _ _ Hentry). cbn [Z.eqb Pos.eqb].
  rewrite (c_str_no_NUL _ Hnul), Hkey, StringCompare_append, orb_true_r.
  by rewrite Hu.
Qed.

(** X4.  A line with a plain entry whose key starts with the filter is stored:
    the map gets the key with the value, its quotes removed, whatever the
    map and the token buffers held. *)
Theorem plain_entry_is_stored (filter more line key value : string)
    (st : LoopState) :
  plain_entry line key value →
  has_char NUL filter = false →
  key = filter +:+ more →
  ∃ unquoted st',
    RemoveQuotes value = Some unquoted
    ∧ process_line filter line st = Some st'
    ∧ settings_map st' = <[key := unquoted]> (settings_map st)
    ∧ settings_map st' !! key = Some unquoted.
Proof.
  intros Hentry Hnul Hkey.
  destruct (process_line_plain_entry filter more line key value st
              Hentry Hnul Hkey) as (unquoted & Hu & Hp).
  eexists unquoted, _. split; [done|]. split; [exact Hp|].
  split; [done|]. cbn. by rewrite lookup_insert_eq.
Qed.

Lemma sample_entry :
  plain_entry "  lunarg_gfxrecon.log_level = 'debug'  # level"
    "lunarg_gfxrecon.log_level" "'debug'".
Proof.
  exists "  ", " ", " ", "  # level". repeat split; try done; cbn; lia.
Qed.

Lemma plain_entry_is_stored_witness :
  plain_entry "  lunarg_gfxrecon.log_level = 'debug'  # level"
    "lunarg_gfxrecon.log_level" "'debug'"
  ∧ has_char NUL "lunarg_gfxrecon." = false
  ∧ ∃ unquoted st',
      RemoveQuotes "'debug'" = Some unquoted
      ∧ process_line "lunarg_gfxrecon."
          "  lunarg_gfxrecon.log_level = 'debug'  # level" (loop_start ∅)
        = Some st'
      ∧ settings_map st'
        = <[ "lunarg_gfxrecon.log_level" := unquoted ]>
            (settings_map (loop_start ∅))
      ∧ settings_map st' !! "lunarg_gfxrecon.log_level" = Some unquoted.
Proof.
  split; [exact sample_entry|]. split; [reflexivity|].
  exact (plain_entry_is_stored "lunarg_gfxrecon." "log_level" _ _ _
           (loop_start ∅) sample_entry eq_refl eq_refl).
Defined.

(** X5.  A value of more than 511 characters is cut: what is stored is made from
    its first 511 characters, whatever follows them. *)
Theorem long_value_is_truncated (filter more ws1 key ws2 ws3 value rest : string)
    (st : LoopState) :
  all_chars isspace ws1 = true →
  all_chars separator ws2 = true →
  all_chars isspace ws3 = true →
  key ≠ EmptyString → all_chars plain_key_char key = true →
  (String.length key ≤ 511)%nat →
  all_chars plain_char value = true →
  String.length value = 511%nat →
  has_char NUL filter = false →
  key = filter +:+ more →
  ∃ unquoted,
    RemoveQuotes value = Some unquoted
    ∧ process_line filter
        (ws1 +:+ key +:+ ws2 +:+ String EQUALS (ws3 +:+ value +:+ rest)) st
      = Some {| key_buf := key; value_buf := value;
                settings_map := <[key := unquoted]> (settings_map st) |}.
Proof.
  intros Hws1 Hws2 Hws3 Hk Hkey Hklen Hval Hvlen Hnul Hpre.
  apply (process_line_plain_entry filter more); [|done|done].
  exists ws1, ws2, ws3, rest. repeat split; try done; [|lia|by right].
  intros ->. done.
Qed.

Lemma long_value_is_truncated_witness :
  all_chars plain_char (replicate_char 511 "v") = true
  ∧ String.length (replicate_char 511 "v") = 511%nat
  ∧ ∃ unquoted,
      RemoveQuotes (replicate_char 511 "v") = Some unquoted
      ∧ process_line ""
          ("" +:+ "k" +:+ " " +:+
           String EQUALS (" " +:+ replicate_char 511 "v" +:+ "vvv"))
          (loop_start ∅)
        = Some {| key_buf := "k"; value_buf := replicate_char 511 "v";
                  settings_map :=
                    <[ "k" := unquoted ]> (settings_map (loop_start ∅)) |}.
Proof.
  split; [reflexivity|]. split; [reflexivity|].
  apply (long_value_is_truncated "" "k" "" "k" " " " "
           (replicate_char 511 "v") "vvv" (loop_start ∅));
    try reflexivity; [discriminate|cbn; lia].
Defined.

(** X6.  A key of more than 511 characters stores nothing: the conversion stops
    after 511 characters and the [=] of the format does not match the next
    one. *)
Theorem long_key_is_dropped (filter ws key rest : string) (c : ascii)
    (st : LoopState) :
  all_chars isspace ws = true →
  all_chars plain_key_char key = true →
  String.length key = 511%nat →
  plain_key_char c = true →
  ∃ st', process_line filter (ws +:+ key +:+ String c rest) st = Some st'
         ∧ settings_map st' = settings_map st.
Proof.
  intros Hws Hkey Hlen Hc. unfold process_line.
  assert (all_chars uncut_char ws = true) as U1
    by (eapply all_chars_impl; [apply isspace_uncut|done]).
  assert (all_chars uncut_char key = true) as Uk.
  { eapply all_chars_impl; [|exact Hkey].
    intros d Hd. by apply plain_uncut, plain_key_plain. }
  assert (key ≠ EmptyString) as Hne by (intros ->; done).
  rewrite (visible_append ws), (visible_append key) by done.
  change (String c rest) with (String c EmptyString +:+ rest).
  rewrite (visible_append (String c EmptyString)); cycle 1.
  { cbn. by rewrite (plain_uncut c (plain_key_plain c Hc)). }
  remember (c_str (strip_comment rest)) as rest' eqn:Er. clear Er.
  rewrite append_cons, append_nil_l.
  unfold sscanf. rewrite skip_space_append by done.
  rewrite (skip_space_token plain_key_char)
    by (done || intros d Hd; by apply plain_not_space, plain_key_plain).
  rewrite is_empty_append by done.
  rewrite (scan_set_token key_char); cycle 1.
  { eapply all_chars_impl; [apply plain_key_key_char|done]. }
  { cbn. lia. }
  { left. by rewrite Hlen. }
  destruct key as [|k0 key]; [done|]. cbn [is_empty].
  rewrite skip_space_cons, (plain_not_space c (plain_key_plain c Hc)).
  unfold plain_key_char in Hc. apply andb_true_iff in Hc as [_ Hc].
  apply negb_true_iff in Hc. rewrite Hc. cbn. by eexists.
Qed.

Lemma long_key_is_dropped_witness :
  all_chars plain_key_char (replicate_char 511 "k") = true
  ∧ String.length (replicate_char 511 "k") = 511%nat
  ∧ ∃ st',
      process_line ""
        ("" +:+ replicate_char 511 "k" +:+ String "k" " = 1")
        (loop_start ∅) = Some st'
      ∧ settings_map st' = settings_map (loop_start ∅).
Proof.
  split; [reflexivity|]. split; [reflexivity|].
  apply (long_key_is_dropped "" "" (replicate_char 511 "k") " = 1" "k"
           (loop_start ∅)); reflexivity.
Defined.

(** *** The file as a whole *)

Lemma split_lines_cons (c : ascii) (r : string) :
  split_lines (String c r) =
  if Ascii.eqb c LF
  then (EmptyString :: (split_lines r).1, (split_lines r).2)
  else match (split_lines r).1 with
       | [] => ([], String c (split_lines r).2)
       | l :: ls => (String c l :: ls, (split_lines r).2)
       end.
Proof.
  cbn [split_lines]. destruct (split_lines r) as [[|l ls] tail];
    by destruct (Ascii.eqb c LF).
Qed.

Lemma split_lines_no_LF (tail : string) :
  has_char LF tail = false → split_lines tail = ([], tail).
Proof.
  induction tail as [|c tail IH]; [done|]. cbn [has_char].
  intros [Hc Ht]%orb_false_iff. rewrite split_lines_cons, Hc, (IH Ht). done.
Qed.

(** The lines of a text whose last line is terminated, followed by more
    text. *)
Lemma split_lines_append (a b : string) :
  (split_lines a).2 = EmptyString →
  split_lines (a +:+ b) =
    ((split_lines a).1 ++ (split_lines b).1, (split_lines b).2).
Proof.
  induction a as [|c a IH].
  { intros _. rewrite append_nil_l. by destruct (split_lines b). }
  rewrite append_cons, !split_lines_cons.
  destruct (Ascii.eqb c LF).
  - cbn [fst snd]. intros Ha. by rewrite (IH Ha).
  - destruct (split_lines a) as [[|l ls] tail] eqn:Ea; cbn [fst snd];
      [done|].
    intros Ha. rewrite (IH Ha). done.
Qed.

Lemma split_lines_line (text : string) :
  split_lines (text +:+ String LF EmptyString) =
    ((split_lines text).1 ++ [(split_lines text).2], EmptyString).
Proof.
  induction text as [|c text IH]; [done|].
  rewrite append_cons, !split_lines_cons, IH. cbn [fst snd].
  destruct (Ascii.eqb c LF); [done|].
  by destruct (split_lines text) as [[|l ls] tail].
Qed.

Lemma terminated_split (content : string) :
  terminated content → (split_lines content).2 = EmptyString.
Proof. intros [->|[text ->]]; [done|]. by rewrite split_lines_line. Qed.

Lemma process_lines_app (filter : string) (ls1 ls2 : list string)
    (st : LoopState) :
  process_lines filter (ls1 ++ ls2) st =
    (st' ← process_lines filter ls1 st; process_lines filter ls2 st').
Proof.
  revert st. induction ls1 as [|l ls1 IH]; intros st; [done|].
  cbn [app process_lines].
  destruct (process_line filter l st) as [st1|]; [|done]. cbn. apply IH.
Qed.

Lemma lookup_with_file (filename content : string) (read_error : option Z)
    (w : World) :
  files (with_file filename content read_error w) !! filename =
    Some (Readable content read_error).
Proof. cbn. by rewrite lookup_insert_eq. Qed.

(** X7.  Text after the last line feed of the file is not handled: the code
    returned and the map are those for the file without it.  So a file
    without any line feed stores nothing. *)
Theorem unterminated_last_line_is_dropped (filename filter content tail : string)
    (read_error : option Z) (m : gmap string string) (w : World) :
  terminated content →
  has_char LF tail = false →
  ∃ result m' w1 w2,
    LoadLayerSettingsFile filename filter (Some m)
      (with_file filename (content +:+ tail) read_error w)
      = Some (result, Some m', w1)
    ∧ LoadLayerSettingsFile filename filter (Some m)
        (with_file filename content read_error w)
      = Some (result, Some m', w2)
    ∧ (content = EmptyString → m' = m).
Proof.
  intros Hterm Htail.
  rewrite !(LoadLayerSettingsFile_readable _ _ _ _ _ _
              (lookup_with_file _ _ _ _)).
  rewrite (split_lines_append content tail (terminated_split _ Hterm)).
  rewrite (split_lines_no_LF tail Htail). cbn [fst]. rewrite app_nil_r.
  destruct (process_lines_total filter (split_lines content).1
              (loop_start m)) as [st' Hst].
  rewrite Hst. cbn [mbind option_bind]. eexists _, _, _, _.
  split; [done|]. split; [done|]. intros ->. cbn in Hst. by injection Hst as <-.
Qed.

Lemma unterminated_last_line_is_dropped_witness :
  terminated EmptyString
  ∧ has_char LF "key = value" = false
  ∧ ∃ result m' w1 w2,
      LoadLayerSettingsFile "f" "" (Some ∅)
        (with_file "f" ("" +:+ "key = value") None empty_world)
        = Some (result, Some m', w1)
      ∧ LoadLayerSettingsFile "f" "" (Some ∅)
          (with_file "f" "" None empty_world)
        = Some (result, Some m', w2)
      ∧ (EmptyString = EmptyString → m' = ∅).
Proof.
  split; [by left|]. split; [reflexivity|].
  exact (unterminated_last_line_is_dropped "f" "" "" "key = value" None ∅
           empty_world (or_introl eq_refl) eq_refl).
Defined.

(** X8.  The last line of a file, when terminated and holding a plain entry
    whose key starts with the filter, decides the value of its key:
    whatever the map held and whatever the lines before stored for the
    key, the key ends up with the value of that line. *)
Theorem last_entry_wins (filename filter more content line key value : string)
    (read_error : option Z) (m : gmap string string) (w : World) :
  terminated content →
  has_char LF line = false →
  plain_entry line key value →
  has_char NUL filter = false →
  key = filter +:+ more →
  ∃ unquoted result m' w',
    RemoveQuotes value = Some unquoted
    ∧ LoadLayerSettingsFile filename filter (Some m)
        (with_file filename (content +:+ line +:+ String LF EmptyString)
           read_error w)
      = Some (result, Some m', w')
    ∧ m' !! key = Some unquoted.
Proof.
  intros Hterm Hline Hentry Hnul Hkey.
  rewrite (LoadLayerSettingsFile_readable _ _ _ _ _ _
             (lookup_with_file _ _ _ _)).
  rewrite (split_lines_append content _ (terminated_split _ Hterm)).
  rewrite split_lines_line, (split_lines_no_LF line Hline).
  cbn [fst snd app]. rewrite process_lines_app.
  destruct (process_lines_total filter (split_lines content).1
              (loop_start m)) as [st1 ->].
  cbn [mbind option_bind process_lines].
  destruct (process_line_plain_entry filter more line key value st1
              Hentry Hnul Hkey) as (unquoted & Hu & ->).
  cbn [mbind option_bind]. eexists unquoted, _, _, _.
  split; [done|]. split; [done|]. cbn. by rewrite lookup_insert_eq.
Qed.

Lemma last_entry_wins_witness :
  terminated ("a = 1" +:+ String LF EmptyString)
  ∧ has_char LF "a = 2" = false
  ∧ plain_entry "a = 2" "a" "2"
  ∧ ∃ unquoted result m' w',
      RemoveQuotes "2" = Some unquoted
      ∧ LoadLayerSettingsFile "f" "" (Some {[ "a" := "0" ]})
          (with_file "f"
             (("a = 1" +:+ String LF EmptyString) +:+ "a = 2"
              +:+ String LF EmptyString) None empty_world)
        = Some (result, Some m', w')
      ∧ m' !! "a" = Some unquoted.
Proof.
  assert (plain_entry "a = 2" "a" "2") as He.
  { exists "", " ", " ", "". repeat split; try done; cbn; lia. }
  split; [right; by eexists|]. split; [reflexivity|]. split; [exact He|].
  exact (last_entry_wins "f" "" "a" _ "a = 2" "a" "2" None {[ "a" := "0" ]}
           empty_world (or_intror (ex_intro _ "a = 1" eq_refl)) eq_refl He
           eq_refl eq_refl).
Defined.

Lemma stored_entry_loaded (filter text key unquoted : string) :
  stored_entry filter text key unquoted →
  loaded_entry filter key (Some unquoted).
Proof.
  intros (value & pre & suf & Hp & _ & Hf & Hcut & _ & -> & _).
  destruct Hp as (ws1 & ws2 & ws3 & rest & _ & _ & _ & _ & Hk & Hkey & Hklen
                  & _ & Hval & Hvlen).
  split; [done|]. split; [done|]. split; [done|]. split.
  - destruct (has_char NUL filter) eqn:Hnul.
    + exists EmptyString. by rewrite append_empty_r, (Hcut eq_refl).
    + rewrite (c_str_no_NUL _ Hnul).
      destruct filter as [|c filter]; [by exists key|].
      destruct (Hf eq_refl eq_refl) as [more ->]. by exists more.
  - exists unquoted. split; [done|].
    rewrite !all_chars_append in Hval.
    apply andb_true_iff in Hval as [_ [Hu _]%andb_true_iff].
    split; [done|]. rewrite !length_append in Hvlen. lia.
Qed.

Lemma process_lines_frame (filter : string) (ls : list string)
    (st st' : LoopState) :
  process_lines filter ls st = Some st' →
  ∀ k, (is_Some (settings_map st !! k) → is_Some (settings_map st' !! k))
       ∧ (settings_map st' !! k ≠ settings_map st !! k →
          loaded_entry filter k (settings_map st' !! k)).
Proof.
  revert st. induction ls as [|l ls IH]; intros st Hrun k.
  - injection Hrun as <-. by split.
  - cbn [process_lines] in Hrun.
    destruct (process_line_cases filter l st) as (st1 & Hl & Hcase).
    rewrite Hl in Hrun. cbn [mbind option_bind] in Hrun.
    destruct (IH st1 Hrun k) as [Hkeep Hnew].
    destruct Hcase as [Hsame|(key & unquoted & Hins & Hentry)].
    + rewrite Hsame in Hkeep, Hnew. by split.
    + rewrite Hins in Hkeep, Hnew.
      destruct (decide (k = key)) as [->|Hne].
      * rewrite lookup_insert_eq in Hkeep, Hnew. split; [by eauto|].
        intros _.
        destruct (decide (settings_map st' !! key = Some unquoted))
          as [->|Hd]; [by eapply stored_entry_loaded|by apply Hnew].
      * rewrite lookup_insert_ne in Hkeep, Hnew by done. by split.
Qed.

(** X9.  Loading a file removes no entry of the map, and an entry it adds
    or changes has a key of at most 511 characters that starts with the
    filter as a C string, the filter up to its first NUL character (all of
    it when it has none), and is exactly that C string when the filter has
    a NUL character; its value has at most 511 characters.  The entries of
    other keys are what they were. *)
Theorem LoadLayerSettingsFile_frame (filename filter : string)
    (m m' : gmap string string) (w w' : World) (result : Z) (k : string) :
  LoadLayerSettingsFile filename filter (Some m) w
    = Some (result, Some m', w') →
  (is_Some (m !! k) → is_Some (m' !! k))
  ∧ (m' !! k ≠ m !! k → loaded_entry filter k (m' !! k))
  ∧ ((∀ rest, k ≠ c_str filter +:+ rest) → m' !! k = m !! k)
  ∧ (has_char NUL filter = true → k ≠ c_str filter → m' !! k = m !! k).
Proof.
  intros Hload.
  assert ((is_Some (m !! k) → is_Some (m' !! k))
          ∧ (m' !! k ≠ m !! k → loaded_entry filter k (m' !! k)))
    as [Hkeep Hnew].
  { destruct (files w !! filename) as [[err|content read_error]|] eqn:Hfile.
    - rewrite (LoadLayerSettingsFile_unreadable _ _ _ _ _ Hfile) in Hload.
      injection Hload as _ <- _. by split.
    - rewrite (LoadLayerSettingsFile_readable _ _ _ _ _ _ Hfile) in Hload.
      destruct (process_lines filter (split_lines content).1 (loop_start m))
        as [st'|] eqn:Hst; [|done].
      injection Hload as _ <- _.
      apply (process_lines_frame _ _ _ _ Hst k).
    - rewrite (LoadLayerSettingsFile_missing _ _ _ _ Hfile) in Hload.
      injection Hload as _ <- _. by split. }
  split; [done|]. split; [done|]. split.
  - intros Hother.
    destruct (decide (m' !! k = m !! k)) as [|Hd]; [done|].
    destruct (Hnew Hd) as (_ & _ & _ & (rest & -> & _) & _).
    by destruct (Hother rest).
  - intros Hnul Hother.
    destruct (decide (m' !! k = m !! k)) as [|Hd]; [done|].
    destruct (Hnew Hd) as (_ & _ & _ & (rest & -> & Hrest) & _).
    rewrite (Hrest Hnul), append_empty_r in Hother. by destruct Hother.
Qed.

Lemma LoadLayerSettingsFile_frame_witness :
  LoadLayerSettingsFile "vk_layer_settings.txt" "lunarg_gfxrecon."
    (Some {[ "other.key" := "kept" ]}) sample_world
  = Some (0,
          Some {[ "other.key" := "kept";
                  "lunarg_gfxrecon.capture_file" := "capture.gfxr";
                  "lunarg_gfxrecon.log_level" := "debug" ]},
          world_after "vk_layer_settings.txt" None sample_world)
  ∧ (is_Some (({[ "other.key" := "kept" ]} : gmap string string)
               !! "other.key") →
     is_Some (({[ "other.key" := "kept";
                  "lunarg_gfxrecon.capture_file" := "capture.gfxr";
                  "lunarg_gfxrecon.log_level" := "debug" ]}
               : gmap string string) !! "other.key")).
Proof.
  assert (LoadLayerSettingsFile "vk_layer_settings.txt" "lunarg_gfxrecon."
            (Some {[ "other.key" := "kept" ]}) sample_world
          = Some (0,
                  Some {[ "other.key" := "kept";
                          "lunarg_gfxrecon.capture_file" := "capture.gfxr";
                          "lunarg_gfxrecon.log_level" := "debug" ]},
                  world_after "vk_layer_settings.txt" None sample_world))
    as H by (vm_compute; reflexivity).
  split; [exact H|].
  exact (proj1 (LoadLayerSettingsFile_frame _ _ _ _ _ _ _ "other.key" H)).
Defined.

(** ** [FindLayerSettingsFile] *)

Lemma is_empty_true (s : string) : is_empty s = true → s = EmptyString.
Proof. by destruct s. Qed.

(** X10.  What [FindLayerSettingsFile] returns is the empty string or the path of
    a file; and it is not empty when the working directory has a settings
    file. *)
Theorem FindLayerSettingsFile_names_a_file (os : OS) (p : Platform) :
  (FindLayerSettingsFile os p = EmptyString
   ∨ IsFile p (FindLayerSettingsFile os p) = true)
  ∧ (IsFile p kSettingsFilename = true →
     FindLayerSettingsFile os p ≠ EmptyString).
Proof.
  unfold FindLayerSettingsFile. split.
  - destruct os;
      repeat match goal with
             | |- context [if ?b then _ else _] => destruct b eqn:?
             end; cbn [is_empty negb] in *;
      try (by left); try (by right); try done.
  - intros Hcwd. rewrite Hcwd.
    destruct os;
      repeat match goal with
             | |- context [if ?b then _ else _] => destruct b eqn:?
             end; cbn [is_empty negb] in *; try done;
      intros E; rewrite E in *; done.
Qed.

(** X11.  On Linux the file of vkconfig, when there is one, is what is returned,
    whatever the environment variable of the layers and the working
    directory hold.  Failing that, and on Android, the environment variable
    decides when it leads to a file, before the working directory. *)
Theorem FindLayerSettingsFile_precedence (os : OS) (p : Platform) :
  (os = Linux → data_home p ≠ EmptyString →
   IsFile p (vkconfig_path p (data_home p)) = true →
   FindLayerSettingsFile os p = vkconfig_path p (data_home p))
  ∧ (os = Android ∨ data_home p = EmptyString
     ∨ IsFile p (vkconfig_path p (data_home p)) = false →
     GetEnv p (kSettingsEnvVar os) ≠ EmptyString →
     env_path os p ≠ EmptyString →
     IsFile p (env_path os p) = true →
     FindLayerSettingsFile os p = env_path os p).
Proof.
  unfold FindLayerSettingsFile, data_home, vkconfig_path, env_path. split.
  - intros -> Hhome Hfile.
    destruct (is_empty (GetEnv p kDataHome)) eqn:Hx;
      [destruct (is_empty (GetEnv p kUserHome)) eqn:Hh; [done|]|];
      cbn [negb].
    + destruct (is_empty (Join p (GetEnv p kUserHome) kUserShareDir)) eqn:Hj;
        [by apply is_empty_true in Hj|].
      cbn [negb]. rewrite Hfile.
      by destruct (Join p (Join p (GetEnv p kUserHome) kUserShareDir)
                     kSettingsDir).
    + rewrite Hx. cbn [negb]. rewrite Hfile.
      by destruct (Join p (GetEnv p kDataHome) kSettingsDir).
  - intros Hfirst Henv Hne Hfile.
    assert (is_empty (GetEnv p (kSettingsEnvVar os)) = false) as He
      by (by destruct (GetEnv p (kSettingsEnvVar os))).
    assert (is_empty
              (if IsDirectory p (GetEnv p (kSettingsEnvVar os))
               then Join p (GetEnv p (kSettingsEnvVar os)) kSettingsFilename
               else GetEnv p (kSettingsEnvVar os)) = false) as He'
      by (by destruct (if IsDirectory p _ then _ else _)).
    destruct os.
    + destruct Hfirst as [?|[Hhome|Hnofile]]; [done| |].
      * destruct (is_empty (GetEnv p kDataHome)) eqn:Hx.
        -- destruct (is_empty (GetEnv p kUserHome)) eqn:Hh; cbn [negb].
           ++ rewrite Hh. cbn [is_empty negb]. rewrite He; cbn [negb]; by rewrite Hfile, He'.
           ++ rewrite Hhome. cbn [is_empty negb]. rewrite He; cbn [negb]; by rewrite Hfile, He'.
        -- rewrite Hhome in Hx. done.
      * destruct (is_empty (GetEnv p kDataHome)) eqn:Hx.
        -- destruct (is_empty (GetEnv p kUserHome)) eqn:Hh; cbn [negb].
           ++ rewrite Hh. cbn [is_empty negb]. rewrite He; cbn [negb]; by rewrite Hfile, He'.
           ++ destruct (is_empty (Join p _ kUserShareDir));
                cbn [negb is_empty]; rewrite ?Hnofile; cbn [is_empty negb];
                rewrite He; cbn [negb]; by rewrite Hfile, He'.
        -- rewrite Hx. cbn [negb]. rewrite Hnofile. cbn [is_empty negb].
           rewrite He; cbn [negb]; by rewrite Hfile, He'.
    + cbn [is_empty negb]. rewrite He; cbn [negb]; by rewrite Hfile, He'.
Qed.

(** X12.  [HOME] is only consulted when [XDG_DATA_HOME] is empty: with
    [XDG_DATA_HOME] set, the result does not depend on [HOME], also when no
    vkconfig file is found under [XDG_DATA_HOME].  On Android neither
    variable is consulted. *)
Theorem FindLayerSettingsFile_ignores (os : OS) (p p' : Platform) :
  (os = Linux → GetEnv p kDataHome ≠ EmptyString →
   same_but [kUserHome] p p' →
   FindLayerSettingsFile os p = FindLayerSettingsFile os p')
  ∧ (os = Android →
     same_but [kDataHome; kUserHome] p p' →
     FindLayerSettingsFile os p = FindLayerSettingsFile os p').
Proof.
  split.
  - intros -> Hx (Henv & Hfile & Hdir & Hjoin).
    assert (GetEnv p' kDataHome = GetEnv p kDataHome) as Ex.
    { symmetry. apply Henv. unfold kDataHome, kUserHome.
      rewrite !not_elem_of_cons.
      repeat split; (discriminate || apply not_elem_of_nil). }
    assert (GetEnv p' (kSettingsEnvVar Linux)
            = GetEnv p (kSettingsEnvVar Linux)) as Ee.
    { symmetry. apply Henv. unfold kSettingsEnvVar, kUserHome.
      rewrite !not_elem_of_cons.
      repeat split; (discriminate || apply not_elem_of_nil). }
    unfold FindLayerSettingsFile. rewrite Ex, Ee.
    destruct (GetEnv p kDataHome) as [|c home] eqn:Hhome; [done|].
    cbn [is_empty negb].
    by rewrite <- !Hjoin, <- !Hfile, <- !Hdir.
  - intros -> (Henv & Hfile & Hdir & Hjoin).
    assert (GetEnv p' (kSettingsEnvVar Android)
            = GetEnv p (kSettingsEnvVar Android)) as Ee.
    { symmetry. apply Henv. unfold kSettingsEnvVar, kDataHome, kUserHome.
      rewrite !not_elem_of_cons.
      repeat split; (discriminate || apply not_elem_of_nil). }
    unfold FindLayerSettingsFile. rewrite Ee.
    by rewrite <- !Hjoin, <- !Hfile, <- !Hdir.
Qed.

(** ** Constructors, destructors and [GetExistingWrapper] *)

Lemma assoc_elem_of {A : Type} (k : string) (l : list (string * A)) (v : A) :
  assoc k l = Some v → (k, v) ∈ l.
Proof.
  induction l as [|[k' v'] l IH]; [done|]. cbn [assoc].
  destruct (String.eqb_spec k k') as [->|_].
  - intros [= ->]. apply elem_of_cons. by left.
  - intros H. apply elem_of_cons. right. by apply IH.
Qed.

(** Every class of the file has a chain that ends at [IUnknown_Wrapper]
    and holds at most one class with a map. *)
Lemma chains_ok : forallb (λ row, chain_ok row.1) wrapper_classes = true.
Proof. by vm_compute. Qed.

Lemma class_chain_ok (class : IID) :
  is_Some (assoc class wrapper_classes) →
  reaches_root chain_fuel class = true
  ∧ map_classes chain_fuel class =
      match interface_type class with Some ty => [ty] | None => [] end.
Proof.
  intros [row Hrow]. apply assoc_elem_of in Hrow.
  pose proof chains_ok as H. rewrite forallb_forall in H.
  apply list_elem_of_In in Hrow. specialize (H _ Hrow). cbn [fst] in H.
  unfold chain_ok in H. apply andb_true_iff in H as [Hroot Hmap].
  split; [done|].
  destruct (map_classes chain_fuel class) as [|c [|c' cs]],
    (interface_type class) as [ty|]; try done.
  by apply String.eqb_eq in Hmap as ->.
Qed.

Lemma Wrapper_ctor_maps (fuel : nat) (class riid : IID) (object : address)
    (id : CaptureId) (this : address) (reg : Registry) :
  object_map_ (Wrapper_ctor fuel class riid object id this reg) =
    foldr (λ c m, <[(c, object) := this]> m) (object_map_ reg)
      (map_classes fuel class).
Proof.
  revert class. induction fuel as [|fuel IH]; intros class; [done|].
  cbn [Wrapper_ctor map_classes].
  destruct (assoc class wrapper_classes) as [[base has_map]|]; [|done].
  destruct has_map; cbn; by rewrite IH.
Qed.

Lemma Wrapper_ctor_wrappers (fuel : nat) (class riid : IID) (object : address)
    (id : CaptureId) (this : address) (reg : Registry) :
  reaches_root fuel class = true →
  wrappers (Wrapper_ctor fuel class riid object id this reg) =
    <[this := {| w_object := object; w_riid := riid; w_capture_id := id |}]>
      (wrappers reg).
Proof.
  revert class. induction fuel as [|fuel IH]; intros class; [done|].
  cbn [Wrapper_ctor reaches_root].
  destruct (assoc class wrapper_classes) as [[base has_map]|]; [|done].
  intros Hroot. destruct has_map; cbn; by rewrite IH.
Qed.

Lemma Wrapper_ctor_other (fuel : nat) (class riid : IID) (object : address)
    (id : CaptureId) (this : address) (reg : Registry) :
  let reg' := Wrapper_ctor fuel class riid object id this reg in
  object_ids reg' = object_ids reg
  ∧ next_capture_id reg' = next_capture_id reg
  ∧ next_wrapper reg' = next_wrapper reg.
Proof.
  revert class. induction fuel as [|fuel IH]; intros class; [done|].
  cbn [Wrapper_ctor].
  destruct (assoc class wrapper_classes) as [[base has_map]|]; [|done].
  destruct has_map; cbn; apply IH.
Qed.

Lemma Wrapper_dtor_spec (fuel : nat) (class : IID) (this : address)
    (info : WrapperInfo) (reg : Registry) :
  reaches_root fuel class = true →
  wrappers reg !! this = Some info →
  Wrapper_dtor fuel class this reg =
    (map (λ _, this) (map_classes fuel class),
     set_wrappers (delete this)
       (set_object_map
          (λ m, foldl (λ m c, delete (c, w_object info) m) m
                  (map_classes fuel class)) reg)).
Proof.
  revert class reg. induction fuel as [|fuel IH]; intros class reg; [done|].
  cbn [Wrapper_dtor reaches_root map_classes].
  destruct (assoc class wrapper_classes) as [[base has_map]|];
    [|by destruct reg].
  intros Hroot Hthis. destruct has_map.
  - rewrite Hthis. rewrite (IH base _ Hroot) by done. done.
  - rewrite (IH base _ Hroot) by done. done.
Qed.

(** X13.  The constructor of a class of the file makes the wrapper live and
    registers it in one map at most: for a class that has a map or derives
    from one that has, [GetExistingWrapper] of that class then finds the
    wrapper under the object, and finds under every other class or object
    what it found before; for any other class no map changes. *)
Theorem constructed_wrapper_is_found (class riid : IID) (object : address)
    (id : CaptureId) (this : address) (reg : Registry) :
  is_Some (assoc class wrapper_classes) →
  let reg' := Wrapper_ctor chain_fuel class riid object id this reg in
  wrappers reg' !! this
    = Some {| w_object := object; w_riid := riid; w_capture_id := id |}
  ∧ match interface_type class with
    | Some ty =>
        GetExistingWrapper ty object reg' = Some this
        ∧ ∀ c o, (c, o) ≠ (ty, object) →
            GetExistingWrapper c o reg' = GetExistingWrapper c o reg
    | None => object_map_ reg' = object_map_ reg
    end.
Proof.
  intros Hclass. destruct (class_chain_ok class Hclass) as [Hroot Hmap].
  cbn zeta. split.
  - rewrite Wrapper_ctor_wrappers by done. by rewrite lookup_insert_eq.
  - unfold GetExistingWrapper, FindMapEntry.
    rewrite Wrapper_ctor_maps, Hmap.
    destruct (interface_type class) as [ty|]; [|done]. cbn [foldr]. split.
    + by rewrite lookup_insert_eq.
    + intros c o Hne. by rewrite lookup_insert_ne.
Qed.

Lemma constructed_wrapper_is_found_witness :
  is_Some (assoc "ID3D12Device5" wrapper_classes)
  ∧ GetExistingWrapper "ID3D12Device" 900%N
      (Wrapper_ctor chain_fuel "ID3D12Device5" "ID3D12Device5" 900%N 1%N 7%N
         initial_registry) = Some 7%N.
Proof.
  assert (is_Some (assoc "ID3D12Device5" wrapper_classes)) as H
    by (by eexists).
  split; [exact H|].
  exact (proj1 (proj2 (constructed_wrapper_is_found "ID3D12Device5"
                         "ID3D12Device5" 900%N 1%N 7%N initial_registry H))).
Defined.

(** X14.  The destructor of a live wrapper ends its life.  For a class that has a
    map or derives from one that has, it dispatches
    [CustomWrapperDestroyCall] once and removes the entry of the wrapped
    object from that map, whichever wrapper the entry names, leaving every
    other entry; for any other class it dispatches nothing and changes no
    map. *)
Theorem destroyed_wrapper_is_forgotten (class : IID) (this : address)
    (info : WrapperInfo) (reg : Registry) :
  is_Some (assoc class wrapper_classes) →
  wrappers reg !! this = Some info →
  let destroy_calls := (Wrapper_dtor chain_fuel class this reg).1 in
  let reg' := (Wrapper_dtor chain_fuel class this reg).2 in
  wrappers reg' !! this = None
  ∧ match interface_type class with
    | Some ty =>
        destroy_calls = [this]
        ∧ GetExistingWrapper ty (w_object info) reg' = None
        ∧ ∀ c o, (c, o) ≠ (ty, w_object info) →
            GetExistingWrapper c o reg' = GetExistingWrapper c o reg
    | None => destroy_calls = [] ∧ object_map_ reg' = object_map_ reg
    end.
Proof.
  intros Hclass Hthis. destruct (class_chain_ok class Hclass) as [Hroot Hmap].
  cbn zeta. rewrite (Wrapper_dtor_spec _ _ _ info) by done.
  rewrite Hmap. cbn [fst snd]. split; [cbn; by rewrite lookup_delete_eq|].
  unfold GetExistingWrapper, FindMapEntry.
  destruct (interface_type class) as [ty|]; [|done]. cbn. split; [done|].
  split; [by rewrite lookup_delete_eq|].
  intros c o Hne. by rewrite lookup_delete_ne.
Qed.

Lemma destroyed_wrapper_is_forgotten_witness :
  is_Some (assoc "ID3D12GraphicsCommandList" wrapper_classes)
  ∧ wrappers sample_registry !! 2%N
    = Some {| w_object := 901%N; w_riid := "ID3D12GraphicsCommandList";
              w_capture_id := 2%N |}
  ∧ wrappers
      (Wrapper_dtor chain_fuel "ID3D12GraphicsCommandList" 2%N
         sample_registry).2 !! 2%N = None.
Proof.
  assert (is_Some (assoc "ID3D12GraphicsCommandList" wrapper_classes)) as H
    by (by eexists).
  assert (wrappers sample_registry !! 2%N
          = Some {| w_object := 901%N; w_riid := "ID3D12GraphicsCommandList";
                    w_capture_id := 2%N |}) as Hw by (by vm_compute).
  split; [exact H|]. split; [exact Hw|].
  exact (proj1 (destroyed_wrapper_is_forgotten "ID3D12GraphicsCommandList"
                  2%N _ sample_registry H Hw)).
Defined.

Lemma registry_eq (r1 r2 : Registry) :
  object_map_ r1 = object_map_ r2 → wrappers r1 = wrappers r2 →
  object_ids r1 = object_ids r2 → next_capture_id r1 = next_capture_id r2 →
  next_wrapper r1 = next_wrapper r2 → r1 = r2.
Proof. destruct r1, r2. cbn. by intros -> -> -> -> ->. Qed.

(** X15.  Constructing a wrapper at an unused address, for an object that has no
    entry in the map of its class, and destroying it leaves the registry as
    it was. *)
Theorem construct_then_destroy (class riid : IID) (object : address)
    (id : CaptureId) (this : address) (reg : Registry) :
  is_Some (assoc class wrapper_classes) →
  wrappers reg !! this = None →
  (∀ ty, interface_type class = Some ty →
         GetExistingWrapper ty object reg = None) →
  (Wrapper_dtor chain_fuel class this
     (Wrapper_ctor chain_fuel class riid object id this reg)).2 = reg.
Proof.
  intros Hclass Hfresh Hnew.
  destruct (class_chain_ok class Hclass) as [Hroot Hmap].
  pose proof (Wrapper_ctor_other chain_fuel class riid object id this reg)
    as (O1 & O2 & O3).
  rewrite (Wrapper_dtor_spec _ _ _
             {| w_object := object; w_riid := riid; w_capture_id := id |});
    [|done|].
  2: { rewrite Wrapper_ctor_wrappers by done. by rewrite lookup_insert_eq. }
  cbn [snd].
  apply registry_eq;
    cbn [set_wrappers set_object_map object_map_ wrappers object_ids
         next_capture_id next_wrapper]; [| |done|done|done].
  - rewrite Wrapper_ctor_maps, Hmap.
    destruct (interface_type class) as [ty|]; [|done]. cbn [foldr foldl].
    apply delete_insert_id. by apply Hnew.
  - rewrite Wrapper_ctor_wrappers by done. by apply delete_insert_id.
Qed.

Lemma construct_then_destroy_witness :
  is_Some (assoc "IDXGISurface1" wrapper_classes)
  ∧ wrappers initial_registry !! 7%N = None
  ∧ (Wrapper_dtor chain_fuel "IDXGISurface1" 7%N
       (Wrapper_ctor chain_fuel "IDXGISurface1" "IDXGISurface1" 900%N 1%N 7%N
          initial_registry)).2 = initial_registry.
Proof.
  assert (is_Some (assoc "IDXGISurface1" wrapper_classes)) as H
    by (by eexists).
  split; [exact H|]. split; [reflexivity|].
  apply (construct_then_destroy "IDXGISurface1" "IDXGISurface1" 900%N 1%N 7%N
           initial_registry H); [reflexivity|].
  intros ty _. reflexivity.
Defined.

Lemma interface_type_class (riid ty : IID) :
  interface_type riid = Some ty → is_Some (assoc riid wrapper_classes).
Proof.
  unfold interface_type.
  destruct (length wrapper_classes) as [|fuel]; [done|].
  cbn [object_map_owner].
  destruct (assoc riid wrapper_classes) as [row|]; [by eexists|done].
Qed.

(** X16.  What [Wrap] registers for an object that has no wrapper of the class
    yet is what the constructor of the wrapper class of the interface
    registers, for a wrapper at the next free address: the same maps and
    the same live wrappers. *)
Theorem Wrap_registers_as_constructor (riid ty : IID) (o : address)
    (reg : Registry) :
  interface_type riid = Some ty →
  GetExistingWrapper ty o reg = None →
  let id := default (next_capture_id reg) (object_ids reg !! o) in
  let constructed :=
    Wrapper_ctor chain_fuel riid riid o id (next_wrapper reg) reg in
  (Wrap riid o reg).1 = Wrapped (next_wrapper reg)
  ∧ object_map_ (Wrap riid o reg).2 = object_map_ constructed
  ∧ wrappers (Wrap riid o reg).2 = wrappers constructed.
Proof.
  intros Hty Hnone. cbn zeta.
  destruct (class_chain_ok riid (interface_type_class riid ty Hty))
    as [Hroot Hmap].
  rewrite Wrapper_ctor_maps, Wrapper_ctor_wrappers, Hmap by done.
  unfold GetExistingWrapper, FindMapEntry in Hnone.
  unfold Wrap. by rewrite Hty, Hnone.
Qed.

Lemma Wrap_registers_as_constructor_witness :
  interface_type "ID3D12Device5" = Some "ID3D12Device"
  ∧ GetExistingWrapper "ID3D12Device" 900%N initial_registry = None
  ∧ (Wrap "ID3D12Device5" 900%N initial_registry).1 = Wrapped 1%N.
Proof.
  assert (interface_type "ID3D12Device5" = Some "ID3D12Device") as H
    by (vm_compute; reflexivity).
  split; [exact H|]. split; [reflexivity|].
  exact (proj1 (Wrap_registers_as_constructor "ID3D12Device5" "ID3D12Device"
                  900%N initial_registry H eq_refl)).
Defined.

(** ** Forwarding *)

Lemma run_all_forwards (cs : list Call) :
  Forall (λ c, ∀ t s, 0 < call_scope t s →
                ∃ evs, log (run t c s).2 = log s ++ evs
                       ∧ count_events is_forward evs = calls c) cs →
  ∀ t s, 0 < call_scope t s →
    ∃ evs, log (run_all t cs s).2 = log s ++ evs
           ∧ count_events is_forward evs = calls_all cs.
Proof.
  induction 1 as [|c cs Hc _ IH]; intros t s Hpos.
  - exists []. by rewrite app_nil_r.
  - cbn [run_all calls_all]. unfold bind.
    destruct (Hc t s Hpos) as (evs1 & Hl1 & Hn1).
    destruct (run_reentrant c t s Hpos) as (_ & _ & Hs & _).
    destruct (run t c s) as [r s1]. cbn [snd] in *.
    destruct (IH t s1) as (evs2 & Hl2 & Hn2); [rewrite Hs; done|].
    exists (evs1 ++ evs2). rewrite Hl2, Hl1, <- app_assoc. split; [done|].
    rewrite count_events_app. lia.
Qed.

Lemma run_reentrant_forwards (c : Call) :
  ∀ t s, 0 < call_scope t s →
    ∃ evs, log (run t c s).2 = log s ++ evs
           ∧ count_events is_forward evs = calls c.
Proof.
  induction c as [ep this args outcome callbacks IH] using Call_ind'.
  intros t s Hpos. rewrite run_unfold, calls_unfold.
  rewrite wrapper_body_reentrant by lia. rewrite driver_eq.
  cbn zeta. cbn [fst snd].
  remember (emit (EvForward (real_target this s).1 (ep_id ep)
                    (map (view_arg (IncrementCallScope t s).2) args))
                 (IncrementCallScope t s).2).2 as s1 eqn:Hs1.
  assert (call_scope t s1 = call_scope t s + 1) as Hd1.
  { subst s1. unfold call_scope. cbn. by rewrite lookup_insert_eq. }
  assert (log s1 = log s ++ [EvIncrementCallScope t (call_scope t s + 1);
                             EvForward (real_target this s).1 (ep_id ep)
                               (map (view_arg (IncrementCallScope t s).2)
                                  args)]) as Pl.
  { subst s1. cbn. by rewrite <- app_assoc. }
  clear Hs1.
  destruct (run_all_forwards callbacks IH t s1) as (evs & Hl & Hn); [lia|].
  eexists. split.
  - cbv [DecrementCallScope bind emit ret set_call_scope set_app_memory].
    cbn [fst snd log]. rewrite Hl, Pl, <- !app_assoc. reflexivity.
  - rewrite !count_events_app, Hn. cbn. lia.
Qed.

(** X17.  Every call of an execution, the outermost one and each nested one,
    forwards to its callee exactly once: the execution logs as many
    forwarded calls as it has calls. *)
Theorem each_call_forwards_once (t : thread) (c : Call) (s : State) :
  0 ≤ call_scope t s →
  ∃ evs, log (run t c s).2 = log s ++ evs
         ∧ count_events is_forward evs = calls c.
Proof.
  intros Hpos. destruct (decide (call_scope t s = 0)) as [Hz|Hnz];
    [|apply run_reentrant_forwards; lia].
  destruct c as [ep this args outcome callbacks].
  rewrite run_unfold, calls_unfold, wrapper_body_outermost by done.
  cbn zeta.
  pose proof (enter_spec ep t this args s) as (_ & _ & _ & _ & E5 & E6 & _).
  pose proof (unwrap_args_spec t args (ep_params ep) args
                (enter ep t this args s)) as ((_ & _ & _ & _ & G5 & G6 & _) & _).
  destruct (unwrap_args t args (ep_params ep) args (enter ep t this args s))
    as [args' s2]. cbn [snd] in G5, G6.
  rewrite driver_eq. cbn zeta.
  remember (emit (EvForward (outer_target ep this s).1 (ep_id ep)
                    (map (view_arg s2) args')) s2).2 as s2' eqn:Hs2'.
  assert (call_scope t s2' = 1) as Hd.
  { subst s2'. unfold call_scope in *. cbn. rewrite G5.
    specialize (E5 t). rewrite decide_True in E5 by done.
    unfold call_scope in E5. rewrite E5. lia. }
  assert (log s2' = log s2 ++ [EvForward (outer_target ep this s).1 (ep_id ep)
                                 (map (view_arg s2) args')]) as Pl
    by (by subst s2').
  clear Hs2'.
  destruct (run_all_forwards callbacks) with (t := t) (s := s2')
    as (evs & Hl & Hn); [|lia|].
  { apply Forall_forall. intros c _. apply run_reentrant_forwards. }
  pose proof (wrap_on_success_spec ep (out_result outcome) args
                (set_app_memory (apply_writes (out_writes outcome))
                   (run_all t callbacks s2').2))
    as ((_ & _ & _ & _ & evs_wrap & W5 & W6) & _).
  destruct (wrap_on_success ep (out_result outcome) args _) as [[] s4].
  cbn [snd] in W5.
  pose proof (leave_spec ep t this args (out_result outcome) s4)
    as (_ & _ & _ & _ & _ & _ & L7).
  cbn [snd]. rewrite L7, W5. cbn [log set_app_memory].
  rewrite Hl, Pl, G6, E6. rewrite <- !app_assoc. eexists. split; [done|].
  assert (count_events is_forward evs_wrap = 0%nat) as Hw.
  { unfold count_events. rewrite filter_none; [done|].
    eapply Forall_impl; [exact W6|]. intros e. by destruct e. }
  rewrite !count_events_app, Hn, Hw.
  destruct (needs_memory (ep_params ep)); cbn; lia.
Qed.

Lemma each_call_forwards_once_witness :
  0 ≤ call_scope 0%nat initial_state
  ∧ ∃ evs, log (run 0%nat sample_call initial_state).2
           = log initial_state ++ evs
           ∧ count_events is_forward evs = calls sample_call.
Proof.
  assert (0 ≤ call_scope 0%nat initial_state) as H
    by (vm_compute; discriminate).
  split; [exact H|].
  exact (each_call_forwards_once 0%nat sample_call initial_state H).
Defined.

(** ** [FindLayerSettingsFile] on [sample_platform] *)

Lemma same_but_setenv (name value : string) (p : Platform) :
  same_but [name] p (setenv name value p).
Proof.
  split; [|done]. intros n Hn. cbn.
  destruct (String.eqb_spec n name) as [->|_]; [|done].
  destruct Hn. apply elem_of_cons. by left.
Qed.

Lemma FindLayerSettingsFile_precedence_witness :
  data_home sample_platform ≠ EmptyString
  ∧ IsFile sample_platform
      (vkconfig_path sample_platform (data_home sample_platform)) = true
  ∧ FindLayerSettingsFile Linux sample_platform
    = "/home/u/.local/share/vulkan/settings.d/vk_layer_settings.txt"
  ∧ FindLayerSettingsFile Android sample_platform
    = "/etc/layers/vk_layer_settings.txt".
Proof.
  assert (data_home sample_platform ≠ EmptyString) as H1
    by (vm_compute; discriminate).
  split; [exact H1|]. split; [reflexivity|]. split.
  - exact (proj1 (FindLayerSettingsFile_precedence Linux sample_platform)
             eq_refl H1 eq_refl).
  - refine (proj2 (FindLayerSettingsFile_precedence Android sample_platform)
              (or_introl eq_refl) _ _ eq_refl);
      vm_compute; discriminate.
Defined.

Lemma FindLayerSettingsFile_ignores_witness :
  GetEnv (setenv kDataHome "/data" sample_platform) kDataHome ≠ EmptyString
  ∧ FindLayerSettingsFile Linux (setenv kDataHome "/data" sample_platform)
    = FindLayerSettingsFile Linux
        (setenv kUserHome "/root" (setenv kDataHome "/data" sample_platform))
  ∧ FindLayerSettingsFile Linux (setenv kDataHome "/data" sample_platform)
    = "/etc/layers/vk_layer_settings.txt".
Proof.
  assert (GetEnv (setenv kDataHome "/data" sample_platform) kDataHome
          ≠ EmptyString) as H by (vm_compute; discriminate).
  split; [exact H|]. split; [|reflexivity].
  exact (proj1 (FindLayerSettingsFile_ignores Linux _ _) eq_refl H
           (same_but_setenv kUserHome "/root" _)).
Defined.

(** ** The memory of the application *)

(** X18.  Outside the output slots a successful outermost call wraps, the memory
    of the application is after a call what the callees of the execution
    wrote: a nested call, a failed call and a call without outputs to wrap
    change nothing else at all. *)
Theorem memory_is_what_the_callees_wrote (t : thread) (ep : EntryPoint)
    (this : option address) (args : list arg) (outcome : Outcome)
    (callbacks : list Call) (s : State) (a : address) :
  0 ≤ call_scope t s →
  0 < call_scope t s
  ∨ SUCCEEDED (out_result outcome) = false
  ∨ PApp a ∉ map (wrap_slot args) (ep_wraps ep) →
  app_memory (run t (MkCall ep this args outcome callbacks) s).2 !! a
    = apply_writes (tree_writes (MkCall ep this args outcome callbacks))
        (app_memory s) !! a.
Proof.
  intros Hpos Hcase.
  destruct (decide (call_scope t s = 0)) as [Hz|Hnz].
  - destruct Hcase as [?|Hcase]; [lia|].
    destruct (run_outermost t ep this args outcome callbacks s Hz)
      as (args' & s2 & evs & s3 & s4 & -> & Hun & _ & _ & Hm3 & _ & _ & _ & _
          & ->).
    pose proof (enter_spec ep t this args s) as (_ & _ & _ & E4 & _).
    pose proof (unwrap_args_spec t args (ep_params ep) args
                  (enter ep t this args s)) as [Hg _].
    rewrite Hun in Hg. cbn [snd] in Hg. destruct Hg as (_ & _ & _ & G4 & _).
    pose proof (leave_spec ep t this args (out_result outcome)
                  (wrap_on_success ep (out_result outcome) args s3).2)
      as (_ & _ & L3 & _).
    cbn [snd]. rewrite L3, wrap_on_success_state.
    destruct Hcase as [->|Hslot]; [by rewrite Hm3, G4, E4|].
    destruct (SUCCEEDED (out_result outcome)); [|by rewrite Hm3, G4, E4].
    destruct (wrap_outputs_spec args (ep_wraps ep) s3) as (_ & _ & Hmem).
    rewrite (Hmem a Hslot). by rewrite Hm3, G4, E4.
  - destruct (run_reentrant (MkCall ep this args outcome callbacks) t s)
      as (_ & _ & _ & -> & _); [lia|done].
Qed.

Lemma memory_is_what_the_callees_wrote_witness :
  0 ≤ call_scope 0%nat initial_state
  ∧ SUCCEEDED E_FAIL = false
  ∧ app_memory (run 0%nat failing_call initial_state).2 !! 100%N = None.
Proof.
  assert (0 ≤ call_scope 0%nat initial_state) as H
    by (vm_compute; discriminate).
  split; [exact H|]. split; [reflexivity|].
  exact (memory_is_what_the_callees_wrote 0%nat D3D12CreateDevice_ep None
           [Obj Null; Val 45056; Iid "ID3D12Device"; Ptr (PApp 100%N)]
           {| out_result := E_FAIL; out_writes := [] |} [] initial_state
           100%N H (or_intror (or_introl eq_refl))).
Defined.

(** ** [D3D12SerializeRootSignature] *)

Lemma D3D12SerializeRootSignature_in_table :
  entry_point "D3D12SerializeRootSignature"
    = Some D3D12SerializeRootSignature_ep.
Proof. by vm_compute. Qed.

Lemma D3D12SerializeRootSignature_pattern t env pRootSignature Version ppBlob
    ppErrorBlob s :
  D3D12SerializeRootSignature t env pRootSignature Version ppBlob ppErrorBlob s
  = wrapper_body D3D12SerializeRootSignature_ep t env None
      [Ptr pRootSignature; Val Version; Ptr ppBlob; Ptr ppErrorBlob] s.
Proof. reflexivity. Qed.

(** X19.  When [D3D12SerializeRootSignature] fails, the cells the driver wrote,
    the error blob it returns with the failure among them, are handed to
    the application as they are: the blob is not wrapped, although
    [ID3D10Blob] has a wrapper class, and nothing is registered.  The
    status of the driver is returned. *)
Theorem error_blob_is_handed_back_raw (t : thread) (pRootSignature : pointer)
    (Version : Z) (ppBlob ppErrorBlob : pointer) (outcome : Outcome)
    (callbacks : list Call) (s : State) :
  call_scope t s = 0 →
  SUCCEEDED (out_result outcome) = false →
  let call :=
    D3D12SerializeRootSignature t (driver outcome (run_all t callbacks))
      pRootSignature Version ppBlob ppErrorBlob s in
  call.1 = out_result outcome
  ∧ app_memory call.2
    = apply_writes (tree_writes_all callbacks ++ out_writes outcome)
        (app_memory s)
  ∧ registry call.2 = registry s
  ∧ interface_type "ID3D10Blob" = Some "ID3D10Blob".
Proof.
  intros Hscope Hfail. cbn zeta.
  rewrite D3D12SerializeRootSignature_pattern, <- run_unfold.
  destruct (run_outermost_state t D3D12SerializeRootSignature_ep None
              [Ptr pRootSignature; Val Version; Ptr ppBlob; Ptr ppErrorBlob]
              outcome callbacks s Hscope) as (Hres & _ & _ & _ & _ & Hf).
  destruct (Hf Hfail) as [Hreg Hmem]. rewrite tree_writes_unfold in Hmem.
  split; [done|]. split; [done|]. split; [done|]. by vm_compute.
Qed.

Lemma error_blob_is_handed_back_raw_witness :
  call_scope 0%nat initial_state = 0
  ∧ SUCCEEDED E_FAIL = false
  ∧ app_memory
      (D3D12SerializeRootSignature 0%nat
         (driver {| out_result := E_FAIL;
                    out_writes := [(101%N, [FObj "ID3D10Blob" (Real 900%N)])] |}
            (run_all 0%nat []))
         (PApp 50%N) 1 (PApp 100%N) (PApp 101%N) initial_state).2 !! 101%N
    = Some [FObj "ID3D10Blob" (Real 900%N)].
Proof.
  split; [reflexivity|]. split; [reflexivity|].
  pose proof (error_blob_is_handed_back_raw 0%nat (PApp 50%N) 1 (PApp 100%N)
                (PApp 101%N)
                {| out_result := E_FAIL;
                   out_writes := [(101%N, [FObj "ID3D10Blob" (Real 900%N)])] |}
                [] initial_state eq_refl eq_refl) as (_ & Hmem & _).
  rewrite Hmem. reflexivity.
Defined.

(** ** The token buffers and loading again *)

(** [sscanf] counts the same whatever the buffers hold, and when it reads
    two tokens the buffers afterwards do not depend on what they held. *)
Lemma sscanf_buffers (input key0 value0 key1 value1 : string) :
  (sscanf input key0 value0).1.1 = (sscanf input key1 value1).1.1
  ∧ ((sscanf input key0 value0).1.1 = 2 →
     sscanf input key0 value0 = sscanf input key1 value1).
Proof.
  unfold sscanf.
  destruct (is_empty (skip_space input)); [done|].
  destruct (scan_set key_char (kDefaultTokenSize - 1) (skip_space input))
    as [k s2].
  destruct (is_empty k); [done|].
  destruct (skip_space s2) as [|c s4]; [done|].
  destruct (Ascii.eqb c EQUALS); [|done].
  destruct (is_empty (skip_space s4)); [done|].
  destruct (scan_set value_char (kDefaultTokenSize - 1) (skip_space s4))
    as [v s6].
  by destruct (is_empty v).
Qed.

(** The map after the loop body is the map before, with the entry of the
    line stored when the line has one. *)
Lemma process_line_entry (filter line : string) (st st' : LoopState) :
  process_line filter line st = Some st' →
  settings_map st' =
    match line_entry filter line with
    | Some entry => store (settings_map st) entry
    | None => settings_map st
    end.
Proof.
  unfold process_line, line_entry.
  destruct (sscanf_buffers (c_str (strip_comment line)) (key_buf st)
              (value_buf st) EmptyString EmptyString) as [Hn Heq].
  destruct (sscanf (c_str (strip_comment line)) (key_buf st) (value_buf st))
    as [[n key] value] eqn:Hs. cbn [fst] in Hn, Heq.
  destruct (Z.eqb_spec n 2) as [->|Hne].
  - rewrite <- (Heq eq_refl). cbn [andb Z.eqb Pos.eqb].
    destruct (is_empty filter || _).
    + destruct (RemoveQuotes value) as [unquoted|]; [|done].
      by intros [= <-].
    + by intros [= <-].
  - destruct (sscanf (c_str (strip_comment line)) EmptyString EmptyString)
      as [[n' key'] value']. cbn [fst] in Hn. subst n'.
    destruct (Z.eqb_spec n 2) as [?|_]; [done|]. cbn [andb].
    by intros [= <-].
Qed.

Lemma process_lines_entries (filter : string) (ls : list string)
    (st st' : LoopState) :
  process_lines filter ls st = Some st' →
  settings_map st' = foldl store (settings_map st) (omap (line_entry filter) ls).
Proof.
  revert st. induction ls as [|l ls IH]; intros st; [by intros [= <-]|].
  cbn [process_lines].
  destruct (process_line filter l st) as [st1|] eqn:Hl; [|done].
  cbn [mbind option_bind]. intros Hrest. rewrite (IH _ Hrest).
  rewrite (process_line_entry _ _ _ _ Hl).
  change (omap (line_entry filter) (l :: ls))
    with (match line_entry filter l with
          | Some entry => entry :: omap (line_entry filter) ls
          | None => omap (line_entry filter) ls
          end).
  by destruct (line_entry filter l).
Qed.

Lemma store_absorbs (es : list (string * string)) (m : gmap string string)
    (k v v' : string) :
  <[k := v]> (foldl store (<[k := v']> m) es) = <[k := v]> (foldl store m es).
Proof.
  revert m. induction es as [|[k1 v1] es IH]; intros m; cbn [foldl].
  - apply insert_insert_eq.
  - unfold store at 2 4. cbn [fst snd].
    destruct (decide (k1 = k)) as [->|Hne].
    + by rewrite insert_insert_eq.
    + rewrite (insert_insert_ne m k1 k) by done. apply IH.
Qed.

Lemma store_twice (es : list (string * string)) (m : gmap string string) :
  foldl store (foldl store m es) es = foldl store m es.
Proof.
  revert m. induction es as [|[k v] es IH] using rev_ind; intros m; [done|].
  rewrite !foldl_app. cbn [foldl]. unfold store at 1 3 5. cbn [fst snd].
  rewrite store_absorbs. by rewrite IH.
Qed.

(** X20.  What the loop body stores never comes from the token buffers of an
    earlier line: the map after a line depends on the line, the filter and
    the map before, not on what [key] and [value] held. *)
Theorem stale_tokens_are_never_stored (filter line : string)
    (st1 st2 : LoopState) :
  settings_map st1 = settings_map st2 →
  settings_map <$> process_line filter line st1
    = settings_map <$> process_line filter line st2.
Proof.
  intros Hmap.
  destruct (process_line_cases filter line st1) as (st1' & H1 & _).
  destruct (process_line_cases filter line st2) as (st2' & H2 & _).
  rewrite H1, H2. cbn. f_equal.
  rewrite (process_line_entry _ _ _ _ H1), (process_line_entry _ _ _ _ H2).
  by rewrite Hmap.
Qed.

Lemma stale_tokens_are_never_stored_witness :
  settings_map {| key_buf := "old.key"; value_buf := "old";
                  settings_map := ∅ |}
    = settings_map (loop_start ∅)
  ∧ settings_map <$> process_line "" "new.key ="
                       {| key_buf := "old.key"; value_buf := "old";
                          settings_map := ∅ |}
    = settings_map <$> process_line "" "new.key =" (loop_start ∅).
Proof.
  split; [reflexivity|].
  exact (stale_tokens_are_never_stored "" "new.key ="
           {| key_buf := "old.key"; value_buf := "old"; settings_map := ∅ |}
           (loop_start ∅) eq_refl).
Defined.

(** X21.  Loading a file again, into the map the first load produced, returns the
    same code and leaves the map as it is. *)
Theorem loading_again_changes_nothing (filename filter : string)
    (m m1 : gmap string string) (w w1 : World) (result : Z) :
  LoadLayerSettingsFile filename filter (Some m) w
    = Some (result, Some m1, w1) →
  ∃ w2, LoadLayerSettingsFile filename filter (Some m1) w1
        = Some (result, Some m1, w2).
Proof.
  intros Hload.
  destruct (files w !! filename) as [[err|content read_error]|] eqn:Hfile.
  - rewrite (LoadLayerSettingsFile_unreadable _ _ _ _ _ Hfile) in Hload.
    injection Hload as <- <- <-.
    rewrite (LoadLayerSettingsFile_unreadable _ _ _ _ err) by done.
    by eexists.
  - rewrite (LoadLayerSettingsFile_readable _ _ _ _ _ _ Hfile) in Hload.
    destruct (process_lines filter (split_lines content).1 (loop_start m))
      as [st'|] eqn:Hst; [|done].
    injection Hload as <- <- <-.
    rewrite (LoadLayerSettingsFile_readable _ _ content read_error)
      by done.
    destruct (process_lines_total filter (split_lines content).1
                (loop_start (settings_map st'))) as [st'' Hst'].
    rewrite Hst'. cbn [mbind option_bind]. eexists. do 3 f_equal.
    rewrite (process_lines_entries _ _ _ _ Hst').
    rewrite (process_lines_entries _ _ _ _ Hst). cbn [settings_map loop_start].
    by rewrite store_twice.
  - rewrite (LoadLayerSettingsFile_missing _ _ _ _ Hfile) in Hload.
    injection Hload as <- <- <-.
    rewrite (LoadLayerSettingsFile_missing _ _ _ _) by done.
    by eexists.
Qed.

Lemma loading_again_changes_nothing_witness :
  LoadLayerSettingsFile "broken.txt" "" (Some ∅) sample_world
    = Some (5, Some {[ "a" := "1" ]},
            world_after "broken.txt" (Some 5) sample_world)
  ∧ ∃ w2, LoadLayerSettingsFile "broken.txt" ""
            (Some {[ "a" := "1" ]})
            (world_after "broken.txt" (Some 5) sample_world)
          = Some (5, Some {[ "a" := "1" ]}, w2).
Proof.
  assert (LoadLayerSettingsFile "broken.txt" "" (Some ∅) sample_world
          = Some (5, Some {[ "a" := "1" ]},
                  world_after "broken.txt" (Some 5) sample_world)) as H
    by (vm_compute; reflexivity).
  split; [exact H|].
  exact (loading_again_changes_nothing _ _ _ _ _ _ _ H).
Defined.

(** ** From a created object to the calls on it *)



